(** * TimeTracker: document keys, the session store and the activity poller

    A shallow embedding of the browser extension's core:
    - [Background.generateDocKey] / [Popup.generateDocKey]   (background.js, popup/popup.js)
    - [IndexedDBManager]                                      (db/indexedDb.js and its copies)
    - [Background.trackActiveTab] and the tab listeners       (background.js)
    - [Dashboard.deleteDocument]                              (dashboard/app.js)

    JavaScript values are modelled as follows: strings are [string]
    (restricted to 8-bit code units), numbers that the program only ever
    uses as integers (durations, counters, tab ids, time values) are [Z],
    objects used as dictionaries and IndexedDB object stores are [gmap],
    exceptions are the [Throw] constructor of [result]. *)

From Stdlib Require Import ZArith Ascii String DecimalString Lia.
From stdpp Require Import base option list gmap strings sorting.

Local Open Scope string_scope.
Local Open Scope Z_scope.

(** ** JavaScript preliminaries *)

Module JS.

Inductive Error := TypeError | RangeError.

Inductive result (A : Type) :=
| Ok (a : A)
| Throw (e : Error).
Arguments Ok {A} a.
Arguments Throw {A} e.

(** Sequencing of computations that may throw: [x ← r; k] is stdpp's
    notation for [mbind]. *)
#[global] Instance result_ret : MRet result := λ A a, Ok a.
#[global] Instance result_bind : MBind result := λ A B k r,
  match r with
  | Ok a => k a
  | Throw e => Throw e
  end.

(** [s.startsWith(p)] *)
Fixpoint startsWith (p s : string) : bool :=
  match p, s with
  | EmptyString, _ => true
  | String a p', String b s' => if Ascii.eqb a b then startsWith p' s' else false
  | String _ _, EmptyString => false
  end.

(** [s.includes(sub)] *)
Fixpoint includes (sub s : string) : bool :=
  if startsWith sub s then true
  else match s with
       | EmptyString => false
       | String _ s' => includes sub s'
       end.

(** [s.split(sep)[0]] for a one-character separator. *)
Fixpoint split_head (sep : ascii) (s : string) : string :=
  match s with
  | EmptyString => EmptyString
  | String c s' => if Ascii.eqb c sep then EmptyString else String c (split_head sep s')
  end.

(** [s.substring(0, n)] *)
Fixpoint substring0 (n : nat) (s : string) : string :=
  match n, s with
  | S n', String c s' => String c (substring0 n' s')
  | _, _ => EmptyString
  end.

Definition code (c : ascii) : N := N_of_ascii c.

Definition in_range (lo hi c : ascii) : bool :=
  (code lo <=? code c)%N && (code c <=? code hi)%N.

Definition is_lower (c : ascii) : bool := in_range "a" "z" c.
Definition is_upper (c : ascii) : bool := in_range "A" "Z" c.
Definition is_digit (c : ascii) : bool := in_range "0" "9" c.

Definition to_lower (c : ascii) : ascii :=
  if is_upper c then ascii_of_N (code c + 32) else c.

Fixpoint toLowerCase (s : string) : string :=
  match s with
  | EmptyString => EmptyString
  | String c s' => String (to_lower c) (toLowerCase s')
  end.

(** The text of an integer in a template literal. *)
Definition toString (n : Z) : string := NilZero.string_of_int (Z.to_int n).

(** [Number.MAX_SAFE_INTEGER]: up to it, in absolute value, the numbers
    of the platform are the integers, and their quotients by a small
    integer have the floor that the exact quotient has. *)
Definition MAX_SAFE_INTEGER : Z := 9007199254740991.

Definition isSafeInteger (n : Z) : Prop := - MAX_SAFE_INTEGER ≤ n ≤ MAX_SAFE_INTEGER.

(** [Array.prototype.sort(cmp)].  The sort is stable; with a consistent
    comparator its result is the one of any stable sort, here of
    insertion from the right.  [cmp a b <= 0] keeps [a] before [b]. *)
Fixpoint sort_insert {A} (cmp : A → A → Z) (x : A) (l : list A) : list A :=
  match l with
  | [] => [x]
  | y :: l' => if cmp x y <=? 0 then x :: l else y :: sort_insert cmp x l'
  end.

Definition sort {A} (cmp : A → A → Z) (l : list A) : list A :=
  foldr (sort_insert cmp) [] l.

End JS.

(** ** Regular expressions

    The five patterns of [generateDocKey] are sequences of literal
    characters and capturing groups of the form [([class]+)].  [exec] is
    the leftmost, greedy, backtracking search of
    [String.prototype.match] for a pattern without the [g] flag; its
    result is the list [match[1]; match[2]; ...]. *)

Module Regex.

Inductive atom :=
| Lit (c : ascii)
| Capture (cls : ascii → bool).

Definition regex := list atom.

Fixpoint lits (s : string) : regex :=
  match s with
  | EmptyString => []
  | String c s' => Lit c :: lits s'
  end.

(** [([cls]+)] followed by the continuation [k]: the longest run is tried
    first, shorter ones on backtracking. *)
Fixpoint match_capture (cls : ascii → bool) (k : string → option (list string))
    (s : string) : option (string * list string) :=
  match s with
  | EmptyString => None
  | String c s' =>
      if cls c then
        match match_capture cls k s' with
        | Some (cap, caps) => Some (String c cap, caps)
        | None =>
            match k s' with
            | Some caps => Some (String c EmptyString, caps)
            | None => None
            end
        end
      else None
  end.

Fixpoint match_here (r : regex) (s : string) : option (list string) :=
  match r with
  | [] => Some []
  | Lit c :: r' =>
      match s with
      | String c' s' => if Ascii.eqb c c' then match_here r' s' else None
      | EmptyString => None
      end
  | Capture cls :: r' =>
      match match_capture cls (match_here r') s with
      | Some (cap, caps) => Some (cap :: caps)
      | None => None
      end
  end.

Fixpoint exec (r : regex) (s : string) : option (list string) :=
  match match_here r s with
  | Some caps => Some caps
  | None =>
      match s with
      | EmptyString => None
      | String _ s' => exec r s'
      end
  end.

(** [match[n]] for [n >= 1]: the text of the [n]-th group. *)
Definition group (n : nat) (m : list string) : string := nth (n - 1) m EmptyString.

(** [[a-zA-Z0-9-_]] *)
Definition id_class (c : ascii) : bool :=
  JS.is_lower c || JS.is_upper c || JS.is_digit c
  || Ascii.eqb c "-" || Ascii.eqb c "_".

(** [[a-z]] and [[a-z0-9]] *)
Definition lower_class (c : ascii) : bool := JS.is_lower c.
Definition lower_digit_class (c : ascii) : bool := JS.is_lower c || JS.is_digit c.

(** [/\/document\/d\/([a-zA-Z0-9-_]+)/] *)
Definition re_document : regex := (lits "/document/d/" ++ [Capture id_class])%list.
(** [/\/spreadsheets\/d\/([a-zA-Z0-9-_]+)/] *)
Definition re_spreadsheets : regex := (lits "/spreadsheets/d/" ++ [Capture id_class])%list.
(** [/\/([a-z]+)\/([a-z0-9]+)/] *)
Definition re_office : regex :=
  [Lit "/"; Capture lower_class; Lit "/"; Capture lower_digit_class].
(** [/\/chat\/([a-zA-Z0-9-_]+)/] *)
Definition re_chat : regex := (lits "/chat/" ++ [Capture id_class])%list.
(** [/\/c\/([a-zA-Z0-9-_]+)/] *)
Definition re_c : regex := (lits "/c/" ++ [Capture id_class])%list.

End Regex.

(** ** The platform's URL constructor

    [generateDocKey] reads two components of [new URL(tab.url)]:
    [hostname] and [pathname].  [Url.parse] computes them for absolute
    URLs the way the URL standard does, and returns [None] where the
    constructor throws a [TypeError] (no scheme, empty or forbidden host of
    a special scheme, bad port).  Not modelled: percent-encoding, removal
    of dot segments, stripping of surrounding white space, IDNA,
    numeric and IPv6 hosts. *)

Module Url.

Record URL := { hostname : string; pathname : string }.

Definition is_alpha (c : ascii) : bool := JS.is_lower c || JS.is_upper c.

Definition scheme_char (c : ascii) : bool :=
  is_alpha c || JS.is_digit c || Ascii.eqb c "+" || Ascii.eqb c "-" || Ascii.eqb c ".".

(** Splits [scheme ":" rest]; the scheme comes back in lower case. *)
Fixpoint scheme_tail (s : string) : option (string * string) :=
  match s with
  | EmptyString => None
  | String c s' =>
      if Ascii.eqb c ":" then Some (EmptyString, s')
      else if scheme_char c then
        match scheme_tail s' with
        | Some (sch, rest) => Some (String (JS.to_lower c) sch, rest)
        | None => None
        end
      else None
  end.

Definition split_scheme (s : string) : option (string * string) :=
  match s with
  | String c _ => if is_alpha c then scheme_tail s else None
  | EmptyString => None
  end.

(** The longest prefix whose characters all fail [stop], and the rest. *)
Fixpoint break (stop : ascii → bool) (s : string) : string * string :=
  match s with
  | EmptyString => (EmptyString, EmptyString)
  | String c s' =>
      if stop c then (EmptyString, s)
      else let '(a, b) := break stop s' in (String c a, b)
  end.

Fixpoint drop_while (p : ascii → bool) (s : string) : string :=
  match s with
  | EmptyString => EmptyString
  | String c s' => if p c then drop_while p s' else s
  end.

Fixpoint skip (n : nat) (s : string) : string :=
  match n, s with
  | S n', String _ s' => skip n' s'
  | _, _ => s
  end.

(** What follows the last ["@"] (the whole string when there is none):
    the authority without its credentials. *)
Fixpoint after_last_at (s : string) : string :=
  match s with
  | EmptyString => EmptyString
  | String c s' =>
      if JS.includes "@" s' then after_last_at s'
      else if Ascii.eqb c "@" then s'
      else s
  end.

Fixpoint all_chars (p : ascii → bool) (s : string) : bool :=
  match s with
  | EmptyString => true
  | String c s' => p c && all_chars p s'
  end.

Definition is_slash (c : ascii) : bool := Ascii.eqb c "/" || Ascii.eqb c "\".
Definition is_query_or_fragment (c : ascii) : bool := Ascii.eqb c "?" || Ascii.eqb c "#".

(** Forbidden domain code points (of the 8-bit range). *)
Definition forbidden_host_char (c : ascii) : bool :=
  (JS.code c <=? 32)%N || (127 <=? JS.code c)%N
  || JS.includes (String c EmptyString) "#%/:<>?@[\]^|".

Definition special (scheme : string) : bool :=
  String.eqb scheme "http" || String.eqb scheme "https"
  || String.eqb scheme "ws" || String.eqb scheme "wss" || String.eqb scheme "ftp".

Fixpoint back_to_forward (s : string) : string :=
  match s with
  | EmptyString => EmptyString
  | String c s' => String (if Ascii.eqb c "\" then "/"%char else c) (back_to_forward s')
  end.

Fixpoint decimal (acc : N) (s : string) : N :=
  match s with
  | EmptyString => acc
  | String c s' => decimal (10 * acc + (JS.code c - 48)) s'
  end.

(** Nothing, or [":"] and at most 65535 in decimal. *)
Definition valid_port (p : string) : bool :=
  match p with
  | EmptyString => true
  | String c digits =>
      Ascii.eqb c ":" && all_chars JS.is_digit digits && (decimal 0 digits <=? 65535)%N
  end.

Definition parse (input : string) : option URL :=
  match split_scheme input with
  | None => None
  | Some (scheme, rest) =>
      let '(rest, _) := break is_query_or_fragment rest in
      if special scheme then
        let '(authority, path) := break is_slash (drop_while is_slash rest) in
        let '(host, port) := break (Ascii.eqb ":") (after_last_at authority) in
        if String.eqb host EmptyString then None
        else if negb (all_chars (λ c, negb (forbidden_host_char c)) host) then None
        else if negb (valid_port port) then None
        else Some {| hostname := JS.toLowerCase host;
                     pathname := if String.eqb path EmptyString then "/"
                                 else back_to_forward path |}
      else if JS.startsWith "//" rest then
        let '(authority, path) := break (Ascii.eqb "/") (skip 2 rest) in
        let '(host, port) := break (Ascii.eqb ":") (after_last_at authority) in
        if negb (valid_port port) then None
        else Some {| hostname := host; pathname := path |}
      else Some {| hostname := EmptyString; pathname := rest |}
  end.

End Url.

(** ** Tabs

    What the poller reads of a [tabs.Tab]. *)

Module Tab.
Record t := { id : Z; url : string; title : string }.
End Tab.

(** ** The platform's Date object

    Time values are integers (milliseconds since the epoch); [None] is the
    time value NaN of an invalid Date.  The functions are those of the
    ECMAScript specification, section "Date Objects".  The local time zone
    is a fixed offset [tza] in milliseconds (LocalTZA); daylight saving
    changes are not modelled. *)

Module Date.

Definition msPerDay : Z := 86400000.

Definition Day (t : Z) : Z := t / msPerDay.
Definition TimeWithinDay (t : Z) : Z := t mod msPerDay.

Definition DaysInYear (y : Z) : Z :=
  if negb (y mod 4 =? 0) then 365
  else if negb (y mod 100 =? 0) then 366
  else if negb (y mod 400 =? 0) then 365
  else 366.

Definition DayFromYear (y : Z) : Z :=
  365 * (y - 1970) + (y - 1969) / 4 - (y - 1901) / 100 + (y - 1601) / 400.

(** The largest [y] with [DayFromYear y <= Day t]: an estimate from
    the mean year length, corrected by at most one year. *)
Definition YearFromDay (d : Z) : Z :=
  let y := 1970 + (d * 400) / 146097 in
  if DayFromYear (y + 1) <=? d then y + 1
  else if d <? DayFromYear y then y - 1
  else y.

Definition YearFromTime (t : Z) : Z := YearFromDay (Day t).

Definition InLeapYear (t : Z) : Z :=
  if DaysInYear (YearFromTime t) =? 366 then 1 else 0.

Definition DayWithinYear (t : Z) : Z := Day t - DayFromYear (YearFromTime t).

(** Months are numbered 0 to 11. *)
Definition MonthFromTime (t : Z) : Z :=
  let d := DayWithinYear t in
  let l := InLeapYear t in
  if d <? 31 then 0
  else if d <? 59 + l then 1
  else if d <? 90 + l then 2
  else if d <? 120 + l then 3
  else if d <? 151 + l then 4
  else if d <? 181 + l then 5
  else if d <? 212 + l then 6
  else if d <? 243 + l then 7
  else if d <? 273 + l then 8
  else if d <? 304 + l then 9
  else if d <? 334 + l then 10
  else 11.

(** The day within the year on which month [m] starts. *)
Definition MonthStart (m l : Z) : Z :=
  if m =? 0 then 0
  else if m =? 1 then 31
  else if m =? 2 then 59 + l
  else if m =? 3 then 90 + l
  else if m =? 4 then 120 + l
  else if m =? 5 then 151 + l
  else if m =? 6 then 181 + l
  else if m =? 7 then 212 + l
  else if m =? 8 then 243 + l
  else if m =? 9 then 273 + l
  else if m =? 10 then 304 + l
  else 334 + l.

Definition DateFromTime (t : Z) : Z :=
  DayWithinYear t - MonthStart (MonthFromTime t) (InLeapYear t) + 1.

(** 0 is Sunday; the epoch was a Thursday. *)
Definition WeekDay (t : Z) : Z := (Day t + 4) mod 7.

Definition MakeDay (year month date : Z) : Z :=
  let ym := year + month / 12 in
  let mn := month mod 12 in
  DayFromYear ym + MonthStart mn (if DaysInYear ym =? 366 then 1 else 0) + date - 1.

Definition MakeDate (day time : Z) : Z := day * msPerDay + time.

Definition TimeClip (t : Z) : option Z :=
  if 8640000000000000 <? Z.abs t then None else Some t.

Section LocalTime.
Variable tza : Z.

Definition LocalTime (t : Z) : Z := t + tza.
Definition UTC (t : Z) : Z := t - tza.

(** [date.getDate()], [date.getDay()]: fields of the local time. *)
Definition getDate (d : option Z) : option Z := DateFromTime ∘ LocalTime <$> d.
Definition getDay (d : option Z) : option Z := WeekDay ∘ LocalTime <$> d.

(** [date.setDate(dt)]: the new time value (which is also the method's
    result); [dt] is NaN when it is [None]. *)
Definition setDate (d : option Z) (dt : option Z) : option Z :=
  t ← d; dt ← dt;
  let lt := LocalTime t in
  let newDate := MakeDate (MakeDay (YearFromTime lt) (MonthFromTime lt) dt) (TimeWithinDay lt) in
  TimeClip (UTC newDate).

End LocalTime.

Definition digit (n : Z) : ascii := ascii_of_N (48 + Z.to_N (n mod 10)).

(** [n] in decimal, on [k] digits, padded with zeros. *)
Fixpoint pad (k : nat) (n : Z) : string :=
  match k with
  | O => EmptyString
  | S k' => pad k' (n / 10) +:+ String (digit n) EmptyString
  end.

(** The format [YYYY-MM-DDTHH:mm:ss.sssZ] (with a sign and six digits for
    years outside 0..9999). *)
Definition iso (t : Z) : string :=
  let y := YearFromTime t in
  let year := if (0 <=? y) && (y <=? 9999) then pad 4 y
              else (if y <? 0 then "-" else "+") +:+ pad 6 (Z.abs y) in
  let w := TimeWithinDay t in
  year +:+ "-" +:+ pad 2 (MonthFromTime t + 1) +:+ "-" +:+ pad 2 (DateFromTime t)
  +:+ "T" +:+ pad 2 (w / 3600000) +:+ ":" +:+ pad 2 (w / 60000 mod 60)
  +:+ ":" +:+ pad 2 (w / 1000 mod 60) +:+ "." +:+ pad 3 (w mod 1000) +:+ "Z".

(** [date.toISOString()]: throws a RangeError on an invalid Date. *)
Definition toISOString (d : option Z) : JS.result string :=
  match d with
  | None => JS.Throw JS.RangeError
  | Some t => JS.Ok (iso t)
  end.

Fixpoint number (acc : Z) (s : string) : option Z :=
  match s with
  | EmptyString => Some acc
  | String c s' =>
      if JS.is_digit c then number (10 * acc + Z.of_N (JS.code c - 48)) s' else None
  end.

Definition char_is (n : nat) (c : ascii) (s : string) : bool :=
  match String.get n s with
  | Some c' => Ascii.eqb c c'
  | None => false
  end.

(** [new Date(s)] for the date-only form [YYYY-MM-DD], which is read as
    midnight UTC; any other string gives an invalid Date here.  A day up
    to 31 is accepted in every month and carried into the next. *)
Definition parse (s : string) : option Z :=
  if (String.length s =? 10)%nat && char_is 4 "-" s && char_is 7 "-" s then
    y ← number 0 (String.substring 0 4 s);
    m ← number 0 (String.substring 5 2 s);
    d ← number 0 (String.substring 8 2 s);
    if (1 <=? m) && (m <=? 12) && (1 <=? d) && (d <=? 31)
    then TimeClip (MakeDate (MakeDay y (m - 1) d) 0)
    else None
  else None.

End Date.

(** ** The session store (db/indexedDb.js)

    The database has two object stores: [documents], keyed by [docKey],
    and [sessions], keyed by an auto-incremented [id] and indexed by
    [docKey] and by [date].  A transaction is one function from database
    to database.  [clock] is the time value that [new Date()] reads while
    the operation runs. *)

Module DocumentRecord.
Record t := {
  docKey : string;
  title : string;
  url : string;
  firstSeen : string;
  lastSeen : string;
  totalTimeMs : Z
}.
End DocumentRecord.

Module SessionRecord.
Record t := {
  docKey : string;
  date : string;
  durationMs : Z;
  timestamp : string
}.
End SessionRecord.

Module IndexedDBManager.

Record DB := {
  documents : gmap string DocumentRecord.t;
  sessions : gmap Z SessionRecord.t;
  (** the key generator of [sessions]: the next [id] *)
  keyGenerator : Z
}.

(** The database as [onupgradeneeded] creates it. *)
Definition init : DB :=
  {| documents := ∅; sessions := ∅; keyGenerator := 1 |}.

(** [objectStore.add(value)] on a store with a key generator. *)
Definition add (value : SessionRecord.t) (db : DB) : DB :=
  {| documents := documents db;
     sessions := <[keyGenerator db := value]> (sessions db);
     keyGenerator := keyGenerator db + 1 |}.

Definition recordSession (docKey title date : string) (durationMs : Z) (url : string)
    (clock : Z) (db : DB) : DB :=
  let docRecord :=
    match documents db !! docKey with
    | Some r => r
    | None =>
        {| DocumentRecord.docKey := docKey;
           DocumentRecord.title := title;
           DocumentRecord.url := url;
           DocumentRecord.firstSeen := Date.iso clock;
           DocumentRecord.lastSeen := Date.iso clock;
           DocumentRecord.totalTimeMs := 0 |}
    end in
  let docRecord :=
    {| DocumentRecord.docKey := DocumentRecord.docKey docRecord;
       DocumentRecord.title := title;
       DocumentRecord.url := DocumentRecord.url docRecord;
       DocumentRecord.firstSeen := DocumentRecord.firstSeen docRecord;
       DocumentRecord.lastSeen := Date.iso clock;
       DocumentRecord.totalTimeMs := DocumentRecord.totalTimeMs docRecord + durationMs |} in
  add {| SessionRecord.docKey := docKey;
         SessionRecord.date := date;
         SessionRecord.durationMs := durationMs;
         SessionRecord.timestamp := Date.iso clock |}
      {| documents := <[DocumentRecord.docKey docRecord := docRecord]> (documents db);
         sessions := sessions db;
         keyGenerator := keyGenerator db |}.

Definition getAllDocuments (db : DB) : list DocumentRecord.t :=
  (map_to_list (documents db)).*2.

Definition getDocumentStats (docKey : string) (db : DB) : option DocumentRecord.t :=
  documents db !! docKey.

(** [index("docKey").getAll(docKey)]: the stored records, with their [id]. *)
Definition getSessionsByDocKey (docKey : string) (db : DB) : list (Z * SessionRecord.t) :=
  filter (λ kv, SessionRecord.docKey kv.2 = docKey) (map_to_list (sessions db)).

(** [index("date").getAll(IDBKeyRange.bound(startDate, endDate))].
    [IDBKeyRange.bound] throws a DataError when the lower bound is
    greater than the upper one, which rejects the promise: [None]. *)
Definition getSessionsByDateRange (startDate endDate : string) (db : DB)
    : option (list (Z * SessionRecord.t)) :=
  if decide (String.le startDate endDate) then
    Some (filter (λ kv, String.le startDate (SessionRecord.date kv.2)
                        ∧ String.le (SessionRecord.date kv.2) endDate)
                 (map_to_list (sessions db)))
  else None.

Section LocalTime.
Variable tza : Z.

Definition getWeekKey (dateString : string) : JS.result string :=
  let date := Date.parse dateString in
  let firstDay :=
    Date.setDate tza date (d ← Date.getDate tza date; w ← Date.getDay tza date; Some (d - w)) in
  s ← Date.toISOString firstDay;
  mret (JS.split_head "T" s).

Definition bucket (period : string) (date : string) : JS.result string :=
  if String.eqb period "week" then getWeekKey date
  else if String.eqb period "month" then mret (JS.substring0 7 date)
  else mret date.

Definition getTimeBreakdown (docKey period : string) (db : DB) : JS.result (gmap string Z) :=
  foldl (λ acc kv,
           breakdown ← acc;
           key ← bucket period (SessionRecord.date kv.2);
           mret (<[key := default 0 (breakdown !! key) + SessionRecord.durationMs kv.2]> breakdown))
        (mret ∅) (getSessionsByDocKey docKey db).

End LocalTime.

(** The primary keys that a cursor over [index("date")] restricted to
    [IDBKeyRange.upperBound(cutoffDate)] visits. *)
Definition date_cursor (cutoffDate : string) (db : DB) : list Z :=
  (filter (λ kv, String.le (SessionRecord.date kv.2) cutoffDate) (map_to_list (sessions db))).*1.

(** The primary keys that a cursor over [index("docKey")] restricted to
    [IDBKeyRange.only(docKey)] visits. *)
Definition docKey_cursor (docKey : string) (db : DB) : list Z :=
  (getSessionsByDocKey docKey db).*1.

(** A cursor loop [cursor.delete(); cursor.continue()]. *)
Definition delete_each (keys : list Z) (store : gmap Z SessionRecord.t) : gmap Z SessionRecord.t :=
  foldl (λ m k, delete k m) store keys.

Definition deleteOldSessions (cutoffDate : string) (db : DB) : DB :=
  {| documents := documents db;
     sessions := delete_each (date_cursor cutoffDate db) (sessions db);
     keyGenerator := keyGenerator db |}.

(** [formatTime(ms)] for a safe integer [ms] ([JS.isSafeInteger]), where
    [Math.floor] of a quotient is the division of [Z] and [%] its
    remainder [Z.rem].  Beyond that range the platform rounds, and this
    definition does not follow it. *)
Definition formatTime (ms : Z) : string :=
  let seconds := ms / 1000 in
  let minutes := seconds / 60 in
  let hours := minutes / 60 in
  let days := hours / 24 in
  if 0 <? days then JS.toString days +:+ "d " +:+ JS.toString (Z.rem hours 24) +:+ "h"
  else if 0 <? hours then JS.toString hours +:+ "h " +:+ JS.toString (Z.rem minutes 60) +:+ "m"
  else if 0 <? minutes
       then JS.toString minutes +:+ "m " +:+ JS.toString (Z.rem seconds 60) +:+ "s"
  else JS.toString seconds +:+ "s".

End IndexedDBManager.

(** ** The background worker (background.js) *)

Module Background.

Import IndexedDBManager.

Definition CLEANUP_INTERVAL_MS : Z := 3600000.
Definition DATA_RETENTION_DAYS : Z := 60.
Definition CHECK_INTERVAL_MS : Z := 1000.
Definition MIN_RECORD_SECONDS : Z := 10.

(** background.js, [generateDocKey]: [new URL] may throw; nothing in the
    function catches it. *)
Definition generateDocKey (tab : Tab.t) : JS.result string :=
  match Url.parse (Tab.url tab) with
  | None => JS.Throw JS.TypeError
  | Some u =>
      let host := Url.hostname u in
      let path := Url.pathname u in
      match (if JS.includes "docs.google.com" host
             then Regex.exec Regex.re_document path else None) with
      | Some m => JS.Ok ("gdoc_" +:+ Regex.group 1 m)
      | None =>
      match (if JS.includes "docs.google.com" host && JS.includes "/spreadsheets" path
             then Regex.exec Regex.re_spreadsheets path else None) with
      | Some m => JS.Ok ("gsheet_" +:+ Regex.group 1 m)
      | None =>
      match (if JS.includes "office.com" host || JS.includes "office365.com" host
             then Regex.exec Regex.re_office path else None) with
      | Some m => JS.Ok ("office_" +:+ Regex.group 1 m +:+ "_" +:+ Regex.group 2 m)
      | None =>
      match (if JS.includes "claude.ai" host
             then Regex.exec Regex.re_chat path else None) with
      | Some m => JS.Ok ("claude_" +:+ Regex.group 1 m)
      | None =>
      match (if JS.includes "chat.openai.com" host || JS.includes "chatgpt.com" host
             then Regex.exec Regex.re_c path else None) with
      | Some m => JS.Ok ("chatgpt_" +:+ Regex.group 1 m)
      | None => JS.Ok ("domain_" +:+ host)
      end end end end end
  end.

(** [recordSession(tab)]: one session of a fixed 1000 ms, dated by the
    UTC day of the clock. *)
Definition recordSession (tab : Tab.t) (clock : Z) (db : DB) : JS.result DB :=
  docKey ← generateDocKey tab;
  let today := JS.split_head "T" (Date.iso clock) in
  mret (IndexedDBManager.recordSession docKey (Tab.title tab) today 1000 (Tab.url tab) clock db).

Record Accumulated := { seconds : Z; tab : Tab.t }.

(** The worker's state: the global [tabAccumulatedTime] and the database. *)
Record State := {
  tabAccumulatedTime : gmap Z Accumulated;
  db : DB
}.

Definition internal_page (url : string) : bool :=
  JS.startsWith "chrome://" url
  || JS.startsWith "about:" url
  || JS.startsWith "edge://" url
  || JS.startsWith "chrome-extension://" url
  || JS.startsWith "moz-extension://" url.

(** One alarm: [activeTab] is the first tab of the query's answer.  An
    exception of [recordSession] is caught and logged after the
    accumulator has been updated. *)
Definition trackActiveTab (activeTab : option Tab.t) (clock : Z) (st : State) : State :=
  match activeTab with
  | None => st
  | Some activeTab =>
      if (Tab.id activeTab =? 0) || String.eqb (Tab.title activeTab) "" then st
      else if internal_page (Tab.url activeTab) then st
      else
        let tabId := Tab.id activeTab in
        let entry :=
          match tabAccumulatedTime st !! tabId with
          | Some e => e
          | None => {| seconds := 0; tab := activeTab |}
          end in
        let entry := {| seconds := seconds entry + 1; tab := activeTab |} in
        let acc := <[tabId := entry]> (tabAccumulatedTime st) in
        if MIN_RECORD_SECONDS <=? seconds entry then
          match recordSession activeTab clock (db st) with
          | JS.Ok db' => {| tabAccumulatedTime := acc; db := db' |}
          | JS.Throw _ => {| tabAccumulatedTime := acc; db := db st |}
          end
        else {| tabAccumulatedTime := acc; db := db st |}
  end.

(** [tabs.onActivated] *)
Definition onActivated (st : State) : State :=
  {| tabAccumulatedTime := ∅; db := db st |}.

(** [tabs.onRemoved] *)
Definition onRemoved (tabId : Z) (st : State) : State :=
  {| tabAccumulatedTime := delete tabId (tabAccumulatedTime st); db := db st |}.

(** [cleanupOldData]: the cutoff is sixty local days before the clock,
    printed as a UTC day. *)
Definition cleanupOldData (tza clock : Z) (db : DB) : DB :=
  let cutoffDate :=
    Date.setDate tza (Some clock)
      (d ← Date.getDate tza (Some clock); Some (d - DATA_RETENTION_DAYS)) in
  match Date.toISOString cutoffDate with
  | JS.Ok s => deleteOldSessions (JS.split_head "T" s) db
  | JS.Throw _ => db
  end.

Definition TRACKING_ALARM_NAME : string := "trackTime".

(** [alarms.onAlarm]: [activeTab] is what the tab query answers when the
    tracking alarm fires. *)
Definition onAlarm (tza : Z) (name : string) (activeTab : option Tab.t) (clock : Z)
    (st : State) : State :=
  if String.eqb name "cleanup" then
    {| tabAccumulatedTime := tabAccumulatedTime st;
       db := cleanupOldData tza clock (db st) |}
  else if String.eqb name TRACKING_ALARM_NAME then trackActiveTab activeTab clock st
  else st.

End Background.

(** ** The popup (popup/popup.js) *)

Module Popup.

(** popup/popup.js, [generateDocKey]: the copy the popup looks keys up with. *)
Definition generateDocKey (tab : Tab.t) : JS.result string :=
  match Url.parse (Tab.url tab) with
  | None => JS.Throw JS.TypeError
  | Some u =>
      let host := Url.hostname u in
      let path := Url.pathname u in
      match (if JS.includes "docs.google.com" host
             then Regex.exec Regex.re_document path else None) with
      | Some m => JS.Ok ("gdoc_" +:+ Regex.group 1 m)
      | None =>
      match (if JS.includes "docs.google.com" host && JS.includes "/spreadsheets" path
             then Regex.exec Regex.re_spreadsheets path else None) with
      | Some m => JS.Ok ("gsheet_" +:+ Regex.group 1 m)
      | None =>
      match (if JS.includes "office.com" host || JS.includes "office365.com" host
             then Regex.exec Regex.re_office path else None) with
      | Some m => JS.Ok ("office_" +:+ Regex.group 1 m +:+ "_" +:+ Regex.group 2 m)
      | None => JS.Ok ("domain_" +:+ host)
      end end end
  end.

(** The popup's [IndexedDBManager.getTimeBreakdown]: it buckets by day
    whatever the period. *)
Definition getTimeBreakdown (docKey period : string) (db : IndexedDBManager.DB)
    : gmap string Z :=
  foldl (λ breakdown kv,
           let key := SessionRecord.date kv.2 in
           <[key := default 0 (breakdown !! key) + SessionRecord.durationMs kv.2]> breakdown)
        ∅ (IndexedDBManager.getSessionsByDocKey docKey db).

(** [updatePopup]: the time shown for today, [todayBreakdown[today] || 0],
    of the document in the current tab; [None] when the popup shows
    "No document" instead.  [currentTab] is the first tab of the query's
    answer. *)
Definition todayTime (currentTab : option Tab.t) (clock : Z) (db : IndexedDBManager.DB)
    : JS.result (option Z) :=
  match currentTab with
  | None => mret None
  | Some currentTab =>
      if String.eqb (Tab.title currentTab) "" then mret None
      else
        docKey ← generateDocKey currentTab;
        let today := JS.split_head "T" (Date.iso clock) in
        mret (Some (default 0 (getTimeBreakdown docKey "day" db !! today)))
  end.

End Popup.

(** ** The dashboard (dashboard/app.js) *)

Module Dashboard.

Import IndexedDBManager.

(** [deleteDocument(docKey)]: [confirmed] is the answer of the confirm
    dialog; the two deletions run in one read-write transaction over both
    stores. *)
Definition deleteDocument (confirmed : bool) (docKey : string) (db : DB) : DB :=
  if negb confirmed then db
  else
    {| documents := delete docKey (documents db);
       sessions := delete_each (docKey_cursor docKey db) (sessions db);
       keyGenerator := keyGenerator db |}.

Section Platform.

(** [a.localeCompare(b)] and the time value of [new Date(s)] ([None] for
    NaN) are the platform's; the dashboard sorts with them as they are. *)
Variable localeCompare : string → string → Z.
Variable dateValue : string → option Z.

(** The comparators of [getSortedDocuments]; a NaN difference counts as 0. *)
Definition comparator (currentSort : string)
    : option (DocumentRecord.t → DocumentRecord.t → Z) :=
  if String.eqb currentSort "time-desc" then
    Some (λ a b, DocumentRecord.totalTimeMs b - DocumentRecord.totalTimeMs a)
  else if String.eqb currentSort "time-asc" then
    Some (λ a b, DocumentRecord.totalTimeMs a - DocumentRecord.totalTimeMs b)
  else if String.eqb currentSort "recent" then
    Some (λ a b, match dateValue (DocumentRecord.lastSeen b),
                       dateValue (DocumentRecord.lastSeen a) with
                 | Some tb, Some ta => tb - ta
                 | _, _ => 0
                 end)
  else if String.eqb currentSort "name" then
    Some (λ a b, localeCompare (DocumentRecord.title a) (DocumentRecord.title b))
  else None.

(** [getSortedDocuments()], of the globals [currentSort] and
    [allDocuments]: a sorted copy, or a plain copy for an unknown order. *)
Definition getSortedDocuments (currentSort : string) (allDocuments : list DocumentRecord.t)
    : list DocumentRecord.t :=
  match comparator currentSort with
  | Some cmp => JS.sort cmp allDocuments
  | None => allDocuments
  end.

(** [renderBreakdown]: the documents it shows, and the period it asks for. *)
Definition topDocs (currentSort : string) (allDocuments : list DocumentRecord.t)
    : list DocumentRecord.t :=
  take 5 (getSortedDocuments currentSort allDocuments).

End Platform.

Definition breakdownPeriod (currentPeriod : string) : string :=
  let breakdownPeriod := "day" in
  let breakdownPeriod := if String.eqb currentPeriod "week" then "day" else breakdownPeriod in
  let breakdownPeriod := if String.eqb currentPeriod "month" then "week" else breakdownPeriod in
  if String.eqb currentPeriod "all" then "month" else breakdownPeriod.

End Dashboard.

(** * Scenarios and vocabulary

    The databases, tabs and worker states that the properties below are
    tried on, and the predicates their statements use. *)

Import IndexedDBManager.
Import Background.

(** Two sessions of one document, dated 2024-01-02 and 2024-01-05. *)
Definition two_sessions : DB :=
  IndexedDBManager.recordSession "gdoc_abc" "Notes" "2024-01-05" 1000
    "https://docs.google.com/document/d/abc" 1704412800000
    (IndexedDBManager.recordSession "gdoc_abc" "Notes" "2024-01-02" 1000
       "https://docs.google.com/document/d/abc" 1704153600000 init).

(** A document and a domain, one session each. *)
Definition two_documents : DB :=
  IndexedDBManager.recordSession "domain_example.com" "Example" "2024-01-02" 1000
    "https://example.com/page" 1704153600000
    (IndexedDBManager.recordSession "gdoc_abc" "Notes" "2024-01-02" 1000
       "https://docs.google.com/document/d/abc" 1704153600000 init).

Definition tab_one : Tab.t :=
  {| Tab.id := 1; Tab.url := "https://example.com/page"; Tab.title := "Example" |}.
Definition tab_two : Tab.t :=
  {| Tab.id := 2; Tab.title := "Notes";
     Tab.url := "https://docs.google.com/document/d/XYZ123/edit" |}.

Definition idle : State := {| tabAccumulatedTime := ∅; db := init |}.

Fixpoint ticks (n : nat) (activeTab : Tab.t) (clock : Z) (st : State) : State :=
  match n with
  | O => st
  | S n' => ticks n' activeTab (clock + CHECK_INTERVAL_MS)
              (trackActiveTab (Some activeTab) clock st)
  end.

(** Five seconds on tab 1, then three on tab 2 of another window. *)
Definition two_accumulators : State := ticks 3 tab_two 5000 (ticks 5 tab_one 0 idle).

(** The key generator is ahead of every stored session, and every
    document is stored under its own [docKey] (the store's key path). *)
Definition wf (db : DB) : Prop :=
  map_Forall (λ id _, id < keyGenerator db) (sessions db)
  ∧ map_Forall (λ k r, DocumentRecord.docKey r = k) (documents db).

(** What a call of [recordSession] is given besides the [docKey]. *)
Record Call := {
  call_title : string;
  call_date : string;
  call_durationMs : Z;
  call_url : string;
  call_clock : Z
}.

Definition call (docKey : string) (db : DB) (c : Call) : DB :=
  IndexedDBManager.recordSession docKey (call_title c) (call_date c) (call_durationMs c)
    (call_url c) (call_clock c) db.

Definition total (calls : list Call) : Z := foldr Z.add 0 (call_durationMs <$> calls).

Definition three_calls : list Call :=
  [ {| call_title := "Notes"; call_date := "2024-01-01"; call_durationMs := 1000;
       call_url := "https://docs.google.com/document/d/abc"; call_clock := 1704067200000 |};
    {| call_title := "Notes"; call_date := "2024-01-01"; call_durationMs := 2000;
       call_url := "https://docs.google.com/document/d/abc"; call_clock := 1704067201000 |};
    {| call_title := "Notes"; call_date := "2024-01-01"; call_durationMs := 3000;
       call_url := "https://docs.google.com/document/d/abc"; call_clock := 1704067202000 |} ].

(** One session of a domain. *)
Definition one_domain : DB :=
  IndexedDBManager.recordSession "domain_example.com" "Example" "2024-01-02" 1000
    "https://example.com/page" 1704153600000 init.

Definition malformed_tab : Tab.t :=
  {| Tab.id := 7; Tab.url := "not a url"; Tab.title := "Untitled" |}.

Definition chat_tab : Tab.t :=
  {| Tab.id := 3; Tab.url := "https://claude.ai/chat/abc123"; Tab.title := "Chat" |}.

(** [rest] does not go on with a character of the class. *)
Definition stops (cls : ascii → bool) (rest : string) : bool :=
  match rest with
  | EmptyString => true
  | String c _ => negb (cls c)
  end.

(** [id], followed by [rest], is a whole id segment over the class. *)
Definition id_segment (cls : ascii → bool) (id rest : string) : Prop :=
  id ≠ "" ∧ Url.all_chars cls id = true ∧ stops cls rest = true.

(** The pattern [/lit([cls]+)/] matches [s] after [pre]: the literal
    stands there, followed by an id, which the greedy group takes whole. *)
Definition id_at (lit : string) (cls : ascii → bool) (s pre id rest : string) : Prop :=
  s = pre +:+ lit +:+ id +:+ rest ∧ id_segment cls id rest.

Definition has_id (lit : string) (cls : ascii → bool) (s : string) : Prop :=
  ∃ pre id rest, id_at lit cls s pre id rest.

(** The leftmost place where the pattern matches: the match that
    [String.prototype.match] reports. *)
Definition first_id (lit : string) (cls : ascii → bool) (s pre id rest : string) : Prop :=
  id_at lit cls s pre id rest
  ∧ ∀ pre' id' rest', id_at lit cls s pre' id' rest' →
                      (String.length pre ≤ String.length pre')%nat.

(** The same for [/\/([a-z]+)\/([a-z0-9]+)/]: a slash, letters, a slash
    and an id of letters and digits. *)
Definition office_at (s pre app id rest : string) : Prop :=
  s = pre +:+ "/" +:+ app +:+ "/" +:+ id +:+ rest
  ∧ app ≠ "" ∧ Url.all_chars Regex.lower_class app = true
  ∧ id_segment Regex.lower_digit_class id rest.

Definition has_office (s : string) : Prop :=
  ∃ pre app id rest, office_at s pre app id rest.

Definition first_office (s pre app id rest : string) : Prop :=
  office_at s pre app id rest
  ∧ ∀ pre' app' id' rest', office_at s pre' app' id' rest' →
                           (String.length pre ≤ String.length pre')%nat.

(** The five rules of [generateDocKey], each on its own: the host name
    contains the rule's host and the path has a place where the rule's
    pattern matches. *)
Definition document_rule (u : Url.URL) : Prop :=
  JS.includes "docs.google.com" (Url.hostname u) = true
  ∧ has_id "/document/d/" Regex.id_class (Url.pathname u).

Definition spreadsheet_rule (u : Url.URL) : Prop :=
  JS.includes "docs.google.com" (Url.hostname u) = true
  ∧ has_id "/spreadsheets/d/" Regex.id_class (Url.pathname u).

Definition office_rule (u : Url.URL) : Prop :=
  JS.includes "office.com" (Url.hostname u) || JS.includes "office365.com" (Url.hostname u)
  = true
  ∧ has_office (Url.pathname u).

Definition claude_rule (u : Url.URL) : Prop :=
  JS.includes "claude.ai" (Url.hostname u) = true
  ∧ has_id "/chat/" Regex.id_class (Url.pathname u).

Definition chatgpt_rule (u : Url.URL) : Prop :=
  JS.includes "chat.openai.com" (Url.hostname u) || JS.includes "chatgpt.com" (Url.hostname u)
  = true
  ∧ has_id "/c/" Regex.id_class (Url.pathname u).

(** A document in a Workspace domain: the id is not at the start of the
    path.  A presentation: a page of the documents host under no rule. *)
Definition workspace_tab : Tab.t :=
  {| Tab.id := 10; Tab.title := "Minutes";
     Tab.url := "https://docs.google.com/a/example.com/document/d/ABC/edit" |}.

Definition slides_tab : Tab.t :=
  {| Tab.id := 11; Tab.title := "Deck";
     Tab.url := "https://docs.google.com/presentation/d/p1/edit" |}.

Definition other_chat_tab : Tab.t :=
  {| Tab.id := 4; Tab.url := "https://chatgpt.com/c/abc-123"; Tab.title := "Chat" |}.

(** Five hours west of UTC. *)
Definition west : Z := -18000000.

(** Sessions on Sunday 2024-01-07 and Monday 2024-01-08. *)
Definition sunday_and_monday : DB :=
  IndexedDBManager.recordSession "gdoc_abc" "Notes" "2024-01-08" 1000
    "https://docs.google.com/document/d/abc" 1704672000000
    (IndexedDBManager.recordSession "gdoc_abc" "Notes" "2024-01-07" 1000
       "https://docs.google.com/document/d/abc" 1704585600000 init).

(** The sum of the durations of a list of stored sessions. *)
Definition sum_durations (l : list (Z * SessionRecord.t)) : Z :=
  foldr Z.add 0 ((SessionRecord.durationMs ∘ snd) <$> l).

(** What the ledger holds for a document, and what its record claims. *)
Definition ledger (docKey : string) (db : DB) : Z :=
  sum_durations (getSessionsByDocKey docKey db).

Definition aggregate (docKey : string) (db : DB) : Z :=
  from_option DocumentRecord.totalTimeMs 0 (documents db !! docKey).

(** Every stored duration is at least 0. *)
Definition nonnegative (db : DB) : Prop :=
  map_Forall (λ _ s, 0 ≤ SessionRecord.durationMs s) (sessions db).

(** The write operations on the database, and a history of them. *)
Inductive Op :=
| Record (docKey title date : string) (durationMs : Z) (url : string) (clock : Z)
| Sweep (cutoffDate : string)
| DeleteDocument (docKey : string).

Definition step (db : DB) (op : Op) : DB :=
  match op with
  | Record docKey title date durationMs url clock =>
      IndexedDBManager.recordSession docKey title date durationMs url clock db
  | Sweep cutoffDate => deleteOldSessions cutoffDate db
  | DeleteDocument docKey => Dashboard.deleteDocument true docKey db
  end.

Definition run (ops : list Op) (db : DB) : DB := foldl step db ops.

Definition is_record (op : Op) : bool :=
  match op with Record _ _ _ _ _ _ => true | _ => false end.

Definition is_sweep (op : Op) : bool :=
  match op with Sweep _ => true | _ => false end.

Definition deletes (docKey : string) (op : Op) : bool :=
  match op with DeleteDocument k => bool_decide (k = docKey) | _ => false end.

Definition records_nonnegative (op : Op) : bool :=
  match op with Record _ _ _ durationMs _ _ => 0 <=? durationMs | _ => true end.

(** A history: two documents recorded, a sweep, one document deleted,
    one recorded again. *)
Definition history : list Op :=
  [ Record "gdoc_abc" "Notes" "2024-01-02" 1000 "https://docs.google.com/document/d/abc"
      1704153600000;
    Record "domain_example.com" "Example" "2024-01-03" 1000 "https://example.com/page"
      1704240000000;
    Record "gdoc_abc" "Notes (2)" "2024-01-05" 2000 "https://docs.google.com/document/d/abc/edit"
      1704412800000;
    Sweep "2024-01-02";
    DeleteDocument "domain_example.com";
    Record "domain_example.com" "Example" "2024-01-06" 1000 "https://example.com/"
      1704499200000 ].

(** The sum of the buckets of a breakdown. *)
Definition bucket_total (breakdown : gmap string Z) : Z :=
  map_fold (λ _ v acc, v + acc) 0 breakdown.

(** The bucket of a date for a period other than the week. *)
Definition plain_bucket (period date : string) : string :=
  if String.eqb period "month" then JS.substring0 7 date else date.

(** The sessions of a document that fall into a bucket. *)
Definition in_bucket (period key docKey : string) (db : DB) : list (Z * SessionRecord.t) :=
  filter (λ kv, plain_bucket period (SessionRecord.date kv.2) = key)
         (getSessionsByDocKey docKey db).

(** A date that begins with a digit, as the dates that the worker
    writes do.  No property that the object literal [breakdown] inherits
    has a name that begins with a digit, so that [breakdown[key]] reads
    what the loop has stored and nothing else. *)
Definition begins_with_digit (date : string) : bool :=
  match date with
  | String c _ => JS.is_digit c
  | EmptyString => false
  end.

(** Every session of the document has such a date. *)
Definition dated (docKey : string) (db : DB) : bool :=
  forallb (λ kv, begins_with_digit (SessionRecord.date kv.2)) (getSessionsByDocKey docKey db).

(** The date-only shape [YYYY-MM-DD]: ten characters, digits but for the
    two hyphens.  Whether such a string is a date depends on the month
    and the day alone. *)
Definition date_only (s : string) : bool :=
  (String.length s =? 10)%nat && Date.char_is 4 "-" s && Date.char_is 7 "-" s
  && Url.all_chars JS.is_digit (String.substring 0 4 s)
  && Url.all_chars JS.is_digit (String.substring 5 2 s)
  && Url.all_chars JS.is_digit (String.substring 8 2 s).

(** The seconds accumulated for a tab (0 when it has no entry). *)
Definition accumulated (tabId : Z) (st : State) : Z :=
  from_option seconds 0 (tabAccumulatedTime st !! tabId).

(** How many of [n] further ticks reach the threshold, [before] seconds
    being accumulated already. *)
Definition recorded_ticks (before : Z) (n : nat) : Z :=
  Z.max 0 (before + Z.of_nat n - (MIN_RECORD_SECONDS - 1))
  - Z.max 0 (before - (MIN_RECORD_SECONDS - 1)).

(** A visit: a tab is activated and stays the active one for some ticks. *)
Record Visit := { visit_tab : Tab.t; visit_ticks : nat; visit_clock : Z }.

Definition visit (st : State) (v : Visit) : State :=
  ticks (visit_ticks v) (visit_tab v) (visit_clock v) (onActivated st).

Definition browse (visits : list Visit) (st : State) : State := foldl visit st visits.

(** Nine seconds on each of three tabs, and back to the first. *)
Definition restless : list Visit :=
  [ {| visit_tab := tab_one; visit_ticks := 9; visit_clock := 1704153600000 |};
    {| visit_tab := tab_two; visit_ticks := 9; visit_clock := 1704153609000 |};
    {| visit_tab := chat_tab; visit_ticks := 9; visit_clock := 1704153618000 |};
    {| visit_tab := tab_one; visit_ticks := 9; visit_clock := 1704153627000 |} ].

(** What the worker reacts to. *)
Inductive Event :=
| Alarm (name : string) (activeTab : option Tab.t) (clock : Z)
| TabActivated
| TabRemoved (tabId : Z).

Definition react (tza : Z) (st : State) (ev : Event) : State :=
  match ev with
  | Alarm name activeTab clock => onAlarm tza name activeTab clock st
  | TabActivated => onActivated st
  | TabRemoved tabId => onRemoved tabId st
  end.

Definition worker (tza : Z) (events : list Event) (st : State) : State :=
  foldl (react tza) st events.

(** Every stored session lasts one tick. *)
Definition one_second_sessions (db : DB) : Prop :=
  map_Forall (λ _ s, SessionRecord.durationMs s = 1000) (sessions db).

(** Eleven seconds on a document, a switch to another tab for twelve
    seconds, a cleanup, and the first tab is closed. *)
Definition busy_morning : list Event :=
  (replicate 11 (Alarm "trackTime" (Some tab_two) 1704153600000)
   ++ [TabActivated]
   ++ replicate 12 (Alarm "trackTime" (Some tab_one) 1704153660000)
   ++ [Alarm "cleanup" None 1704157200000; TabRemoved 2; Alarm "unknown" None 0])%list.

(** The operations the worker applies to the database: sessions of one
    tick, and sweeps. *)
Definition worker_op (op : Op) : bool :=
  match op with
  | Record _ _ _ durationMs _ _ => durationMs =? 1000
  | Sweep _ => true
  | DeleteDocument _ => false
  end.

(** What holds of the worker's state at any time. *)
Definition worker_inv (st : State) : Prop :=
  wf (db st)
  ∧ one_second_sessions (db st)
  ∧ map_Forall (λ _ a, 1 ≤ seconds a) (tabAccumulatedTime st)
  ∧ ∀ k, ledger k (db st) ≤ aggregate k (db st).

(** Every session belongs to a stored document. *)
Definition no_orphans (db : DB) : Prop :=
  map_Forall (λ _ s, is_Some (documents db !! SessionRecord.docKey s)) (sessions db).

(** Every session is dated by the UTC day of the clock of an alarm
    among [events]. *)
Definition dated_by (events : list Event) (db : DB) : Prop :=
  map_Forall (λ _ s, ∃ name activeTab clock,
                Alarm name activeTab clock ∈ events
                ∧ SessionRecord.date s = JS.split_head "T" (Date.iso clock))
             (sessions db).

(** A tab on an office page whose path has more than two segments. *)
Definition nested_tab : Tab.t :=
  {| Tab.id := 8; Tab.title := "Portal";
     Tab.url := "https://portal.office.com/en/apps/word/2024?x=1" |}.

(** * Properties *)

(** ** Cursor loops *)

Lemma lookup_delete_each (keys : list Z) (store : gmap Z SessionRecord.t) (k : Z) :
  delete_each keys store !! k = if decide (k ∈ keys) then None else store !! k.
Proof.
  unfold delete_each. revert store.
  induction keys as [|k0 keys IH]; intros store; simpl.
  - destruct (decide (k ∈ [])) as [H%elem_of_nil|]; done.
  - rewrite IH. destruct (decide (k ∈ keys)) as [Hin|Hnin].
    + rewrite decide_True; [done | apply elem_of_cons; by right].
    + destruct (decide (k = k0)) as [->|Hne].
      * rewrite lookup_delete_eq, decide_True; [done | apply elem_of_cons; by left].
      * rewrite lookup_delete_ne by done. rewrite decide_False; [done|].
        intros [?|?]%elem_of_cons; done.
Qed.

(** A cursor over the records that satisfy [P], deleting each, leaves
    exactly the records that do not. *)
Lemma lookup_delete_filtered (P : Z * SessionRecord.t → Prop) `{!∀ kv, Decision (P kv)}
    (store : gmap Z SessionRecord.t) (k : Z) :
  delete_each (filter P (map_to_list store)).*1 store !! k =
  match store !! k with
  | Some s => if decide (P (k, s)) then None else Some s
  | None => None
  end.
Proof.
  rewrite lookup_delete_each.
  destruct (store !! k) as [s|] eqn:Hs.
  - destruct (decide (P (k, s))) as [HP|HP].
    + rewrite decide_True; [done|].
      apply list_elem_of_fmap. exists (k, s). split; [done|].
      apply list_elem_of_filter. split; [done | by apply elem_of_map_to_list].
    + rewrite decide_False; [done|].
      intros [[k' s'] [Hk [HP' Hin]%list_elem_of_filter]]%list_elem_of_fmap.
      simpl in Hk. subst k'. apply elem_of_map_to_list in Hin. congruence.
  - by case_decide.
Qed.

(** The sessions a retention sweep leaves, id by id. *)
Lemma lookup_deleteOldSessions (cutoff : string) (db : DB) (k : Z) :
  sessions (deleteOldSessions cutoff db) !! k =
  match sessions db !! k with
  | Some s => if decide (String.le (SessionRecord.date s) cutoff) then None else Some s
  | None => None
  end.
Proof.
  exact (lookup_delete_filtered (λ kv, String.le (SessionRecord.date kv.2) cutoff)
           (sessions db) k).
Qed.

(** The sessions the deletion of a document leaves, id by id. *)
Lemma lookup_deleteDocument (docKey : string) (db : DB) (k : Z) :
  sessions (Dashboard.deleteDocument true docKey db) !! k =
  match sessions db !! k with
  | Some s => if decide (SessionRecord.docKey s = docKey) then None else Some s
  | None => None
  end.
Proof.
  exact (lookup_delete_filtered (λ kv, SessionRecord.docKey kv.2 = docKey) (sessions db) k).
Qed.

Lemma DB_eq (a b : DB) :
  documents a = documents b → sessions a = sessions b → keyGenerator a = keyGenerator b →
  a = b.
Proof. destruct a, b; simpl; by intros -> -> ->. Qed.

(** ** Retention sweep *)

(** C4, as stated, fails: a second sweep with a later cutoff deletes the
    session of 2024-01-02 that the first sweep (cutoff 2024-01-01) left. *)
Lemma deleteOldSessions_later_cutoff_deletes_more :
  String.le "2024-01-01" "2024-01-03"
  ∧ SessionRecord.date <$> sessions (deleteOldSessions "2024-01-01" two_sessions) !! 1
    = Some "2024-01-02"
  ∧ sessions (deleteOldSessions "2024-01-03" (deleteOldSessions "2024-01-01" two_sessions)) !! 1
    = None
  ∧ deleteOldSessions "2024-01-03" (deleteOldSessions "2024-01-01" two_sessions)
    ≠ deleteOldSessions "2024-01-01" two_sessions.
Proof.
  split; [exact I|]. split; [by vm_compute|]. split; [by vm_compute|].
  intros H. apply (f_equal (λ d, sessions d !! 1)) in H.
  vm_compute in H. discriminate H.
Qed.

(** C4, amended: [deleteOldSessions cutoff] deletes exactly the sessions
    whose date is at most the cutoff (in the order of strings) and keeps
    every other session under its id; a second sweep with the same or an
    earlier cutoff changes nothing. *)
Theorem deleteOldSessions_exact_and_idempotent (cutoff earlier : string) (db : DB) :
  String.le earlier cutoff →
  (∀ id, sessions (deleteOldSessions cutoff db) !! id =
         match sessions db !! id with
         | Some s => if decide (String.le (SessionRecord.date s) cutoff) then None else Some s
         | None => None
         end)
  ∧ deleteOldSessions earlier (deleteOldSessions cutoff db) = deleteOldSessions cutoff db.
Proof.
  intros Hle. split; [apply lookup_deleteOldSessions|].
  apply DB_eq; [done| |done].
  apply map_eq. intros id.
  rewrite (lookup_deleteOldSessions earlier), (lookup_deleteOldSessions cutoff).
  destruct (sessions db !! id) as [s|]; [|done].
  destruct (decide (String.le (SessionRecord.date s) cutoff)) as [Hc|Hc]; [done|].
  rewrite decide_False; [done|].
  intros He. apply Hc. by etrans.
Qed.

Lemma deleteOldSessions_exact_and_idempotent_witness :
  (∀ id, sessions (deleteOldSessions "2024-01-03" two_sessions) !! id =
         match sessions two_sessions !! id with
         | Some s => if decide (String.le (SessionRecord.date s) "2024-01-03") then None else Some s
         | None => None
         end)
  ∧ deleteOldSessions "2024-01-01" (deleteOldSessions "2024-01-03" two_sessions)
    = deleteOldSessions "2024-01-03" two_sessions.
Proof.
  apply (deleteOldSessions_exact_and_idempotent "2024-01-03" "2024-01-01" two_sessions).
  vm_compute. exact I.
Defined.

(** C6: a retention sweep leaves the [documents] store as it is, record
    by record, also where it deletes sessions that were counted in a
    record's [totalTimeMs]. *)
Theorem deleteOldSessions_keeps_documents (cutoff : string) (db : DB) :
  documents (deleteOldSessions cutoff db) = documents db
  ∧ (∀ docKey, getDocumentStats docKey (deleteOldSessions cutoff db)
               = getDocumentStats docKey db)
  ∧ getAllDocuments (deleteOldSessions cutoff db) = getAllDocuments db.
Proof. done. Qed.

(** The total of [two_sessions] stays 2000 after every session is swept. *)
Example deleteOldSessions_keeps_total :
  DocumentRecord.totalTimeMs
    <$> getDocumentStats "gdoc_abc" (deleteOldSessions "2024-12-31" two_sessions)
  = Some 2000
  ∧ getSessionsByDocKey "gdoc_abc" (deleteOldSessions "2024-12-31" two_sessions) = [].
Proof. by vm_compute. Qed.

(** ** Deleting a document *)

Lemma getSessionsByDocKey_Permutation (docKey : string) (a b : DB) :
  (∀ id s, SessionRecord.docKey s = docKey →
           sessions a !! id = Some s ↔ sessions b !! id = Some s) →
  getSessionsByDocKey docKey a ≡ₚ getSessionsByDocKey docKey b.
Proof.
  intros H. unfold getSessionsByDocKey.
  apply NoDup_Permutation.
  - apply NoDup_filter, NoDup_map_to_list.
  - apply NoDup_filter, NoDup_map_to_list.
  - intros [id s]. rewrite !list_elem_of_filter, !elem_of_map_to_list. simpl.
    split; intros [Hk Hs]; (split; [done|]); by apply (H id s Hk).
Qed.

(** C8: once confirmed, [deleteDocument docKey] leaves no DocumentRecord
    and no SessionRecord for [docKey]; the record of any other document,
    and every session of any other document, is untouched.  The whole
    deletion is one transition of the database (one transaction). *)
Theorem deleteDocument_removes_only_that_document
    (docKey other : string) (id : Z) (s : SessionRecord.t) (db : DB) :
  other ≠ docKey →
  SessionRecord.docKey s = other →
  let db' := Dashboard.deleteDocument true docKey db in
  getDocumentStats docKey db' = None
  ∧ getSessionsByDocKey docKey db' = []
  ∧ getDocumentStats other db' = getDocumentStats other db
  ∧ (sessions db' !! id = Some s ↔ sessions db !! id = Some s)
  ∧ getSessionsByDocKey other db' ≡ₚ getSessionsByDocKey other db.
Proof.
  intros Hne Hs db'.
  assert (Hother : ∀ i r, SessionRecord.docKey r = other →
            sessions db' !! i = Some r ↔ sessions db !! i = Some r).
  { intros i r Hr. unfold db'. rewrite lookup_deleteDocument.
    destruct (sessions db !! i) as [r'|]; [|done].
    case_decide as Hk; [|done].
    split; [done|]. intros [= ->]. congruence. }
  split; [apply lookup_delete_eq|].
  split.
  { apply elem_of_nil_inv. intros [i r] [Hk Hin]%list_elem_of_filter.
    apply elem_of_map_to_list in Hin. unfold db' in Hin.
    rewrite lookup_deleteDocument in Hin.
    destruct (sessions db !! i) as [r'|]; [|done].
    case_decide; [done|]. injection Hin as ->. done. }
  split; [by apply lookup_delete_ne|].
  split; [by apply Hother|].
  by apply getSessionsByDocKey_Permutation.
Qed.

Lemma deleteDocument_removes_only_that_document_witness :
  let s := {| SessionRecord.docKey := "domain_example.com";
              SessionRecord.date := "2024-01-02";
              SessionRecord.durationMs := 1000;
              SessionRecord.timestamp := "2024-01-02T00:00:00.000Z" |} in
  let db' := Dashboard.deleteDocument true "gdoc_abc" two_documents in
  getDocumentStats "gdoc_abc" db' = None
  ∧ getSessionsByDocKey "gdoc_abc" db' = []
  ∧ getDocumentStats "domain_example.com" db'
    = getDocumentStats "domain_example.com" two_documents
  ∧ (sessions db' !! 2 = Some s ↔ sessions two_documents !! 2 = Some s)
  ∧ getSessionsByDocKey "domain_example.com" db'
    ≡ₚ getSessionsByDocKey "domain_example.com" two_documents.
Proof.
  intros s.
  apply (deleteDocument_removes_only_that_document
           "gdoc_abc" "domain_example.com" 2 s two_documents).
  - discriminate.
  - reflexivity.
Defined.

(** Declining the confirm dialog leaves the database as it is. *)
Lemma deleteDocument_declined (docKey : string) (db : DB) :
  Dashboard.deleteDocument false docKey db = db.
Proof. done. Qed.

(** ** Tab events *)

(** C3, as stated, fails for the removal event: closing tab 1 leaves the
    three seconds accumulated for tab 2. *)
Lemma onRemoved_keeps_other_accumulators :
  seconds <$> tabAccumulatedTime two_accumulators !! 2 = Some 3
  ∧ seconds <$> tabAccumulatedTime (onRemoved 1 two_accumulators) !! 2 = Some 3
  ∧ tabAccumulatedTime (onRemoved 1 two_accumulators) ≠ ∅.
Proof.
  split; [by vm_compute|]. split; [by vm_compute|].
  intros H. apply (f_equal (λ m, seconds <$> m !! 2)) in H.
  vm_compute in H. discriminate H.
Qed.

(** C3, amended: a tab-activated event discards every accumulator; a
    tab-removed event discards the accumulator of the removed tab and
    leaves every other tab's accumulator as it is.  Neither touches the
    database. *)
Theorem tab_events_reset_accumulators (tabId other : Z) (st : State) :
  other ≠ tabId →
  tabAccumulatedTime (onActivated st) = ∅
  ∧ tabAccumulatedTime (onRemoved tabId st) !! tabId = None
  ∧ tabAccumulatedTime (onRemoved tabId st) !! other = tabAccumulatedTime st !! other
  ∧ db (onActivated st) = db st
  ∧ db (onRemoved tabId st) = db st.
Proof.
  intros Hne. split; [done|]. split; [apply lookup_delete_eq|].
  split; [by apply lookup_delete_ne|]. done.
Qed.

Lemma tab_events_reset_accumulators_witness :
  tabAccumulatedTime (onActivated two_accumulators) = ∅
  ∧ tabAccumulatedTime (onRemoved 1 two_accumulators) !! 1 = None
  ∧ tabAccumulatedTime (onRemoved 1 two_accumulators) !! 2
    = tabAccumulatedTime two_accumulators !! 2
  ∧ db (onActivated two_accumulators) = db two_accumulators
  ∧ db (onRemoved 1 two_accumulators) = db two_accumulators.
Proof.
  apply (tab_events_reset_accumulators 1 2 two_accumulators). lia.
Defined.

(** ** The poller *)

Lemma generateDocKey_parsed (activeTab : Tab.t) (u : Url.URL) :
  Url.parse (Tab.url activeTab) = Some u → ∃ docKey, generateDocKey activeTab = JS.Ok docKey.
Proof.
  intros Hu. unfold generateDocKey. rewrite Hu.
  repeat (match goal with
          | |- ∃ _, match ?x with _ => _ end = _ => destruct x
          | |- ∃ _, JS.Ok _ = _ => eexists; reflexivity
          end).
Qed.

Lemma generateDocKey_unparsed (activeTab : Tab.t) :
  Url.parse (Tab.url activeTab) = None → generateDocKey activeTab = JS.Throw JS.TypeError.
Proof. intros Hu. unfold generateDocKey. by rewrite Hu. Qed.

(** A tick on a tab that passes the poller's guards, whatever its URL:
    the accumulator counts one second; the database changes only from the
    threshold on, and only when the document key resolves. *)
Lemma trackActiveTab_tick (activeTab : Tab.t) (clock : Z) (st : State) :
  Tab.id activeTab ≠ 0 →
  Tab.title activeTab ≠ "" →
  internal_page (Tab.url activeTab) = false →
  let before := from_option seconds 0 (tabAccumulatedTime st !! Tab.id activeTab) in
  let st' := trackActiveTab (Some activeTab) clock st in
  seconds <$> tabAccumulatedTime st' !! Tab.id activeTab = Some (before + 1)
  ∧ (∀ other, other ≠ Tab.id activeTab →
              tabAccumulatedTime st' !! other = tabAccumulatedTime st !! other)
  ∧ db st' =
    if decide (before + 1 < MIN_RECORD_SECONDS) then db st
    else match generateDocKey activeTab with
         | JS.Ok docKey =>
             IndexedDBManager.recordSession docKey (Tab.title activeTab)
               (JS.split_head "T" (Date.iso clock)) 1000 (Tab.url activeTab) clock (db st)
         | JS.Throw _ => db st
         end.
Proof.
  intros Hid Htitle Hinternal before st'.
  assert (Hguard : (Tab.id activeTab =? 0) || String.eqb (Tab.title activeTab) "" = false).
  { apply orb_false_intro; [by apply Z.eqb_neq | by apply String.eqb_neq]. }
  unfold st', trackActiveTab. rewrite Hguard, Hinternal.
  unfold Background.recordSession. cbn [seconds].
  assert (Hsec : seconds (match tabAccumulatedTime st !! Tab.id activeTab with
                          | Some e => e
                          | None => {| seconds := 0; tab := activeTab |}
                          end) = before).
  { unfold before. by destruct (tabAccumulatedTime st !! Tab.id activeTab). }
  rewrite Hsec.
  destruct (Z.leb_spec MIN_RECORD_SECONDS (before + 1)) as [Hge|Hlt].
  - rewrite decide_False by lia.
    destruct (generateDocKey activeTab) as [docKey|e]; simpl;
      (split; [by rewrite lookup_insert_eq|]);
      (split; [intros other Hne; by rewrite lookup_insert_ne | done]).
  - rewrite decide_True by lia. simpl.
    split; [by rewrite lookup_insert_eq|].
    split; [intros other Hne; by rewrite lookup_insert_ne | done].
Qed.

(** C7, as stated, fails: a tab with an id, a title and a URL that is
    no browser-internal page is tracked, but when its URL is not one the
    URL constructor accepts, the tick that reaches the threshold issues
    no session: [generateDocKey] throws before [db.recordSession] is
    called, and the poller catches the exception. *)
Lemma trackActiveTab_unresolved_tab_records_nothing :
  let st := ticks 9 malformed_tab 0 idle in
  let st' := trackActiveTab (Some malformed_tab) 9000 st in
  Tab.id malformed_tab ≠ 0
  ∧ Tab.title malformed_tab ≠ ""
  ∧ internal_page (Tab.url malformed_tab) = false
  ∧ seconds <$> tabAccumulatedTime st !! Tab.id malformed_tab = Some 9
  ∧ seconds <$> tabAccumulatedTime st' !! Tab.id malformed_tab = Some MIN_RECORD_SECONDS
  ∧ db st' = db st
  ∧ sessions (db st') = ∅.
Proof. repeat split; (discriminate || reflexivity). Qed.

(** C7, amended: on a tick whose active tab passes the poller's guards
    (an id, a title, no browser-internal URL) the tab's accumulator grows
    by exactly one second; below [MIN_RECORD_SECONDS] the database is left
    as it is; from the threshold on, when the tab's URL is one that the
    URL constructor accepts, exactly one [recordSession] with a duration
    of 1000 ms is issued, whatever the accumulated span, and when it is
    not, [generateDocKey] throws, the poller catches the exception and
    the database is left as it is. *)
Theorem trackActiveTab_records_one_tick (activeTab : Tab.t) (clock : Z) (st : State) :
  Tab.id activeTab ≠ 0 →
  Tab.title activeTab ≠ "" →
  internal_page (Tab.url activeTab) = false →
  let before := from_option seconds 0 (tabAccumulatedTime st !! Tab.id activeTab) in
  let st' := trackActiveTab (Some activeTab) clock st in
  seconds <$> tabAccumulatedTime st' !! Tab.id activeTab = Some (before + 1)
  ∧ (before + 1 < MIN_RECORD_SECONDS → db st' = db st)
  ∧ (MIN_RECORD_SECONDS ≤ before + 1 →
     match Url.parse (Tab.url activeTab) with
     | Some u =>
         ∃ docKey, generateDocKey activeTab = JS.Ok docKey
         ∧ db st' = IndexedDBManager.recordSession docKey (Tab.title activeTab)
                      (JS.split_head "T" (Date.iso clock)) 1000 (Tab.url activeTab) clock
                      (db st)
     | None => generateDocKey activeTab = JS.Throw JS.TypeError ∧ db st' = db st
     end).
Proof.
  intros Hid Htitle Hinternal before st'.
  destruct (trackActiveTab_tick activeTab clock st Hid Htitle Hinternal) as (Hsec & _ & Hdb).
  fold before st' in Hsec, Hdb.
  split; [done|]. split.
  - intros Hlt. by rewrite Hdb, decide_True.
  - intros Hge. rewrite decide_False in Hdb by lia.
    destruct (Url.parse (Tab.url activeTab)) as [u|] eqn:Hu.
    + destruct (generateDocKey_parsed activeTab u Hu) as [docKey Hkey].
      exists docKey. split; [done|]. by rewrite Hdb, Hkey.
    + pose proof (generateDocKey_unparsed activeTab Hu) as Hkey.
      split; [done|]. by rewrite Hdb, Hkey.
Qed.

Lemma trackActiveTab_records_one_tick_witness :
  let st := ticks 9 tab_two 0 idle in
  let st' := trackActiveTab (Some tab_two) 9000 st in
  seconds <$> tabAccumulatedTime st' !! Tab.id tab_two = Some (9 + 1)
  ∧ (9 + 1 < MIN_RECORD_SECONDS → db st' = db st)
  ∧ (MIN_RECORD_SECONDS ≤ 9 + 1 →
     ∃ docKey, generateDocKey tab_two = JS.Ok docKey
     ∧ db st' = IndexedDBManager.recordSession docKey (Tab.title tab_two)
                  (JS.split_head "T" (Date.iso 9000)) 1000 (Tab.url tab_two) 9000 (db st)).
Proof.
  intros st.
  apply (trackActiveTab_records_one_tick tab_two 9000 st).
  - simpl. lia.
  - discriminate.
  - reflexivity.
Defined.

(** Twelve seconds on one tab: nothing for nine ticks, then three
    sessions of 1000 ms each. *)
Example twelve_ticks :
  let st := ticks 12 tab_two 0 idle in
  seconds <$> tabAccumulatedTime st !! 2 = Some 12
  ∧ db (ticks 9 tab_two 0 idle) = init
  ∧ (SessionRecord.durationMs ∘ snd <$> getSessionsByDocKey "gdoc_XYZ123" (db st))
    = [1000; 1000; 1000]
  ∧ DocumentRecord.totalTimeMs <$> getDocumentStats "gdoc_XYZ123" (db st) = Some 3000.
Proof. by vm_compute. Qed.

(** A tab without a title, or on a browser-internal page, never accumulates. *)
Lemma trackActiveTab_skips (activeTab : Tab.t) (clock : Z) (st : State) :
  Tab.id activeTab = 0 ∨ Tab.title activeTab = "" ∨ internal_page (Tab.url activeTab) = true →
  trackActiveTab (Some activeTab) clock st = st.
Proof.
  unfold trackActiveTab. intros [H|[H|H]]; rewrite H; simpl.
  - done.
  - by rewrite orb_true_r.
  - by destruct (_ || _).
Qed.

(** ** Recording sessions *)

Lemma wf_init : wf init.
Proof. split; apply map_Forall_empty. Qed.

Lemma recordSession_wf docKey title date durationMs url clock (db : DB) :
  wf db → wf (IndexedDBManager.recordSession docKey title date durationMs url clock db).
Proof.
  intros [Hs Hd]. split; simpl.
  - apply map_Forall_insert_2; [lia|].
    eapply map_Forall_impl; [exact Hs|]. simpl. intros. lia.
  - destruct (documents db !! docKey) as [r|] eqn:Hr; simpl.
    + by apply map_Forall_insert_2.
    + by apply map_Forall_insert_2.
Qed.

Lemma delete_each_wf (keys : list Z) (db : DB) (docs : gmap string DocumentRecord.t) :
  wf db → docs ⊆ documents db →
  wf {| documents := docs;
        sessions := delete_each keys (sessions db);
        keyGenerator := keyGenerator db |}.
Proof.
  intros [Hs Hd] Hsub. split; simpl.
  - intros id s Hid. rewrite lookup_delete_each in Hid.
    case_decide; [done|]. by apply (Hs id s).
  - intros k r Hk. apply (Hd k r). by eapply lookup_weaken.
Qed.

(** Every operation keeps the database well formed. *)
Lemma deleteOldSessions_wf (cutoff : string) (db : DB) :
  wf db → wf (deleteOldSessions cutoff db).
Proof. intros H. by apply delete_each_wf. Qed.

Lemma deleteDocument_wf (confirmed : bool) (docKey : string) (db : DB) :
  wf db → wf (Dashboard.deleteDocument confirmed docKey db).
Proof.
  intros H. destruct confirmed; [|done].
  apply delete_each_wf; [done | apply delete_subseteq].
Qed.

Lemma trackActiveTab_wf (activeTab : option Tab.t) (clock : Z) (st : State) :
  wf (db st) → wf (db (trackActiveTab activeTab clock st)).
Proof.
  intros H. unfold trackActiveTab.
  destruct activeTab as [t|]; [|done].
  destruct (_ || _); [done|]. destruct (internal_page _); [done|].
  destruct (Z.leb _ _); [|done].
  unfold Background.recordSession.
  destruct (generateDocKey t) as [docKey|e]; [|done].
  by apply recordSession_wf.
Qed.

Lemma recordSession_total docKey title date durationMs url clock (db : DB) :
  wf db →
  DocumentRecord.totalTimeMs
    <$> documents (IndexedDBManager.recordSession docKey title date durationMs url clock db)
        !! docKey
  = Some (from_option DocumentRecord.totalTimeMs 0 (documents db !! docKey) + durationMs).
Proof.
  intros [_ Hd]. simpl.
  destruct (documents db !! docKey) as [r|] eqn:Hr; simpl.
  - rewrite (Hd _ _ Hr). by rewrite lookup_insert_eq.
  - by rewrite lookup_insert_eq.
Qed.

Lemma recordSession_sessions docKey title date durationMs url clock (db : DB) :
  wf db →
  length (getSessionsByDocKey docKey
            (IndexedDBManager.recordSession docKey title date durationMs url clock db))
  = S (length (getSessionsByDocKey docKey db)).
Proof.
  intros [Hs _]. unfold getSessionsByDocKey. simpl.
  rewrite map_to_list_insert.
  - by rewrite filter_cons_True.
  - destruct (sessions db !! keyGenerator db) as [s|] eqn:E; [|done].
    apply Hs in E. lia.
Qed.

Lemma calls_additive docKey (calls : list Call) (db : DB) :
  wf db →
  let db' := foldl (call docKey) db calls in
  wf db'
  ∧ length (getSessionsByDocKey docKey db')
    = (length (getSessionsByDocKey docKey db) + length calls)%nat
  ∧ from_option DocumentRecord.totalTimeMs 0 (documents db' !! docKey)
    = from_option DocumentRecord.totalTimeMs 0 (documents db !! docKey) + total calls
  ∧ (calls ≠ [] → is_Some (documents db' !! docKey)).
Proof.
  revert db. induction calls as [|c calls IH]; intros db Hwf; cbn [foldl length].
  - split; [done|]. split; [lia|]. split; [unfold total; simpl; lia | done].
  - assert (Hwf' : wf (call docKey db c)) by by apply recordSession_wf.
    assert (Hn : length (getSessionsByDocKey docKey (call docKey db c))
                 = S (length (getSessionsByDocKey docKey db)))
      by by apply recordSession_sessions.
    assert (Ht : DocumentRecord.totalTimeMs <$> documents (call docKey db c) !! docKey
                 = Some (from_option DocumentRecord.totalTimeMs 0 (documents db !! docKey)
                         + call_durationMs c))
      by by apply recordSession_total.
    destruct (IH (call docKey db c) Hwf') as (H1 & H2 & H3 & H4).
    split; [done|]. split; [lia|]. split.
    + rewrite H3. destruct (documents (call docKey db c) !! docKey) as [r|]; [|done].
      injection Ht as Ht. cbn [from_option]. rewrite Ht.
      change (total (c :: calls)) with (call_durationMs c + total calls). lia.
    + intros _. destruct calls as [|c' calls'].
      * cbn [foldl]. destruct (documents (call docKey db c) !! docKey); [eauto | done].
      * apply H4. done.
Qed.

(** C2: on a database without a record for [docKey], after N >= 1 calls
    of [recordSession] with that key and the durations d1..dN, the
    document's [totalTimeMs] is d1 + ... + dN, and [getSessionsByDocKey]
    returns exactly N sessions. *)
Theorem recordSession_additive (docKey : string) (calls : list Call) (db : DB) :
  wf db →
  getDocumentStats docKey db = None →
  getSessionsByDocKey docKey db = [] →
  calls ≠ [] →
  let db' := foldl (call docKey) db calls in
  DocumentRecord.totalTimeMs <$> getDocumentStats docKey db' = Some (total calls)
  ∧ length (getSessionsByDocKey docKey db') = length calls.
Proof.
  intros Hwf Hdoc Hses Hne db'.
  destruct (calls_additive docKey calls db Hwf) as (_ & H2 & H3 & H4).
  fold db' in H2, H3, H4. unfold getDocumentStats in *.
  rewrite Hdoc in H3. rewrite Hses in H2. simpl in *.
  split; [|done].
  destruct (H4 Hne) as [r Hr]. rewrite Hr in *. simpl in *. by rewrite H3.
Qed.

Lemma recordSession_additive_witness :
  let db' := foldl (call "gdoc_abc") one_domain three_calls in
  DocumentRecord.totalTimeMs <$> getDocumentStats "gdoc_abc" db' = Some (total three_calls)
  ∧ length (getSessionsByDocKey "gdoc_abc" db') = length three_calls.
Proof.
  apply (recordSession_additive "gdoc_abc" three_calls one_domain).
  - apply recordSession_wf, wf_init.
  - reflexivity.
  - reflexivity.
  - discriminate.
Defined.

(** The scenario of the specification: durations 1000, 2000 and 3000 on
    2024-01-01 give a total of 6000 and the day breakdown 2024-01-01: 6000. *)
Example three_sessions_scenario :
  let db' := foldl (call "gdoc_abc") init three_calls in
  DocumentRecord.totalTimeMs <$> getDocumentStats "gdoc_abc" db' = Some 6000
  ∧ getTimeBreakdown 0 "gdoc_abc" "day" db' = JS.Ok {[ "2024-01-01" := 6000 ]}.
Proof. by vm_compute. Qed.

(** ** Document keys: errors *)

(** C1, as stated, fails: on a string that is no URL the constructor's
    TypeError leaves [generateDocKey]; no fallback key is returned. *)
Lemma generateDocKey_throws_on_malformed_url :
  Url.parse (Tab.url malformed_tab) = None
  ∧ Background.generateDocKey malformed_tab = JS.Throw JS.TypeError
  ∧ ¬ ∃ docKey, Background.generateDocKey malformed_tab = JS.Ok docKey.
Proof.
  split; [reflexivity|]. split; [reflexivity|].
  intros [docKey H]. vm_compute in H. discriminate H.
Qed.

Lemma trackActiveTab_unparsed (activeTab : Tab.t) (clock : Z) (st : State) :
  Url.parse (Tab.url activeTab) = None →
  db (trackActiveTab (Some activeTab) clock st) = db st.
Proof.
  intros Hu. unfold trackActiveTab.
  destruct (_ || _); [done|]. destruct (internal_page _); [done|].
  destruct (Z.leb _ _); [|done].
  unfold Background.recordSession. by rewrite generateDocKey_unparsed.
Qed.

(** C1, amended: [generateDocKey] returns a key for every URL that the
    URL constructor accepts.  On any other string the constructor's
    TypeError propagates out of [generateDocKey] (in the background
    worker and in the popup alike); the poller catches it, so that tick
    records nothing. *)
Theorem generateDocKey_returns_or_throws (activeTab : Tab.t) :
  (∃ u docKey, Url.parse (Tab.url activeTab) = Some u
               ∧ Background.generateDocKey activeTab = JS.Ok docKey)
  ∨ (Url.parse (Tab.url activeTab) = None
     ∧ Background.generateDocKey activeTab = JS.Throw JS.TypeError
     ∧ Popup.generateDocKey activeTab = JS.Throw JS.TypeError
     ∧ ∀ clock st, db (trackActiveTab (Some activeTab) clock st) = db st).
Proof.
  destruct (Url.parse (Tab.url activeTab)) as [u|] eqn:Hu.
  - left. destruct (generateDocKey_parsed activeTab u Hu) as [docKey Hk]. eauto.
  - right. split; [done|]. split; [by apply generateDocKey_unparsed|].
    split; [unfold Popup.generateDocKey; by rewrite Hu|].
    intros clock st. by apply trackActiveTab_unparsed.
Qed.

(** Ten seconds on a tab whose URL does not parse: the accumulator
    counts, nothing is stored. *)
Example malformed_ticks :
  let st := ticks 12 malformed_tab 0 idle in
  seconds <$> tabAccumulatedTime st !! 7 = Some 12 ∧ db st = init.
Proof. by vm_compute. Qed.

(** ** Document keys: the popup's copy *)

(** C5 fails on the code: the popup's copy of [generateDocKey] lacks the
    two chat rules, so on a conversation URL the worker records under one
    key and the popup looks up another. *)
Theorem generateDocKey_popup_differs :
  Background.generateDocKey chat_tab = JS.Ok "claude_abc123"
  ∧ Popup.generateDocKey chat_tab = JS.Ok "domain_claude.ai"
  ∧ Background.generateDocKey chat_tab ≠ Popup.generateDocKey chat_tab.
Proof. split; [reflexivity|]. split; [reflexivity|]. discriminate. Qed.

(** What the user sees: twelve seconds on the conversation are recorded
    under the worker's key, and the popup finds nothing under its own. *)
Example popup_misses_recorded_time :
  let st := ticks 12 chat_tab 0 idle in
  DocumentRecord.totalTimeMs <$> getDocumentStats "claude_abc123" (db st) = Some 3000
  ∧ (docKey ← Popup.generateDocKey chat_tab; mret (getDocumentStats docKey (db st)))
    = JS.Ok None.
Proof. by vm_compute. Qed.

(** X30: on a tab whose host, if its URL parses at all, contains none
    of claude.ai, chat.openai.com and chatgpt.com, the popup's
    [generateDocKey] and the worker's agree, in the key and in the
    failure. *)
Lemma generateDocKey_popup_agrees (activeTab : Tab.t) :
  (∀ u, Url.parse (Tab.url activeTab) = Some u →
        JS.includes "claude.ai" (Url.hostname u) = false
        ∧ JS.includes "chat.openai.com" (Url.hostname u) = false
        ∧ JS.includes "chatgpt.com" (Url.hostname u) = false) →
  Popup.generateDocKey activeTab = Background.generateDocKey activeTab.
Proof.
  intros H. unfold Popup.generateDocKey, Background.generateDocKey.
  destruct (Url.parse (Tab.url activeTab)) as [u|]; [|done].
  destruct (H u eq_refl) as (-> & -> & ->). simpl.
  repeat (match goal with |- context [match ?x with _ => _ end] => destruct x end; try done).
Qed.

(** ** Document keys: the rules *)

Lemma append_cons (c : ascii) (s t : string) : String c s +:+ t = String c (s +:+ t).
Proof. reflexivity. Qed.

Lemma append_nil (t : string) : "" +:+ t = t.
Proof. reflexivity. Qed.

Lemma match_capture_stops cls k rest :
  stops cls rest = true → Regex.match_capture cls k rest = None.
Proof.
  destruct rest as [|c rest]; [done|]. simpl. by intros ->%negb_true_iff.
Qed.

(** The group takes the whole segment when the rest of the pattern
    matches after it. *)
Lemma match_capture_segment cls k id rest caps :
  id_segment cls id rest → k rest = Some caps →
  Regex.match_capture cls k (id +:+ rest) = Some (id, caps).
Proof.
  intros (Hne & Hall & Hstop) Hk.
  induction id as [|c id IH]; [done|].
  rewrite append_cons. simpl in Hall. apply andb_true_iff in Hall as [Hc Hall].
  simpl. rewrite Hc. destruct id as [|c' id'].
  - rewrite append_nil. by rewrite match_capture_stops, Hk.
  - by rewrite IH.
Qed.

Lemma match_here_lits l r s :
  Regex.match_here (Regex.lits l ++ r)%list (l +:+ s) = Regex.match_here r s.
Proof.
  induction l as [|c l IH]; [done|].
  rewrite append_cons. simpl. by rewrite Ascii.eqb_refl.
Qed.

Lemma exec_here r s caps :
  Regex.match_here r s = Some caps → Regex.exec r s = Some caps.
Proof. intros H. destruct s; simpl; by rewrite H. Qed.

(** [/lit([cls]+)/] on a string that starts with [lit] and an id segment. *)
Lemma exec_lits_capture l cls id rest :
  id_segment cls id rest →
  Regex.exec (Regex.lits l ++ [Regex.Capture cls])%list (l +:+ id +:+ rest) = Some [id].
Proof.
  intros Hseg. apply exec_here. rewrite match_here_lits. simpl.
  by rewrite (match_capture_segment cls _ id rest []).
Qed.

Lemma match_here_startsWith l r s caps :
  Regex.match_here (Regex.lits l ++ r)%list s = Some caps → JS.startsWith l s = true.
Proof.
  revert s. induction l as [|c l IH]; intros s; [done|].
  simpl. destruct s as [|c' s]; [done|].
  destruct (Ascii.eqb c c'); [apply IH | done].
Qed.

(** A pattern that starts with a literal only matches where the literal occurs. *)
Lemma exec_includes l r s :
  JS.includes l s = false → Regex.exec (Regex.lits l ++ r)%list s = None.
Proof.
  induction s as [|c s IH]; simpl.
  - destruct (JS.startsWith l "") eqn:Hs; [done|]. intros _.
    destruct (Regex.match_here _ _) eqn:Hm; [|done].
    apply match_here_startsWith in Hm. congruence.
  - destruct (JS.startsWith l (String c s)) eqn:Hs; [done|]. intros Hi.
    destruct (Regex.match_here _ _) eqn:Hm.
    + apply match_here_startsWith in Hm. congruence.
    + by apply IH.
Qed.

(** [/\/([a-z]+)\/([a-z0-9]+)/] on a path [/app/id...]. *)
Lemma exec_office app id rest :
  id_segment Regex.lower_class app ("/" +:+ id +:+ rest) →
  id_segment Regex.lower_digit_class id rest →
  Regex.exec Regex.re_office ("/" +:+ app +:+ "/" +:+ id +:+ rest) = Some [app; id].
Proof.
  intros Happ Hid. apply exec_here.
  change (Regex.match_here Regex.re_office ("/" +:+ app +:+ "/" +:+ id +:+ rest))
    with (match Regex.match_capture Regex.lower_class
                  (Regex.match_here [Regex.Lit "/"; Regex.Capture Regex.lower_digit_class])
                  (app +:+ "/" +:+ id +:+ rest) with
          | Some (cap, caps) => Some (cap :: caps)
          | None => None
          end).
  rewrite (match_capture_segment _ _ app ("/" +:+ id +:+ rest) [id]); [done..|].
  change (Regex.match_here [Regex.Lit "/"; Regex.Capture Regex.lower_digit_class]
            ("/" +:+ id +:+ rest))
    with (match Regex.match_capture Regex.lower_digit_class (Regex.match_here [])
                  (id +:+ rest) with
          | Some (cap, caps) => Some (cap :: caps)
          | None => None
          end).
  by rewrite (match_capture_segment _ _ id rest []).
Qed.

Lemma includes_prefix l s : JS.includes l (l +:+ s) = true.
Proof.
  assert (H : JS.startsWith l (l +:+ s) = true).
  { induction l as [|c l IH]; [done|]. rewrite append_cons. simpl.
    by rewrite Ascii.eqb_refl. }
  destruct (l +:+ s); simpl; simpl in H; by rewrite H.
Qed.

(** ** Document keys: what a match is *)

Lemma match_capture_inv cls k s cap caps :
  Regex.match_capture cls k s = Some (cap, caps) →
  cap ≠ "" ∧ Url.all_chars cls cap = true ∧ ∃ rest, s = cap +:+ rest ∧ k rest = Some caps.
Proof.
  revert cap caps. induction s as [|c s IH]; intros cap caps; [done|].
  simpl. destruct (cls c) eqn:Hc; [|done].
  destruct (Regex.match_capture cls k s) as [[cap' caps']|] eqn:Hm.
  - intros [= <- <-]. destruct (IH cap' caps' eq_refl) as (_ & Hall & rest & -> & Hk).
    split; [done|]. split; [simpl; by rewrite Hc|]. exists rest. by rewrite append_cons.
  - destruct (k s) as [caps'|] eqn:Hk; [|done]. intros [= <- <-].
    split; [done|]. split; [simpl; by rewrite Hc|]. by exists s.
Qed.

(** With nothing after the group, the group is greedy: what follows is
    no character of the class. *)
Lemma match_capture_last cls k s cap caps :
  (∀ r, k r = Some []) →
  Regex.match_capture cls k s = Some (cap, caps) →
  caps = [] ∧ ∃ rest, s = cap +:+ rest ∧ id_segment cls cap rest.
Proof.
  intros Hk. revert cap caps. induction s as [|c s IH]; intros cap caps; [done|].
  simpl. destruct (cls c) eqn:Hc; [|done].
  destruct (Regex.match_capture cls k s) as [[cap' caps']|] eqn:Hm.
  - intros [= <- <-]. destruct (IH cap' caps' eq_refl) as (-> & rest & -> & _ & Hall & Hstop).
    split; [done|]. exists rest. split; [by rewrite append_cons|].
    split; [done|]. split; [simpl; by rewrite Hc | done].
  - rewrite Hk. intros [= <- <-]. split; [done|]. exists s. split; [done|].
    split; [done|]. split; [simpl; by rewrite Hc|].
    destruct s as [|c' s']; [done|]. simpl in *.
    destruct (cls c'); [|done].
    destruct (Regex.match_capture cls k s') as [[??]|]; [done|]. by rewrite Hk in Hm.
Qed.

Lemma match_here_lits_inv l r s m :
  Regex.match_here (Regex.lits l ++ r)%list s = Some m →
  ∃ s', s = l +:+ s' ∧ Regex.match_here r s' = Some m.
Proof.
  revert s. induction l as [|c l IH]; intros s; [by exists s|].
  simpl. destruct s as [|c' s]; [done|].
  destruct (Ascii.eqb_spec c c') as [<- | Hne]; [|done].
  intros (s' & -> & Hm)%IH. exists s'. by rewrite append_cons.
Qed.

Lemma exec_inv r s m :
  Regex.exec r s = Some m → ∃ pre s', s = pre +:+ s' ∧ Regex.match_here r s' = Some m.
Proof.
  induction s as [|c s IH]; simpl.
  - destruct (Regex.match_here r "") eqn:Hm; [|done]. intros [= <-]. by exists "", "".
  - destruct (Regex.match_here r (String c s)) eqn:Hm.
    + intros [= <-]. by exists "", (String c s).
    + intros (pre & s' & -> & Hs')%IH. by exists (String c pre), s'.
Qed.

(** A match of [/lit([cls]+)/]: the only group is a whole id segment
    that follows the literal somewhere in the string. *)
Lemma exec_lits_capture_inv l cls s m :
  Regex.exec (Regex.lits l ++ [Regex.Capture cls])%list s = Some m →
  ∃ pre id rest, m = [id] ∧ s = pre +:+ l +:+ id +:+ rest ∧ id_segment cls id rest.
Proof.
  intros (pre & s' & -> & (s'' & -> & Hm)%match_here_lits_inv)%exec_inv.
  simpl in Hm.
  destruct (Regex.match_capture cls _ s'') as [[cap caps]|] eqn:Hc; [|done].
  injection Hm as <-.
  apply match_capture_last in Hc as (-> & rest & -> & Hseg); [|done].
  by exists pre, cap, rest.
Qed.

Lemma match_here_Lit_inv c r s m :
  Regex.match_here (Regex.Lit c :: r) s = Some m →
  ∃ s', s = String c s' ∧ Regex.match_here r s' = Some m.
Proof.
  destruct s as [|c' s]; [done|]. simpl.
  destruct (Ascii.eqb_spec c c') as [<- | Hne]; [|done]. by exists s.
Qed.

Lemma match_here_Capture_inv cls r s m :
  Regex.match_here (Regex.Capture cls :: r) s = Some m →
  ∃ cap caps, m = cap :: caps
              ∧ Regex.match_capture cls (Regex.match_here r) s = Some (cap, caps).
Proof.
  simpl. destruct (Regex.match_capture cls (Regex.match_here r) s) as [[cap caps]|]; [|done].
  intros [= <-]. by exists cap, caps.
Qed.

Lemma exec_office_inv s m :
  Regex.exec Regex.re_office s = Some m →
  ∃ pre app id rest,
    m = [app; id] ∧ s = pre +:+ "/" +:+ app +:+ "/" +:+ id +:+ rest
    ∧ app ≠ "" ∧ Url.all_chars Regex.lower_class app = true
    ∧ id_segment Regex.lower_digit_class id rest.
Proof.
  unfold Regex.re_office.
  intros (pre & s0 & -> & (s1 & -> & Hm)%match_here_Lit_inv)%exec_inv.
  apply match_here_Capture_inv in Hm as (app & caps & -> & Hc).
  apply match_capture_inv in Hc as (Hne & Hall & s2 & -> & Hk).
  apply match_here_Lit_inv in Hk as (s3 & -> & Hk).
  apply match_here_Capture_inv in Hk as (id & caps' & -> & Hc2).
  apply match_capture_last in Hc2 as (-> & rest & -> & Hseg); [|done].
  by exists pre, app, id, rest.
Qed.

Lemma guarded_exec (guard : bool) (r : Regex.regex) (s : string) (m : list string) :
  (if guard then Regex.exec r s else None) = Some m → Regex.exec r s = Some m.
Proof. by destruct guard. Qed.

Lemma exec_cons r c s :
  Regex.exec r (String c s)
  = match Regex.match_here r (String c s) with
    | Some caps => Some caps
    | None => Regex.exec r s
    end.
Proof. reflexivity. Qed.

Lemma match_here_lits_capture_inv l cls s m :
  Regex.match_here (Regex.lits l ++ [Regex.Capture cls])%list s = Some m →
  ∃ id rest, m = [id] ∧ s = l +:+ id +:+ rest ∧ id_segment cls id rest.
Proof.
  intros (s' & -> & Hm)%match_here_lits_inv. simpl in Hm.
  destruct (Regex.match_capture cls _ s') as [[cap caps]|] eqn:Hc; [|done].
  injection Hm as <-.
  apply match_capture_last in Hc as (-> & rest & -> & Hseg); [|done].
  by exists cap, rest.
Qed.

(** The search reports the leftmost match. *)
Lemma exec_first l cls s pre id rest :
  first_id l cls s pre id rest →
  Regex.exec (Regex.lits l ++ [Regex.Capture cls])%list s = Some [id].
Proof.
  intros [[-> Hseg] Hmin]. induction pre as [|c pre IH].
  - exact (exec_lits_capture l cls id rest Hseg).
  - rewrite append_cons, exec_cons.
    destruct (Regex.match_here _ _) as [m|] eqn:Hm.
    + apply match_here_lits_capture_inv in Hm as (id' & rest' & _ & Hs & Hseg').
      specialize (Hmin "" id' rest' (conj Hs Hseg')). simpl in Hmin. lia.
    + apply IH. intros pre' id' rest' [Hs Hseg'].
      assert (Hat : id_at l cls (String c pre +:+ l +:+ id +:+ rest)
                      (String c pre') id' rest').
      { split; [|done]. rewrite (append_cons c pre), (append_cons c pre'). by f_equal. }
      apply Hmin in Hat. simpl in Hat. lia.
Qed.

(** It finds a match wherever there is one, and only there. *)
Lemma has_id_exec l cls s :
  has_id l cls s → Regex.exec (Regex.lits l ++ [Regex.Capture cls])%list s ≠ None.
Proof.
  intros (pre & id & rest & -> & Hseg). induction pre as [|c pre IH].
  - rewrite append_nil. by rewrite (exec_lits_capture l cls id rest Hseg).
  - rewrite append_cons, exec_cons. by destruct (Regex.match_here _ _).
Qed.

Lemma exec_none l cls s :
  ¬ has_id l cls s → Regex.exec (Regex.lits l ++ [Regex.Capture cls])%list s = None.
Proof.
  intros Hno. destruct (Regex.exec _ s) as [m|] eqn:He; [|done].
  apply exec_lits_capture_inv in He as (pre & id & rest & _ & Hs & Hseg).
  destruct Hno. by exists pre, id, rest.
Qed.

Lemma match_here_office_inv s m :
  Regex.match_here Regex.re_office s = Some m →
  ∃ app id rest,
    m = [app; id] ∧ s = "/" +:+ app +:+ "/" +:+ id +:+ rest
    ∧ app ≠ "" ∧ Url.all_chars Regex.lower_class app = true
    ∧ id_segment Regex.lower_digit_class id rest.
Proof.
  unfold Regex.re_office. intros (s1 & -> & Hm)%match_here_Lit_inv.
  apply match_here_Capture_inv in Hm as (app & caps & -> & Hc).
  apply match_capture_inv in Hc as (Hne & Hall & s2 & -> & Hk).
  apply match_here_Lit_inv in Hk as (s3 & -> & Hk).
  apply match_here_Capture_inv in Hk as (id & caps' & -> & Hc2).
  apply match_capture_last in Hc2 as (-> & rest & -> & Hseg); [|done].
  by exists app, id, rest.
Qed.

Lemma exec_office_here app id rest :
  app ≠ "" → Url.all_chars Regex.lower_class app = true →
  id_segment Regex.lower_digit_class id rest →
  Regex.exec Regex.re_office ("/" +:+ app +:+ "/" +:+ id +:+ rest) = Some [app; id].
Proof. intros Hne Hall Hseg. by apply exec_office. Qed.

Lemma exec_office_first s pre app id rest :
  first_office s pre app id rest → Regex.exec Regex.re_office s = Some [app; id].
Proof.
  intros [(-> & Hne & Hall & Hseg) Hmin]. induction pre as [|c pre IH].
  - exact (exec_office_here app id rest Hne Hall Hseg).
  - rewrite append_cons, exec_cons.
    destruct (Regex.match_here _ _) as [m|] eqn:Hm.
    + apply match_here_office_inv in Hm as (app' & id' & rest' & _ & Hs & Hrest).
      specialize (Hmin "" app' id' rest' (conj Hs Hrest)). simpl in Hmin. lia.
    + apply IH. intros pre' app' id' rest' [Hs Hrest].
      assert (Hat : office_at (String c pre +:+ "/" +:+ app +:+ "/" +:+ id +:+ rest)
                      (String c pre') app' id' rest').
      { split; [|done]. rewrite (append_cons c pre), (append_cons c pre'). by f_equal. }
      apply Hmin in Hat. simpl in Hat. lia.
Qed.

Lemma has_office_exec s : has_office s → Regex.exec Regex.re_office s ≠ None.
Proof.
  intros (pre & app & id & rest & -> & Hne & Hall & Hseg). induction pre as [|c pre IH].
  - rewrite append_nil. by rewrite (exec_office_here app id rest).
  - rewrite append_cons, exec_cons. by destruct (Regex.match_here _ _).
Qed.

Lemma exec_office_none s : ¬ has_office s → Regex.exec Regex.re_office s = None.
Proof.
  intros Hno. destruct (Regex.exec _ s) as [m|] eqn:He; [|done].
  apply exec_office_inv in He as (pre & app & id & rest & _ & Hs & Hrest).
  destruct Hno. by exists pre, app, id, rest.
Qed.

Lemma includes_middle l pre s : JS.includes l (pre +:+ l +:+ s) = true.
Proof.
  induction pre as [|c pre IH]; [exact (includes_prefix l s)|].
  rewrite append_cons. simpl. by destruct (JS.startsWith l _).
Qed.

(** A rule whose turn has come fires at the leftmost match; a rule that
    does not apply is passed over. *)
Lemma rule_fires (guard : bool) l cls s pre id rest :
  guard = true → first_id l cls s pre id rest →
  (if guard then Regex.exec (Regex.lits l ++ [Regex.Capture cls])%list s else None)
  = Some [id].
Proof. intros -> Hfirst. exact (exec_first l cls s pre id rest Hfirst). Qed.

Lemma rule_skips (guard : bool) l cls s :
  ¬ (guard = true ∧ has_id l cls s) →
  (if guard then Regex.exec (Regex.lits l ++ [Regex.Capture cls])%list s else None) = None.
Proof.
  intros Hno. destruct guard; [|done]. apply exec_none. intros Hhas. by apply Hno.
Qed.

Lemma office_skips (guard : bool) s :
  ¬ (guard = true ∧ has_office s) →
  (if guard then Regex.exec Regex.re_office s else None) = None.
Proof.
  intros Hno. destruct guard; [|done]. apply exec_office_none. intros Hhas. by apply Hno.
Qed.

(** C10, as stated, fails: a conversation URL is a well-formed URL of no
    document editor, and its key is not [domain_<hostname>]. *)
Lemma generateDocKey_chat_is_not_domain :
  Url.parse (Tab.url other_chat_tab)
  = Some {| Url.hostname := "chatgpt.com"; Url.pathname := "/c/abc-123" |}
  ∧ generateDocKey other_chat_tab = JS.Ok "chatgpt_abc-123"
  ∧ generateDocKey other_chat_tab ≠ JS.Ok "domain_chatgpt.com".
Proof. split; [reflexivity|]. split; [reflexivity|]. discriminate. Qed.

(** C10, amended: for a URL that parses to a host name and a path, the
    five rules are tried in the order document, spreadsheet, office,
    claude, chatgpt.  A rule applies when the host name contains the
    rule's host and the path has, anywhere, a place where the rule's
    pattern matches.  The key is the one of the first rule that applies,
    made of the rule's tag and the id at the leftmost such place:
    [gdoc_<id>], [gsheet_<id>], [office_<app>_<id>], [claude_<id>],
    [chatgpt_<id>]; when no rule applies it is [domain_<hostname>]. *)
Theorem generateDocKey_rules (activeTab : Tab.t) (u : Url.URL) :
  Url.parse (Tab.url activeTab) = Some u →
  (∀ pre id rest,
     JS.includes "docs.google.com" (Url.hostname u) = true →
     first_id "/document/d/" Regex.id_class (Url.pathname u) pre id rest →
     generateDocKey activeTab = JS.Ok ("gdoc_" +:+ id))
  ∧ (∀ pre id rest,
     ¬ document_rule u →
     JS.includes "docs.google.com" (Url.hostname u) = true →
     first_id "/spreadsheets/d/" Regex.id_class (Url.pathname u) pre id rest →
     generateDocKey activeTab = JS.Ok ("gsheet_" +:+ id))
  ∧ (∀ pre app id rest,
     ¬ document_rule u → ¬ spreadsheet_rule u →
     JS.includes "office.com" (Url.hostname u) || JS.includes "office365.com" (Url.hostname u)
     = true →
     first_office (Url.pathname u) pre app id rest →
     generateDocKey activeTab = JS.Ok ("office_" +:+ app +:+ "_" +:+ id))
  ∧ (∀ pre id rest,
     ¬ document_rule u → ¬ spreadsheet_rule u → ¬ office_rule u →
     JS.includes "claude.ai" (Url.hostname u) = true →
     first_id "/chat/" Regex.id_class (Url.pathname u) pre id rest →
     generateDocKey activeTab = JS.Ok ("claude_" +:+ id))
  ∧ (∀ pre id rest,
     ¬ document_rule u → ¬ spreadsheet_rule u → ¬ office_rule u → ¬ claude_rule u →
     JS.includes "chat.openai.com" (Url.hostname u) || JS.includes "chatgpt.com" (Url.hostname u)
     = true →
     first_id "/c/" Regex.id_class (Url.pathname u) pre id rest →
     generateDocKey activeTab = JS.Ok ("chatgpt_" +:+ id))
  ∧ (¬ document_rule u → ¬ spreadsheet_rule u → ¬ office_rule u → ¬ claude_rule u →
     ¬ chatgpt_rule u →
     generateDocKey activeTab = JS.Ok ("domain_" +:+ Url.hostname u)).
Proof.
  intros Hu. unfold generateDocKey. rewrite Hu. cbv zeta.
  set (host := Url.hostname u). set (path := Url.pathname u).
  assert (Hdoc : ¬ document_rule u →
            (if JS.includes "docs.google.com" host
             then Regex.exec Regex.re_document path else None) = None).
  { intros Hno. by apply rule_skips. }
  assert (Hsheet : ¬ spreadsheet_rule u →
            (if JS.includes "docs.google.com" host && JS.includes "/spreadsheets" path
             then Regex.exec Regex.re_spreadsheets path else None) = None).
  { intros Hno. apply rule_skips. intros [[Hd _]%andb_true_iff Hhas]. by apply Hno. }
  assert (Hoffice : ¬ office_rule u →
            (if JS.includes "office.com" host || JS.includes "office365.com" host
             then Regex.exec Regex.re_office path else None) = None).
  { intros Hno. by apply office_skips. }
  assert (Hclaude : ¬ claude_rule u →
            (if JS.includes "claude.ai" host
             then Regex.exec Regex.re_chat path else None) = None).
  { intros Hno. by apply rule_skips. }
  assert (Hchatgpt : ¬ chatgpt_rule u →
            (if JS.includes "chat.openai.com" host || JS.includes "chatgpt.com" host
             then Regex.exec Regex.re_c path else None) = None).
  { intros Hno. by apply rule_skips. }
  split; [|split; [|split; [|split; [|split]]]].
  - intros pre id rest Hhost Hfirst.
    assert (H : (if JS.includes "docs.google.com" host
                 then Regex.exec Regex.re_document path else None) = Some [id])
      by exact (rule_fires _ "/document/d/" _ path pre id rest Hhost Hfirst).
    by rewrite H.
  - intros pre id rest N1 Hhost Hfirst. rewrite (Hdoc N1).
    assert (Hguard : JS.includes "docs.google.com" host && JS.includes "/spreadsheets" path
                     = true).
    { apply andb_true_iff. split; [done|]. destruct Hfirst as [[Hs _] _]. fold path in Hs.
      rewrite Hs. apply (includes_middle "/spreadsheets" pre ("/d/" +:+ id +:+ rest)). }
    assert (H : (if JS.includes "docs.google.com" host && JS.includes "/spreadsheets" path
                 then Regex.exec Regex.re_spreadsheets path else None) = Some [id])
      by exact (rule_fires _ "/spreadsheets/d/" _ path pre id rest Hguard Hfirst).
    by rewrite H.
  - intros pre app id rest N1 N2 Hhost Hfirst. rewrite (Hdoc N1), (Hsheet N2).
    fold host in Hhost. rewrite Hhost.
    by rewrite (exec_office_first path pre app id rest Hfirst).
  - intros pre id rest N1 N2 N3 Hhost Hfirst. rewrite (Hdoc N1), (Hsheet N2), (Hoffice N3).
    assert (H : (if JS.includes "claude.ai" host
                 then Regex.exec Regex.re_chat path else None) = Some [id])
      by exact (rule_fires _ "/chat/" _ path pre id rest Hhost Hfirst).
    by rewrite H.
  - intros pre id rest N1 N2 N3 N4 Hhost Hfirst.
    rewrite (Hdoc N1), (Hsheet N2), (Hoffice N3), (Hclaude N4).
    assert (H : (if JS.includes "chat.openai.com" host || JS.includes "chatgpt.com" host
                 then Regex.exec Regex.re_c path else None) = Some [id])
      by exact (rule_fires _ "/c/" _ path pre id rest Hhost Hfirst).
    by rewrite H.
  - intros N1 N2 N3 N4 N5.
    by rewrite (Hdoc N1), (Hsheet N2), (Hoffice N3), (Hclaude N4), (Hchatgpt N5).
Qed.

(** The two URLs of the specification's scenario, a document whose id
    is not at the start of the path, and a page of the documents host
    that no rule takes. *)
Lemma generateDocKey_rules_witness :
  generateDocKey tab_two = JS.Ok "gdoc_XYZ123"
  ∧ generateDocKey tab_one = JS.Ok "domain_example.com"
  ∧ generateDocKey workspace_tab = JS.Ok "gdoc_ABC"
  ∧ generateDocKey slides_tab = JS.Ok "domain_docs.google.com".
Proof.
  split; [|split; [|split]].
  - destruct (generateDocKey_rules tab_two
                {| Url.hostname := "docs.google.com";
                   Url.pathname := "/document/d/XYZ123/edit" |} eq_refl) as (R & _).
    apply (R "" "XYZ123" "/edit"); [reflexivity|].
    split.
    + split; [reflexivity|]. split; [discriminate|]. split; reflexivity.
    + intros pre' id' rest' _. simpl. lia.
  - destruct (generateDocKey_rules tab_one
                {| Url.hostname := "example.com"; Url.pathname := "/page" |} eq_refl)
      as (_ & _ & _ & _ & _ & R).
    apply R; intros [H _]; vm_compute in H; discriminate H.
  - destruct (generateDocKey_rules workspace_tab
                {| Url.hostname := "docs.google.com";
                   Url.pathname := "/a/example.com/document/d/ABC/edit" |} eq_refl)
      as (R & _).
    apply (R "/a/example.com" "ABC" "/edit"); [reflexivity|].
    split.
    + split; [reflexivity|]. split; [discriminate|]. split; reflexivity.
    + intros pre' id' rest' [H _]. simpl in H.
      do 14 (destruct pre' as [|? pre'];
             [simpl in H; discriminate H | simpl in H; injection H as _ H]).
      simpl. lia.
  - destruct (generateDocKey_rules slides_tab
                {| Url.hostname := "docs.google.com";
                   Url.pathname := "/presentation/d/p1/edit" |} eq_refl)
      as (_ & _ & _ & _ & _ & R).
    apply R.
    + intros [_ H%has_id_exec]. exact (H eq_refl).
    + intros [_ H%has_id_exec]. exact (H eq_refl).
    + intros [H _]. vm_compute in H. discriminate H.
    + intros [H _]. vm_compute in H. discriminate H.
    + intros [H _]. vm_compute in H. discriminate H.
Defined.

(** The leftmost match is not always the first occurrence of the
    literal: an occurrence that no id follows is passed over. *)
Example generateDocKey_passes_over_bare_literals :
  generateDocKey {| Tab.id := 12; Tab.title := "Copy";
                    Tab.url := "https://docs.google.com/document/d//document/d/A-1_b" |}
  = JS.Ok "gdoc_A-1_b"
  ∧ generateDocKey {| Tab.id := 13; Tab.title := "Sheet";
                      Tab.url := "https://docs.google.com/u/0/spreadsheets/d/S2/edit" |}
    = JS.Ok "gsheet_S2"
  ∧ generateDocKey {| Tab.id := 14; Tab.title := "Excel";
                      Tab.url := "https://www.office.com/EN/launch/excel/x" |}
    = JS.Ok "office_launch_excel".
Proof. by vm_compute. Qed.

Example generateDocKey_sheet_and_office :
  generateDocKey {| Tab.id := 5; Tab.title := "Budget";
                    Tab.url := "https://docs.google.com/spreadsheets/d/1a_B-c/edit#gid=0" |}
  = JS.Ok "gsheet_1a_B-c"
  ∧ generateDocKey {| Tab.id := 6; Tab.title := "Word";
                      Tab.url := "https://www.office.com/launch/word?auth=2" |}
    = JS.Ok "office_launch_word".
Proof. split; reflexivity. Qed.

(** ** The calendar *)

(** [YearFromDay] is the year the standard defines: the one whose first
    day is the last first-of-year at or before the day. *)
Lemma YearFromDay_bracket (d : Z) :
  Date.DayFromYear (Date.YearFromDay d) ≤ d < Date.DayFromYear (Date.YearFromDay d + 1).
Proof.
  unfold Date.YearFromDay.
  set (y := 1970 + d * 400 / 146097).
  destruct (Z.leb_spec (Date.DayFromYear (y + 1)) d) as [H1|H1];
    [|destruct (Z.ltb_spec d (Date.DayFromYear y)) as [H2|H2]];
    unfold Date.DayFromYear in *; subst y;
    Z.to_euclidean_division_equations; lia.
Qed.

Lemma DayFromYear_next (y : Z) :
  Date.DayFromYear (y + 1) = Date.DayFromYear y + Date.DaysInYear y.
Proof.
  unfold Date.DayFromYear, Date.DaysInYear.
  repeat case_match;
    repeat match goal with
           | H : negb _ = true |- _ => apply negb_true_iff, Z.eqb_neq in H
           | H : negb _ = false |- _ => apply negb_false_iff, Z.eqb_eq in H
           end;
    Z.to_euclidean_division_equations; lia.
Qed.

Lemma DayWithinYear_range (t : Z) :
  0 ≤ Date.DayWithinYear t < Date.DaysInYear (Date.YearFromTime t).
Proof.
  unfold Date.DayWithinYear, Date.YearFromTime.
  pose proof (YearFromDay_bracket (Date.Day t)) as H.
  rewrite DayFromYear_next in H. lia.
Qed.

(** ** Week buckets *)

(** [setDate] with a day counted from the Date's own local day moves the
    time value by whole days. *)
Lemma MonthFromTime_range (t : Z) : 0 ≤ Date.MonthFromTime t ≤ 11.
Proof. unfold Date.MonthFromTime. repeat case_match; lia. Qed.

Lemma MakeDay_back (t k : Z) :
  Date.MakeDay (Date.YearFromTime t) (Date.MonthFromTime t) (Date.DateFromTime t - k)
  = Date.Day t - k.
Proof.
  pose proof (MonthFromTime_range t) as Hm.
  unfold Date.MakeDay, Date.DateFromTime, Date.DayWithinYear.
  rewrite Z.div_small, Z.mod_small by lia.
  rewrite Z.add_0_r. fold (Date.InLeapYear t). lia.
Qed.

Lemma setDate_back (tza t k : Z) :
  Date.setDate tza (Some t) (Some (Date.DateFromTime (Date.LocalTime tza t) - k))
  = Date.TimeClip (t - k * Date.msPerDay).
Proof.
  unfold Date.setDate. simpl. rewrite MakeDay_back.
  f_equal. unfold Date.UTC, Date.MakeDate, Date.LocalTime, Date.Day, Date.TimeWithinDay.
  pose proof (Z.div_mod (t + tza) Date.msPerDay ltac:(done)). lia.
Qed.

(** The instant whose UTC day [getWeekKey] prints: the parsed midnight,
    moved back by the weekday of the local day. *)
Lemma getWeekKey_instant (tza t : Z) (dateString : string) :
  Date.parse dateString = Some t →
  getWeekKey tza dateString =
  (s ← Date.toISOString
         (Date.TimeClip (t - Date.WeekDay (Date.LocalTime tza t) * Date.msPerDay));
   mret (JS.split_head "T" s)).
Proof.
  intros Ht. unfold getWeekKey. rewrite Ht.
  change (Date.getDate tza (Some t) ≫= λ d, Date.getDay tza (Some t) ≫= λ w, Some (d - w))
    with (Some (Date.DateFromTime (Date.LocalTime tza t) - Date.WeekDay (Date.LocalTime tza t))).
  by rewrite setDate_back.
Qed.

(** At or east of UTC that instant lies on a Sunday; west of UTC, on a
    Monday. *)
Lemma week_start_east (tza n : Z) :
  0 ≤ tza < Date.msPerDay →
  let t := n * Date.msPerDay in
  Date.WeekDay (t - Date.WeekDay (Date.LocalTime tza t) * Date.msPerDay) = 0.
Proof.
  intros Htz t. unfold Date.WeekDay, Date.LocalTime, Date.Day, t, Date.msPerDay in *.
  assert ((n * 86400000 + tza) / 86400000 = n) as ->
    by (symmetry; apply Z.div_unique with tza; lia).
  replace (n * 86400000 - (n + 4) `mod` 7 * 86400000)
    with ((n - (n + 4) `mod` 7) * 86400000) by lia.
  rewrite Z.div_mul by lia.
  pose proof (Z.div_mod (n + 4) 7 ltac:(lia)) as Hdm.
  replace (n - (n + 4) `mod` 7 + 4) with (((n + 4) / 7) * 7) by lia.
  apply Z.mod_mul. lia.
Qed.

Lemma week_start_west (tza n : Z) :
  - Date.msPerDay ≤ tza < 0 →
  let t := n * Date.msPerDay in
  Date.WeekDay (t - Date.WeekDay (Date.LocalTime tza t) * Date.msPerDay) = 1.
Proof.
  intros Htz t. unfold Date.WeekDay, Date.LocalTime, Date.Day, t, Date.msPerDay in *.
  assert ((n * 86400000 + tza) / 86400000 = n - 1) as ->
    by (symmetry; apply Z.div_unique with (tza + 86400000); lia).
  replace (n * 86400000 - (n - 1 + 4) `mod` 7 * 86400000)
    with ((n - (n - 1 + 4) `mod` 7) * 86400000) by lia.
  rewrite Z.div_mul by lia.
  pose proof (Z.div_mod (n - 1 + 4) 7 ltac:(lia)) as Hdm.
  replace (n - (n - 1 + 4) `mod` 7 + 4) with (1 + ((n - 1 + 4) / 7) * 7) by lia.
  rewrite Z.mod_add by lia. done.
Qed.

Lemma parse_midnight (dateString : string) (t : Z) :
  Date.parse dateString = Some t → t = Date.Day t * Date.msPerDay.
Proof.
  unfold Date.parse. intros H.
  destruct (_ && _) in H; [|done].
  destruct (Date.number 0 (String.substring 0 4 dateString)) as [y|]; [|done].
  destruct (Date.number 0 (String.substring 5 2 dateString)) as [m|]; [|done].
  destruct (Date.number 0 (String.substring 8 2 dateString)) as [d|]; [|done].
  cbn [mbind option_bind] in H.
  destruct (_ && _) in H; [|done].
  unfold Date.TimeClip in H. case_match; [done|]. injection H as <-.
  unfold Date.MakeDate, Date.Day. rewrite Z.add_0_r. by rewrite Z.div_mul.
Qed.

(** At or east of UTC, two consecutive days of one week (the first is
    no Saturday) get the same week key. *)
Lemma getWeekKey_consecutive_days_east (tza t : Z) (day1 day2 : string) :
  0 ≤ tza < Date.msPerDay →
  Date.parse day1 = Some t →
  Date.parse day2 = Some (t + Date.msPerDay) →
  Date.WeekDay t ≠ 6 →
  getWeekKey tza day1 = getWeekKey tza day2.
Proof.
  intros Htz H1 H2 Hsat.
  rewrite (getWeekKey_instant tza t day1 H1).
  rewrite (getWeekKey_instant tza (t + Date.msPerDay) day2 H2).
  apply parse_midnight in H1.
  assert (Hi : t - Date.WeekDay (Date.LocalTime tza t) * Date.msPerDay
               = t + Date.msPerDay
                 - Date.WeekDay (Date.LocalTime tza (t + Date.msPerDay)) * Date.msPerDay);
    [|by rewrite Hi].
  revert Hsat H1. generalize (Date.Day t) as n. intros n Hsat ->.
  unfold Date.WeekDay, Date.LocalTime, Date.Day, Date.msPerDay in *.
  rewrite Z.div_mul in Hsat by lia.
  assert ((n * 86400000 + tza) / 86400000 = n) as ->
    by (symmetry; apply Z.div_unique with tza; lia).
  assert ((n * 86400000 + 86400000 + tza) / 86400000 = n + 1) as ->
    by (symmetry; apply Z.div_unique with tza; lia).
  Z.to_euclidean_division_equations. lia.
Qed.

(** C9 fails on the code: [getWeekKey] reads the date as midnight UTC but
    takes the weekday in local time.  West of UTC the Sunday 2024-01-07
    is put under Monday 2024-01-01 and the Monday after it under
    2024-01-08, so two consecutive days of one calendar week get two
    buckets; at UTC both get 2024-01-07. *)
Theorem getWeekKey_depends_on_time_zone :
  Date.WeekDay <$> Date.parse "2024-01-07" = Some 0
  ∧ getWeekKey west "2024-01-07" = JS.Ok "2024-01-01"
  ∧ getWeekKey west "2024-01-08" = JS.Ok "2024-01-08"
  ∧ getWeekKey 0 "2024-01-07" = JS.Ok "2024-01-07"
  ∧ getWeekKey 0 "2024-01-08" = JS.Ok "2024-01-07"
  ∧ getTimeBreakdown west "gdoc_abc" "week" sunday_and_monday
    = JS.Ok {[ "2024-01-01" := 1000; "2024-01-08" := 1000 ]}
  ∧ getTimeBreakdown 0 "gdoc_abc" "week" sunday_and_monday
    = JS.Ok {[ "2024-01-07" := 2000 ]}.
Proof. repeat split; by vm_compute. Qed.

(** * Further properties of the session store *)

(** ** The ledger is append-only *)

Lemma sum_durations_cons (kv : Z * SessionRecord.t) (l : list (Z * SessionRecord.t)) :
  sum_durations (kv :: l) = SessionRecord.durationMs kv.2 + sum_durations l.
Proof. reflexivity. Qed.

Lemma sum_durations_Permutation (l1 l2 : list (Z * SessionRecord.t)) :
  l1 ≡ₚ l2 → sum_durations l1 = sum_durations l2.
Proof.
  induction 1; rewrite ?sum_durations_cons; lia.
Qed.

Lemma sum_durations_submseteq (l1 l2 : list (Z * SessionRecord.t)) :
  Forall (λ kv, 0 ≤ SessionRecord.durationMs kv.2) l2 →
  l1 ⊆+ l2 → sum_durations l1 ≤ sum_durations l2.
Proof.
  intros Hpos Hsub. revert Hpos.
  induction Hsub as [|x l1 l2 _ IH|x y l|x l1 l2 _ IH|l1 l2 l3 H12 IH1 H23 IH2]; intros Hpos.
  - done.
  - apply Forall_cons in Hpos as [_ Hpos]. rewrite !sum_durations_cons.
    specialize (IH Hpos). lia.
  - rewrite !sum_durations_cons. lia.
  - apply Forall_cons in Hpos as [Hx Hpos]. rewrite sum_durations_cons.
    specialize (IH Hpos). lia.
  - etrans; [apply IH1 | by apply IH2].
    apply Forall_forall. intros kv Hkv.
    rewrite Forall_forall in Hpos. apply Hpos.
    by eapply elem_of_submseteq.
Qed.

Lemma keyGenerator_fresh (db : DB) : wf db → sessions db !! keyGenerator db = None.
Proof.
  intros [Hs _]. destruct (sessions db !! keyGenerator db) as [s|] eqn:E; [|done].
  apply Hs in E. lia.
Qed.

(** X1: on a well-formed database [recordSession] is an append: the new
    session gets the id the key generator held, which was free; every
    session stored before is still there, unchanged, under its id; no
    other document's record changes; the key generator moves on by one. *)
Theorem recordSession_appends
    (docKey title date : string) (durationMs : Z) (url : string) (clock : Z) (db : DB) :
  wf db →
  let db' := IndexedDBManager.recordSession docKey title date durationMs url clock db in
  sessions db !! keyGenerator db = None
  ∧ sessions db' !! keyGenerator db
    = Some {| SessionRecord.docKey := docKey; SessionRecord.date := date;
              SessionRecord.durationMs := durationMs;
              SessionRecord.timestamp := Date.iso clock |}
  ∧ (∀ id, id ≠ keyGenerator db → sessions db' !! id = sessions db !! id)
  ∧ (∀ id s, sessions db !! id = Some s → sessions db' !! id = Some s)
  ∧ (∀ other, other ≠ docKey → documents db' !! other = documents db !! other)
  ∧ keyGenerator db' = keyGenerator db + 1.
Proof.
  intros Hwf db'. pose proof (keyGenerator_fresh db Hwf) as Hfresh.
  split; [done|]. split; [apply lookup_insert_eq|].
  split; [intros id Hid; by apply lookup_insert_ne|].
  split.
  { intros id s Hs. unfold db'. simpl. rewrite lookup_insert_ne; [done|]. congruence. }
  split; [|done].
  intros other Hne. unfold db'. simpl. destruct Hwf as [_ Hd].
  destruct (documents db !! docKey) as [r|] eqn:Hr; simpl.
  - rewrite (Hd _ _ Hr). by apply lookup_insert_ne.
  - by apply lookup_insert_ne.
Qed.

(** ** Histories *)

Lemma getSessionsByDocKey_record
    (k docKey title date : string) (durationMs : Z) (url : string) (clock : Z) (db : DB) :
  wf db →
  getSessionsByDocKey k
    (IndexedDBManager.recordSession docKey title date durationMs url clock db)
  ≡ₚ (if decide (docKey = k)
      then [(keyGenerator db,
             {| SessionRecord.docKey := docKey; SessionRecord.date := date;
                SessionRecord.durationMs := durationMs;
                SessionRecord.timestamp := Date.iso clock |})]
      else []) ++ getSessionsByDocKey k db.
Proof.
  intros Hwf. unfold getSessionsByDocKey. simpl.
  rewrite map_to_list_insert by by apply keyGenerator_fresh.
  destruct (decide (docKey = k)) as [->|Hne].
  - by rewrite filter_cons_True.
  - by rewrite filter_cons_False.
Qed.

Lemma ledger_record
    (k docKey title date : string) (durationMs : Z) (url : string) (clock : Z) (db : DB) :
  wf db →
  ledger k (IndexedDBManager.recordSession docKey title date durationMs url clock db)
  = ledger k db + (if decide (docKey = k) then durationMs else 0).
Proof.
  intros Hwf. unfold ledger.
  rewrite (sum_durations_Permutation _ _
             (getSessionsByDocKey_record k docKey title date durationMs url clock db Hwf)).
  destruct (decide (docKey = k)); simpl.
  - rewrite sum_durations_cons. simpl. lia.
  - lia.
Qed.

Lemma aggregate_record
    (k docKey title date : string) (durationMs : Z) (url : string) (clock : Z) (db : DB) :
  wf db →
  aggregate k (IndexedDBManager.recordSession docKey title date durationMs url clock db)
  = aggregate k db + (if decide (docKey = k) then durationMs else 0).
Proof.
  intros Hwf. unfold aggregate.
  destruct (decide (docKey = k)) as [->|Hne].
  - pose proof (recordSession_total k title date durationMs url clock db Hwf) as Ht.
    destruct (documents (IndexedDBManager.recordSession _ _ _ _ _ _ _) !! k); [|done].
    simpl in *. by injection Ht.
  - assert (documents (IndexedDBManager.recordSession docKey title date durationMs url clock db)
              !! k = documents db !! k) as ->; [|lia].
    simpl. destruct Hwf as [_ Hd].
    destruct (documents db !! docKey) as [r|] eqn:Hr; simpl.
    + rewrite (Hd _ _ Hr). by apply lookup_insert_ne.
    + by apply lookup_insert_ne.
Qed.

Lemma ledger_deleteDocument (k docKey : string) (db : DB) :
  ledger k (Dashboard.deleteDocument true docKey db)
  = if decide (docKey = k) then 0 else ledger k db.
Proof.
  unfold ledger. destruct (decide (docKey = k)) as [->|Hne].
  - assert (getSessionsByDocKey k (Dashboard.deleteDocument true k db) = []) as ->; [|done].
    apply elem_of_nil_inv. intros [i r] [Hk Hin]%list_elem_of_filter.
    apply elem_of_map_to_list in Hin. rewrite lookup_deleteDocument in Hin.
    destruct (sessions db !! i) as [r'|]; [|done].
    case_decide; [done|]. injection Hin as ->. done.
  - apply sum_durations_Permutation, getSessionsByDocKey_Permutation.
    intros id s Hs. rewrite lookup_deleteDocument.
    destruct (sessions db !! id) as [s'|]; [|done].
    case_decide as Hk; [|done]. split; [done|]. intros [= ->]. congruence.
Qed.

Lemma aggregate_deleteDocument (k docKey : string) (db : DB) :
  aggregate k (Dashboard.deleteDocument true docKey db)
  = if decide (docKey = k) then 0 else aggregate k db.
Proof.
  unfold aggregate. simpl. destruct (decide (docKey = k)) as [->|Hne].
  - by rewrite lookup_delete_eq.
  - by rewrite lookup_delete_ne.
Qed.

Lemma ledger_deleteOldSessions (k cutoff : string) (db : DB) :
  nonnegative db → ledger k (deleteOldSessions cutoff db) ≤ ledger k db.
Proof.
  intros Hpos. unfold ledger, getSessionsByDocKey. apply sum_durations_submseteq.
  - apply Forall_forall. intros [id s] [_ Hin%elem_of_map_to_list]%list_elem_of_filter.
    by apply (Hpos id s).
  - apply NoDup_submseteq; [apply NoDup_filter, NoDup_map_to_list|].
    intros [id s]. rewrite !list_elem_of_filter, !elem_of_map_to_list.
    intros [Hk Hs]. split; [done|].
    rewrite lookup_deleteOldSessions in Hs.
    destruct (sessions db !! id) as [s'|]; [|done]. by case_decide.
Qed.

Lemma step_wf (op : Op) (db : DB) : wf db → wf (step db op).
Proof.
  destruct op; simpl step.
  - apply recordSession_wf.
  - apply deleteOldSessions_wf.
  - apply (deleteDocument_wf true).
Qed.

Lemma run_wf (ops : list Op) (db : DB) : wf db → wf (run ops db).
Proof.
  unfold run. revert db. induction ops as [|op ops IH]; intros db Hwf; [done|].
  simpl. by apply IH, step_wf.
Qed.

Lemma step_nonnegative (op : Op) (db : DB) :
  wf db → records_nonnegative op = true → nonnegative db → nonnegative (step db op).
Proof.
  intros Hwf Hop Hpos. destruct op; simpl step; simpl in Hop.
  - apply map_Forall_insert_2; [simpl; lia | done].
  - intros id s Hs. rewrite lookup_deleteOldSessions in Hs.
    destruct (sessions db !! id) as [s'|] eqn:E; [|done].
    case_decide; [done|]. injection Hs as <-. by apply (Hpos id s').
  - intros id s Hs. rewrite lookup_deleteDocument in Hs.
    destruct (sessions db !! id) as [s'|] eqn:E; [|done].
    case_decide; [done|]. injection Hs as <-. by apply (Hpos id s').
Qed.

(** X2: over any history of recordings and document deletions (no
    sweep), every document's [totalTimeMs] stays equal to the sum of the
    durations of its stored sessions (0 and no sessions for a document
    that is not there). *)
Theorem aggregate_equals_ledger (ops : list Op) (db : DB) :
  wf db →
  (∀ k, aggregate k db = ledger k db) →
  forallb (negb ∘ is_sweep) ops = true →
  ∀ k, aggregate k (run ops db) = ledger k (run ops db).
Proof.
  unfold run. revert db.
  induction ops as [|op ops IH]; intros db Hwf Hdb Hops k; [apply Hdb|].
  simpl in Hops. apply andb_true_iff in Hops as [Hop Hops].
  simpl. apply IH; [by apply step_wf| |done].
  intros k'. destruct op; simpl step; [| done |].
  - rewrite aggregate_record, ledger_record by done. by rewrite Hdb.
  - rewrite aggregate_deleteDocument, ledger_deleteDocument. by rewrite Hdb.
Qed.

Lemma ledger_init (k : string) : aggregate k init = 0 ∧ ledger k init = 0.
Proof. split; reflexivity. Qed.

Lemma aggregate_equals_ledger_witness :
  aggregate "gdoc_abc" (run (filter (λ op, negb (is_sweep op)) history) init)
  = ledger "gdoc_abc" (run (filter (λ op, negb (is_sweep op)) history) init).
Proof.
  apply (aggregate_equals_ledger (filter (λ op, negb (is_sweep op)) history) init).
  - apply wf_init.
  - intros k. reflexivity.
  - reflexivity.
Defined.

(** X3: over any history, sweeps included, in which no negative
    duration is recorded, the sessions left for a document never add up
    to more than its [totalTimeMs]: a sweep can only make the record
    exceed the ledger. *)
Theorem ledger_at_most_aggregate (ops : list Op) (db : DB) :
  wf db →
  nonnegative db →
  (∀ k, ledger k db ≤ aggregate k db) →
  forallb records_nonnegative ops = true →
  ∀ k, ledger k (run ops db) ≤ aggregate k (run ops db).
Proof.
  unfold run. revert db.
  induction ops as [|op ops IH]; intros db Hwf Hpos Hdb Hops k; [apply Hdb|].
  simpl in Hops. apply andb_true_iff in Hops as [Hop Hops].
  simpl. apply IH; [by apply step_wf | by apply step_nonnegative | | done].
  intros k'. destruct op; simpl step.
  - rewrite aggregate_record, ledger_record by done. specialize (Hdb k'). lia.
  - etrans; [by apply ledger_deleteOldSessions|]. apply Hdb.
  - rewrite aggregate_deleteDocument, ledger_deleteDocument.
    case_decide; [done | apply Hdb].
Qed.

Lemma ledger_at_most_aggregate_witness :
  ledger "gdoc_abc" (run history init) ≤ aggregate "gdoc_abc" (run history init).
Proof.
  apply (ledger_at_most_aggregate history init).
  - apply wf_init.
  - apply map_Forall_empty.
  - intros k. reflexivity.
  - reflexivity.
Defined.

(** After the sweep the record of gdoc_abc counts 3000 ms, the ledger 2000. *)
Example history_drift :
  aggregate "gdoc_abc" (run history init) = 3000
  ∧ ledger "gdoc_abc" (run history init) = 2000
  ∧ aggregate "domain_example.com" (run history init) = 1000
  ∧ ledger "domain_example.com" (run history init) = 1000.
Proof. by vm_compute. Qed.

(** ** Ids and records over a history *)

Lemma step_keeps_old_sessions (op : Op) (db : DB) (id : Z) (s : SessionRecord.t) :
  wf db → id < keyGenerator db →
  sessions (step db op) !! id = Some s → sessions db !! id = Some s.
Proof.
  intros Hwf Hid. destruct op; simpl step.
  - simpl. rewrite lookup_insert_ne by lia. done.
  - rewrite lookup_deleteOldSessions.
    destruct (sessions db !! id); [|done]. by case_decide.
  - rewrite lookup_deleteDocument.
    destruct (sessions db !! id); [|done]. by case_decide.
Qed.

Lemma step_keyGenerator (op : Op) (db : DB) :
  keyGenerator (step db op) = keyGenerator db + (if is_record op then 1 else 0).
Proof. destruct op; simpl; lia. Qed.

(** X4: over any history the key generator counts the recordings;
    every stored session has an id below it, and an id that was assigned
    before the history began holds, if anything, the session it held
    then: deletions never free an id for reuse. *)
Theorem ids_are_never_reused (ops : list Op) (db : DB) :
  wf db →
  keyGenerator (run ops db) = keyGenerator db + Z.of_nat (length (filter is_record ops))
  ∧ (∀ id s, sessions (run ops db) !! id = Some s → id < keyGenerator (run ops db))
  ∧ (∀ id s, id < keyGenerator db →
             sessions (run ops db) !! id = Some s → sessions db !! id = Some s).
Proof.
  unfold run. revert db. induction ops as [|op ops IH]; intros db Hwf.
  - simpl. split; [lia|]. split; [|done]. intros id s Hs. by apply (proj1 Hwf id s).
  - destruct (IH (step db op) (step_wf op db Hwf)) as (Hk & Hlt & Hold).
    pose proof (step_keyGenerator op db) as Hstep.
    simpl foldl. split.
    + rewrite Hk, Hstep. destruct (is_record op) eqn:E.
      * rewrite filter_cons_True by by rewrite E. simpl length. lia.
      * rewrite filter_cons_False by (rewrite E; exact id). lia.
    + split; [done|]. intros id s Hid Hs.
      apply (step_keeps_old_sessions op db id s Hwf Hid).
      apply Hold; [|done]. rewrite Hstep. destruct (is_record op); lia.
Qed.

Lemma ids_are_never_reused_witness :
  keyGenerator (run history init) = keyGenerator init + Z.of_nat (length (filter is_record history))
  ∧ (∀ id s, sessions (run history init) !! id = Some s → id < keyGenerator (run history init))
  ∧ (∀ id s, id < keyGenerator init →
             sessions (run history init) !! id = Some s → sessions init !! id = Some s).
Proof. apply (ids_are_never_reused history init), wf_init. Defined.

Lemma step_document (op : Op) (db : DB) (k : string) (r : DocumentRecord.t) :
  wf db → deletes k op = false → documents db !! k = Some r →
  ∃ r', documents (step db op) !! k = Some r'
        ∧ DocumentRecord.firstSeen r' = DocumentRecord.firstSeen r
        ∧ DocumentRecord.url r' = DocumentRecord.url r
        ∧ (records_nonnegative op = true →
           DocumentRecord.totalTimeMs r ≤ DocumentRecord.totalTimeMs r').
Proof.
  intros [_ Hd] Hop Hr. destruct op as [docKey title date durationMs url clock| |docKey];
    simpl step; simpl in Hop.
  - simpl. destruct (decide (docKey = k)) as [->|Hne].
    + rewrite Hr. simpl. rewrite (Hd _ _ Hr), lookup_insert_eq.
      eexists. split; [done|]. simpl. repeat split; try done. intros ?%Z.leb_le. lia.
    + exists r. split; [|by repeat split].
      destruct (documents db !! docKey) as [r0|] eqn:Hr0; simpl.
      * rewrite (Hd _ _ Hr0). by rewrite lookup_insert_ne.
      * by rewrite lookup_insert_ne.
  - exists r. by repeat split.
  - exists r. split; [|by repeat split]. simpl.
    apply bool_decide_eq_false in Hop. by rewrite lookup_delete_ne.
Qed.

(** X5: as long as a document is not deleted, recordings and sweeps
    keep its record in place with the [firstSeen] and the [url] it was
    created with ([recordSession] never updates the url), and, no
    duration being negative, its [totalTimeMs] never decreases. *)
Theorem document_keeps_firstSeen_and_url
    (ops : list Op) (db : DB) (docKey : string) (r : DocumentRecord.t) :
  wf db →
  documents db !! docKey = Some r →
  forallb (negb ∘ deletes docKey) ops = true →
  forallb records_nonnegative ops = true →
  ∃ r', documents (run ops db) !! docKey = Some r'
        ∧ DocumentRecord.firstSeen r' = DocumentRecord.firstSeen r
        ∧ DocumentRecord.url r' = DocumentRecord.url r
        ∧ DocumentRecord.totalTimeMs r ≤ DocumentRecord.totalTimeMs r'.
Proof.
  unfold run. revert db r.
  induction ops as [|op ops IH]; intros db r Hwf Hr Hdel Hpos.
  - exists r. by repeat split.
  - simpl in Hdel, Hpos.
    apply andb_true_iff in Hdel as [Hd1%negb_true_iff Hdel].
    apply andb_true_iff in Hpos as [Hp1 Hpos].
    destruct (step_document op db docKey r Hwf Hd1 Hr) as (r1 & Hr1 & Hf1 & Hu1 & Ht1).
    destruct (IH (step db op) r1 (step_wf op db Hwf) Hr1 Hdel Hpos) as (r' & Hr' & Hf & Hu & Ht).
    exists r'. split; [done|]. specialize (Ht1 Hp1).
    split; [congruence|]. split; [congruence | lia].
Qed.

Lemma document_keeps_firstSeen_and_url_witness :
  let r := {| DocumentRecord.docKey := "gdoc_abc"; DocumentRecord.title := "Notes";
              DocumentRecord.url := "https://docs.google.com/document/d/abc";
              DocumentRecord.firstSeen := "2024-01-02T00:00:00.000Z";
              DocumentRecord.lastSeen := "2024-01-02T00:00:00.000Z";
              DocumentRecord.totalTimeMs := 1000 |} in
  ∃ r', documents (run (tail history) (run (take 1 history) init)) !! "gdoc_abc" = Some r'
        ∧ DocumentRecord.firstSeen r' = DocumentRecord.firstSeen r
        ∧ DocumentRecord.url r' = DocumentRecord.url r
        ∧ DocumentRecord.totalTimeMs r ≤ DocumentRecord.totalTimeMs r'.
Proof.
  intros r.
  apply (document_keeps_firstSeen_and_url (tail history) (run (take 1 history) init)
           "gdoc_abc" r).
  - apply run_wf, wf_init.
  - reflexivity.
  - reflexivity.
  - reflexivity.
Defined.

(** ** Sweeps and deletions compose *)

(** X6: two sweeps commute, and together they are the sweep with the
    later of the two cutoffs. *)
Theorem deleteOldSessions_compose (earlier later : string) (db : DB) :
  String.le earlier later →
  deleteOldSessions later (deleteOldSessions earlier db) = deleteOldSessions later db
  ∧ deleteOldSessions earlier (deleteOldSessions later db)
    = deleteOldSessions later (deleteOldSessions earlier db).
Proof.
  intros Hle.
  assert (Hkeep : ∀ s : SessionRecord.t,
            ¬ String.le (SessionRecord.date s) later →
            ¬ String.le (SessionRecord.date s) earlier).
  { intros s Hl He. apply Hl. by etrans. }
  split; apply DB_eq; try done; apply map_eq; intros id;
    rewrite !lookup_deleteOldSessions;
    destruct (sessions db !! id) as [s|]; try done;
    destruct (decide (String.le (SessionRecord.date s) later)) as [Hl|Hl];
    destruct (decide (String.le (SessionRecord.date s) earlier)) as [He|He];
    try done;
    rewrite ?decide_True by done; rewrite ?decide_False by done; try done.
  all: exfalso; by apply (Hkeep s).
Qed.

Lemma deleteOldSessions_compose_witness :
  deleteOldSessions "2024-01-03" (deleteOldSessions "2024-01-01" two_sessions)
  = deleteOldSessions "2024-01-03" two_sessions
  ∧ deleteOldSessions "2024-01-01" (deleteOldSessions "2024-01-03" two_sessions)
    = deleteOldSessions "2024-01-03" (deleteOldSessions "2024-01-01" two_sessions).
Proof.
  apply (deleteOldSessions_compose "2024-01-01" "2024-01-03" two_sessions).
  vm_compute. exact I.
Defined.

(** X7: deleting a document twice is deleting it once. *)
Theorem deleteDocument_idempotent (docKey : string) (db : DB) :
  Dashboard.deleteDocument true docKey (Dashboard.deleteDocument true docKey db)
  = Dashboard.deleteDocument true docKey db.
Proof.
  apply DB_eq; [|apply map_eq; intros id|done].
  - simpl. apply map_eq. intros k. destruct (decide (k = docKey)) as [->|Hne].
    + by rewrite !lookup_delete_eq.
    + by rewrite !lookup_delete_ne.
  - rewrite !lookup_deleteDocument.
    destruct (sessions db !! id) as [s|]; [|done].
    case_decide; [done|]. by rewrite decide_False.
Qed.

(** X8: deleting a document that has neither a record nor sessions
    leaves the database as it is. *)
Theorem deleteDocument_absent (docKey : string) (db : DB) :
  documents db !! docKey = None →
  getSessionsByDocKey docKey db = [] →
  Dashboard.deleteDocument true docKey db = db.
Proof.
  intros Hdoc Hses. apply DB_eq; [|apply map_eq; intros id|done].
  - simpl. by apply delete_id.
  - rewrite lookup_deleteDocument.
    destruct (sessions db !! id) as [s|] eqn:Hs; [|done].
    case_decide as Hk; [|done]. exfalso.
    assert (Hin : (id, s) ∈ getSessionsByDocKey docKey db).
    { apply list_elem_of_filter. split; [done | by apply elem_of_map_to_list]. }
    rewrite Hses in Hin. by apply elem_of_nil in Hin.
Qed.

Lemma deleteDocument_absent_witness :
  Dashboard.deleteDocument true "domain_example.com" two_sessions = two_sessions.
Proof.
  apply (deleteDocument_absent "domain_example.com" two_sessions); reflexivity.
Defined.

(** X9: the deletion of a document commutes with a retention sweep and
    with the deletion of any other document. *)
Theorem deletions_commute (docKey other cutoff : string) (db : DB) :
  Dashboard.deleteDocument true docKey (deleteOldSessions cutoff db)
  = deleteOldSessions cutoff (Dashboard.deleteDocument true docKey db)
  ∧ Dashboard.deleteDocument true docKey (Dashboard.deleteDocument true other db)
    = Dashboard.deleteDocument true other (Dashboard.deleteDocument true docKey db).
Proof.
  split; apply DB_eq; try done.
  - apply map_eq. intros id.
    rewrite lookup_deleteDocument, !lookup_deleteOldSessions, lookup_deleteDocument.
    destruct (sessions db !! id) as [s|]; [|done].
    repeat case_decide; done.
  - simpl. apply delete_delete.
  - apply map_eq. intros id. rewrite !lookup_deleteDocument.
    destruct (sessions db !! id) as [s|]; [|done].
    repeat case_decide; done.
Qed.

(** X10: a recording that follows the deletion of its document
    starts over: the record is new ([firstSeen] is the clock, the total
    is the one duration) and the document has exactly that one session,
    under a fresh id. *)
Theorem recordSession_after_deleteDocument
    (docKey title date : string) (durationMs : Z) (url : string) (clock : Z) (db : DB) :
  wf db →
  let db' := IndexedDBManager.recordSession docKey title date durationMs url clock
               (Dashboard.deleteDocument true docKey db) in
  getDocumentStats docKey db'
  = Some {| DocumentRecord.docKey := docKey; DocumentRecord.title := title;
            DocumentRecord.url := url;
            DocumentRecord.firstSeen := Date.iso clock;
            DocumentRecord.lastSeen := Date.iso clock;
            DocumentRecord.totalTimeMs := durationMs |}
  ∧ getSessionsByDocKey docKey db'
    = [(keyGenerator db,
        {| SessionRecord.docKey := docKey; SessionRecord.date := date;
           SessionRecord.durationMs := durationMs;
           SessionRecord.timestamp := Date.iso clock |})].
Proof.
  intros Hwf db'.
  pose proof (deleteDocument_wf true docKey db Hwf) as Hwf'.
  split.
  - unfold db', getDocumentStats. simpl. rewrite lookup_delete_eq. simpl.
    by rewrite lookup_insert_eq.
  - pose proof (getSessionsByDocKey_record docKey docKey title date durationMs url clock
                  _ Hwf') as Hp.
    fold db' in Hp. rewrite decide_True in Hp by done.
    assert (getSessionsByDocKey docKey (Dashboard.deleteDocument true docKey db) = []) as He.
    { apply elem_of_nil_inv. intros [i r] [Hk Hin]%list_elem_of_filter.
      apply elem_of_map_to_list in Hin. rewrite lookup_deleteDocument in Hin.
      destruct (sessions db !! i) as [r'|]; [|done].
      case_decide; [done|]. injection Hin as ->. done. }
    rewrite He in Hp. simpl in Hp.
    by apply Permutation_singleton_r in Hp.
Qed.

Lemma recordSession_after_deleteDocument_witness :
  let db' := IndexedDBManager.recordSession "gdoc_abc" "Notes" "2024-02-01" 1000
               "https://docs.google.com/document/d/abc" 1706745600000
               (Dashboard.deleteDocument true "gdoc_abc" two_sessions) in
  getDocumentStats "gdoc_abc" db'
  = Some {| DocumentRecord.docKey := "gdoc_abc"; DocumentRecord.title := "Notes";
            DocumentRecord.url := "https://docs.google.com/document/d/abc";
            DocumentRecord.firstSeen := Date.iso 1706745600000;
            DocumentRecord.lastSeen := Date.iso 1706745600000;
            DocumentRecord.totalTimeMs := 1000 |}
  ∧ getSessionsByDocKey "gdoc_abc" db'
    = [(keyGenerator two_sessions,
        {| SessionRecord.docKey := "gdoc_abc"; SessionRecord.date := "2024-02-01";
           SessionRecord.durationMs := 1000;
           SessionRecord.timestamp := Date.iso 1706745600000 |})].
Proof.
  apply (recordSession_after_deleteDocument "gdoc_abc" "Notes" "2024-02-01" 1000
           "https://docs.google.com/document/d/abc" 1706745600000 two_sessions).
  do 2 apply recordSession_wf. apply wf_init.
Defined.

(** ** Range queries *)

(** What a range query finds, and when it is refused. *)
Lemma getSessionsByDateRange_spec (startDate endDate : string) (db : DB) :
  match getSessionsByDateRange startDate endDate db with
  | Some found =>
      String.le startDate endDate
      ∧ NoDup found
      ∧ ∀ id s, (id, s) ∈ found
                ↔ sessions db !! id = Some s
                  ∧ String.le startDate (SessionRecord.date s)
                  ∧ String.le (SessionRecord.date s) endDate
  | None => ¬ String.le startDate endDate
  end.
Proof.
  unfold getSessionsByDateRange. case_decide as Hle; [|done].
  split; [done|]. split; [apply NoDup_filter, NoDup_map_to_list|].
  intros id s. rewrite list_elem_of_filter, elem_of_map_to_list. simpl. tauto.
Qed.

(** X11: after a sweep with some cutoff, a range query that ends at
    that cutoff finds nothing. *)
Theorem getSessionsByDateRange_after_sweep (startDate cutoff : string) (db : DB) :
  String.le startDate cutoff →
  getSessionsByDateRange startDate cutoff (deleteOldSessions cutoff db) = Some [].
Proof.
  intros Hle. unfold getSessionsByDateRange. rewrite decide_True by done. f_equal.
  apply elem_of_nil_inv. intros [id s] [[_ Hc] Hin%elem_of_map_to_list]%list_elem_of_filter.
  rewrite lookup_deleteOldSessions in Hin.
  destruct (sessions db !! id) as [s'|]; [|done].
  case_decide; [done|]. injection Hin as ->. done.
Qed.

Lemma getSessionsByDateRange_after_sweep_witness :
  getSessionsByDateRange "2024-01-01" "2024-01-03" (deleteOldSessions "2024-01-03" two_sessions)
  = Some [].
Proof.
  apply (getSessionsByDateRange_after_sweep "2024-01-01" "2024-01-03" two_sessions).
  vm_compute. exact I.
Defined.

Example getSessionsByDateRange_inverted :
  getSessionsByDateRange "2024-01-05" "2024-01-02" two_sessions = None
  ∧ getSessionsByDateRange "2024-01-02" "2024-01-04" two_sessions
    = Some [(1, {| SessionRecord.docKey := "gdoc_abc"; SessionRecord.date := "2024-01-02";
                   SessionRecord.durationMs := 1000;
                   SessionRecord.timestamp := "2024-01-02T00:00:00.000Z" |})].
Proof. by vm_compute. Qed.

(** ** Breakdowns *)

Lemma bucket_total_add (breakdown : gmap string Z) (key : string) (d : Z) :
  bucket_total (<[key := default 0 (breakdown !! key) + d]> breakdown)
  = bucket_total breakdown + d.
Proof.
  unfold bucket_total.
  assert (Hcomm : ∀ (m : gmap string Z) (j1 j2 : string) (z1 z2 y : Z),
            j1 ≠ j2 → m !! j1 = Some z1 → m !! j2 = Some z2 →
            z1 + (z2 + y) = z2 + (z1 + y)) by (intros; lia).
  destruct (breakdown !! key) as [v|] eqn:Hv; simpl.
  - rewrite <- (insert_delete_eq breakdown key (v + d)).
    rewrite map_fold_insert_L; [|by eapply Hcomm | apply lookup_delete_eq].
    rewrite (map_fold_delete_L _ _ key v breakdown); [lia | by eapply Hcomm | done].
  - rewrite map_fold_insert_L; [lia | by eapply Hcomm | done].
Qed.

Lemma bucket_plain (tza : Z) (period date : string) :
  period ≠ "week" → bucket tza period date = JS.Ok (plain_bucket period date).
Proof.
  intros Hp%String.eqb_neq. unfold bucket, plain_bucket. rewrite Hp.
  by destruct (String.eqb period "month").
Qed.

(** For a period other than the week no bucket key can fail, and the
    fold is a fold of maps. *)
Lemma getTimeBreakdown_plain (tza : Z) (docKey period : string) (db : DB) :
  period ≠ "week" →
  getTimeBreakdown tza docKey period db
  = JS.Ok (foldl (λ breakdown kv,
                    let key := plain_bucket period (SessionRecord.date kv.2) in
                    <[key := default 0 (breakdown !! key) + SessionRecord.durationMs kv.2]>
                      breakdown)
                 ∅ (getSessionsByDocKey docKey db)).
Proof.
  intros Hp. unfold getTimeBreakdown.
  change (mret ∅ : JS.result (gmap string Z)) with (JS.Ok (∅ : gmap string Z)).
  generalize (∅ : gmap string Z) as b0.
  induction (getSessionsByDocKey docKey db) as [|kv l IH]; intros b0; [done|].
  cbn [foldl]. rewrite (bucket_plain tza period _ Hp). exact (IH _).
Qed.

Lemma breakdown_fold_lookup (f : string → string) (l : list (Z * SessionRecord.t))
    (b0 : gmap string Z) (key : string) :
  foldl (λ breakdown kv,
           let key := f (SessionRecord.date kv.2) in
           <[key := default 0 (breakdown !! key) + SessionRecord.durationMs kv.2]> breakdown)
        b0 l !! key
  = match filter (λ kv, f (SessionRecord.date kv.2) = key) l with
    | [] => b0 !! key
    | found => Some (default 0 (b0 !! key) + sum_durations found)
    end.
Proof.
  revert b0. induction l as [|kv l IH]; intros b0; [done|].
  simpl foldl. rewrite IH. rewrite filter_cons.
  destruct (decide (f (SessionRecord.date kv.2) = key)) as [<-|Hne].
  - rewrite lookup_insert_eq. simpl default.
    destruct (filter _ l) as [|kv' found] eqn:Hf.
    + f_equal. rewrite sum_durations_cons. unfold sum_durations. simpl. lia.
    + f_equal. rewrite !sum_durations_cons. lia.
  - rewrite lookup_insert_ne by done. done.
Qed.

Lemma breakdown_fold_total (f : string → string) (l : list (Z * SessionRecord.t))
    (b0 : gmap string Z) :
  bucket_total
    (foldl (λ breakdown kv,
              let key := f (SessionRecord.date kv.2) in
              <[key := default 0 (breakdown !! key) + SessionRecord.durationMs kv.2]> breakdown)
           b0 l)
  = bucket_total b0 + sum_durations l.
Proof.
  revert b0. induction l as [|kv l IH]; intros b0.
  - unfold sum_durations. simpl. lia.
  - simpl foldl. rewrite IH, bucket_total_add, sum_durations_cons. lia.
Qed.

(** X12: for a period other than the week and a document whose
    sessions have dates that begin with a digit, [getTimeBreakdown] never
    fails; a bucket exists exactly when a session of the document falls
    into it (its date for the day, the first seven characters of its date
    for the month) and holds the sum of those sessions' durations; the
    buckets together add up to the sum of all the document's sessions. *)
Theorem getTimeBreakdown_buckets (tza : Z) (docKey period : string) (db : DB) :
  period ≠ "week" →
  dated docKey db = true →
  ∃ breakdown,
    getTimeBreakdown tza docKey period db = JS.Ok breakdown
    ∧ (∀ key, breakdown !! key
              = match in_bucket period key docKey db with
                | [] => None
                | found => Some (sum_durations found)
                end)
    ∧ bucket_total breakdown = ledger docKey db.
Proof.
  intros Hp _. eexists. split; [by apply getTimeBreakdown_plain|]. split.
  - intros key. rewrite (breakdown_fold_lookup (plain_bucket period)).
    unfold in_bucket. destruct (filter _ _); [done|].
    by rewrite lookup_empty.
  - rewrite (breakdown_fold_total (plain_bucket period)). unfold ledger.
    unfold bucket_total. rewrite map_fold_empty. lia.
Qed.

Lemma getTimeBreakdown_buckets_witness :
  ∃ breakdown,
    getTimeBreakdown west "gdoc_abc" "month" two_sessions = JS.Ok breakdown
    ∧ (∀ key, breakdown !! key
              = match in_bucket "month" key "gdoc_abc" two_sessions with
                | [] => None
                | found => Some (sum_durations found)
                end)
    ∧ bucket_total breakdown = ledger "gdoc_abc" two_sessions.
Proof.
  apply (getTimeBreakdown_buckets west "gdoc_abc" "month" two_sessions);
    [discriminate | reflexivity].
Defined.

Example month_breakdown :
  getTimeBreakdown west "gdoc_abc" "month" two_sessions = JS.Ok {[ "2024-01" := 2000 ]}
  ∧ getTimeBreakdown west "gdoc_abc" "day" two_sessions
    = JS.Ok {[ "2024-01-02" := 1000; "2024-01-05" := 1000 ]}
  ∧ getTimeBreakdown west "nobody" "week" two_sessions = JS.Ok ∅.
Proof. by vm_compute. Qed.

Lemma getWeekKey_invalid (tza : Z) (dateString : string) :
  Date.parse dateString = None → getWeekKey tza dateString = JS.Throw JS.RangeError.
Proof. intros H. unfold getWeekKey. by rewrite H. Qed.

Lemma breakdown_fold_throw (tza : Z) (period : string) (l : list (Z * SessionRecord.t))
    (e : JS.Error) :
  foldl (λ (acc : JS.result (gmap string Z)) kv,
           breakdown ← acc;
           key ← bucket tza period (SessionRecord.date kv.2);
           mret (<[key := default 0 (breakdown !! key) + SessionRecord.durationMs kv.2]>
                   breakdown))
        (JS.Throw e) l
  = JS.Throw e.
Proof. induction l as [|kv l IH]; [done | apply IH]. Qed.

Lemma bucket_week_error (tza : Z) (date : string) (e : JS.Error) :
  bucket tza "week" date = JS.Throw e → e = JS.RangeError.
Proof.
  unfold bucket, getWeekKey. simpl.
  destruct (Date.setDate _ _ _); simpl; [done|]. by intros [= <-].
Qed.

(** X13: one session whose date has the shape [YYYY-MM-DD] but a
    month or a day out of range makes the whole week breakdown of its
    document fail with a RangeError, whatever the other sessions are. *)
Theorem getTimeBreakdown_week_invalid_date
    (tza : Z) (docKey : string) (db : DB) (id : Z) (s : SessionRecord.t) :
  sessions db !! id = Some s →
  SessionRecord.docKey s = docKey →
  date_only (SessionRecord.date s) = true →
  Date.parse (SessionRecord.date s) = None →
  getTimeBreakdown tza docKey "week" db = JS.Throw JS.RangeError.
Proof.
  intros Hs Hk _ Hbad. unfold getTimeBreakdown.
  assert (Hin : (id, s) ∈ getSessionsByDocKey docKey db).
  { apply list_elem_of_filter. split; [done | by apply elem_of_map_to_list]. }
  change (mret ∅ : JS.result (gmap string Z)) with (JS.Ok (∅ : gmap string Z)).
  generalize (∅ : gmap string Z) as b0.
  induction (getSessionsByDocKey docKey db) as [|kv l IH]; intros b0.
  - by apply elem_of_nil in Hin.
  - apply elem_of_cons in Hin as [<-|Hin].
    + simpl. unfold bucket at 2. simpl. rewrite (getWeekKey_invalid tza _ Hbad). simpl.
      apply breakdown_fold_throw.
    + simpl. destruct (bucket tza "week" (SessionRecord.date kv.2)) as [key|e] eqn:Hb; simpl.
      * by apply IH.
      * rewrite (bucket_week_error tza _ e Hb). apply breakdown_fold_throw.
Qed.

(** X14: for a tab with a title, the time the popup shows for today
    is the sum of the durations of the sessions that the tab's key (the
    popup's own) has on the UTC day of the clock; the popup's
    [getTimeBreakdown] is the day breakdown whatever period it is asked
    for. *)
Theorem popup_todayTime (currentTab : Tab.t) (docKey : string) (clock : Z) (db : DB) :
  Tab.title currentTab ≠ "" →
  Popup.generateDocKey currentTab = JS.Ok docKey →
  Popup.todayTime (Some currentTab) clock db
  = JS.Ok (Some (sum_durations
                   (filter (λ kv, SessionRecord.date kv.2
                                  = JS.split_head "T" (Date.iso clock))
                           (getSessionsByDocKey docKey db))))
  ∧ ∀ tza period,
      JS.Ok (Popup.getTimeBreakdown docKey period db) = getTimeBreakdown tza docKey "day" db.
Proof.
  intros Ht%String.eqb_neq Hk. split.
  - unfold Popup.todayTime. rewrite Ht, Hk. simpl. do 2 f_equal.
    unfold Popup.getTimeBreakdown.
    rewrite (breakdown_fold_lookup (λ d, d)).
    destruct (filter _ _); [done|]. rewrite lookup_empty. simpl. lia.
  - intros tza period. by rewrite getTimeBreakdown_plain.
Qed.

Lemma popup_todayTime_witness :
  Popup.todayTime (Some tab_two) 1704153600000 (db (ticks 12 tab_two 1704153600000 idle))
  = JS.Ok (Some (sum_durations
                   (filter (λ kv, SessionRecord.date kv.2
                                  = JS.split_head "T" (Date.iso 1704153600000))
                           (getSessionsByDocKey "gdoc_XYZ123"
                              (db (ticks 12 tab_two 1704153600000 idle))))))
  ∧ ∀ tza period,
      JS.Ok (Popup.getTimeBreakdown "gdoc_XYZ123" period
               (db (ticks 12 tab_two 1704153600000 idle)))
      = getTimeBreakdown tza "gdoc_XYZ123" "day" (db (ticks 12 tab_two 1704153600000 idle)).
Proof.
  apply (popup_todayTime tab_two "gdoc_XYZ123" 1704153600000); [discriminate | reflexivity].
Defined.

Example popup_today :
  Popup.todayTime (Some tab_two) 1704153600000 (db (ticks 12 tab_two 1704153600000 idle))
  = JS.Ok (Some 3000)
  ∧ Popup.todayTime (Some malformed_tab) 0 init = JS.Throw JS.TypeError
  ∧ Popup.todayTime None 0 init = JS.Ok None.
Proof. by vm_compute. Qed.

(** * Further properties of the worker *)

(** ** Seconds on one tab *)

Lemma accumulated_tick (activeTab : Tab.t) (clock : Z) (st : State) :
  Tab.id activeTab ≠ 0 → Tab.title activeTab ≠ "" →
  internal_page (Tab.url activeTab) = false →
  accumulated (Tab.id activeTab) (trackActiveTab (Some activeTab) clock st)
  = accumulated (Tab.id activeTab) st + 1.
Proof.
  intros Hid Ht Hi.
  destruct (trackActiveTab_tick activeTab clock st Hid Ht Hi) as (Hs & _ & _).
  unfold accumulated.
  destruct (tabAccumulatedTime (trackActiveTab (Some activeTab) clock st) !! Tab.id activeTab);
    simpl in *; [by injection Hs | done].
Qed.

Lemma recorded_ticks_S (before : Z) (n : nat) :
  recorded_ticks before (S n)
  = (if decide (before + 1 < MIN_RECORD_SECONDS) then 0 else 1)
    + recorded_ticks (before + 1) n.
Proof. unfold recorded_ticks, MIN_RECORD_SECONDS. case_decide; lia. Qed.

Lemma recorded_ticks_nonneg (before : Z) (n : nat) : 0 ≤ recorded_ticks before n.
Proof. unfold recorded_ticks. lia. Qed.

(** X15: [n] consecutive ticks on one trackable tab add [n] seconds to
    its accumulator but record only the ticks from the tenth accumulated
    second on, 1000 ms each: from an empty accumulator, [n - 9] sessions
    and [1000 * (n - 9)] ms for [n >= 9]. *)
Theorem ticks_undercount (activeTab : Tab.t) (docKey : string) (n : nat) (clock : Z)
    (st : State) :
  Tab.id activeTab ≠ 0 →
  Tab.title activeTab ≠ "" →
  internal_page (Tab.url activeTab) = false →
  generateDocKey activeTab = JS.Ok docKey →
  wf (db st) →
  let before := accumulated (Tab.id activeTab) st in
  let st' := ticks n activeTab clock st in
  accumulated (Tab.id activeTab) st' = before + Z.of_nat n
  ∧ aggregate docKey (db st')
    = aggregate docKey (db st) + 1000 * recorded_ticks before n
  ∧ length (getSessionsByDocKey docKey (db st'))
    = (length (getSessionsByDocKey docKey (db st)) + Z.to_nat (recorded_ticks before n))%nat.
Proof.
  intros Hid Ht Hi Hk. revert clock st.
  induction n as [|n IH]; intros clock st Hwf before st'.
  - unfold st', before, recorded_ticks. simpl. split; [lia|]. split; [lia|].
    replace (Z.to_nat _) with 0%nat by lia. lia.
  - set (st1 := trackActiveTab (Some activeTab) clock st).
    assert (Hwf1 : wf (db st1)) by by apply trackActiveTab_wf.
    assert (Hacc1 : accumulated (Tab.id activeTab) st1 = before + 1)
      by by apply accumulated_tick.
    destruct (IH (clock + CHECK_INTERVAL_MS) st1 Hwf1) as (Hs & Ha & Hl).
    destruct (trackActiveTab_tick activeTab clock st Hid Ht Hi) as (_ & _ & Hdb).
    fold st1 in Hdb. fold (accumulated (Tab.id activeTab) st) in Hdb. fold before in Hdb.
    rewrite Hk in Hdb.
    change st' with (ticks n activeTab (clock + CHECK_INTERVAL_MS) st1).
    rewrite Hacc1 in Hs, Ha, Hl. rewrite recorded_ticks_S.
    pose proof (recorded_ticks_nonneg (before + 1) n) as Hnn.
    split; [lia|]. rewrite Ha, Hl, Hdb.
    case_decide.
    + split; [lia|]. lia.
    + rewrite aggregate_record by done. rewrite recordSession_sessions by done.
      rewrite decide_True by done. split; [lia|]. lia.
Qed.

Lemma ticks_undercount_witness :
  let before := accumulated (Tab.id tab_two) idle in
  let st' := ticks 25 tab_two 1704153600000 idle in
  accumulated (Tab.id tab_two) st' = before + Z.of_nat 25
  ∧ aggregate "gdoc_XYZ123" (db st')
    = aggregate "gdoc_XYZ123" (db idle) + 1000 * recorded_ticks before 25
  ∧ length (getSessionsByDocKey "gdoc_XYZ123" (db st'))
    = (length (getSessionsByDocKey "gdoc_XYZ123" (db idle))
       + Z.to_nat (recorded_ticks before 25))%nat.
Proof.
  apply (ticks_undercount tab_two "gdoc_XYZ123" 25 1704153600000 idle).
  - simpl. lia.
  - discriminate.
  - reflexivity.
  - reflexivity.
  - apply wf_init.
Defined.

(** Twenty-five seconds of use are recorded as sixteen. *)
Example twenty_five_seconds :
  recorded_ticks 0 25 = 16
  ∧ aggregate "gdoc_XYZ123" (db (ticks 25 tab_two 1704153600000 idle)) = 16000.
Proof. by vm_compute. Qed.

(** ** Below the threshold *)

Lemma trackActiveTab_guards (activeTab : Tab.t) (clock : Z) (st : State) :
  trackActiveTab (Some activeTab) clock st = st
  ∨ (Tab.id activeTab ≠ 0 ∧ Tab.title activeTab ≠ ""
     ∧ internal_page (Tab.url activeTab) = false).
Proof.
  destruct (decide (Tab.id activeTab = 0)) as [H|Hid];
    [left; apply trackActiveTab_skips; auto|].
  destruct (decide (Tab.title activeTab = "")) as [H|Ht];
    [left; apply trackActiveTab_skips; auto|].
  destruct (internal_page (Tab.url activeTab)) eqn:Hi;
    [left; apply trackActiveTab_skips; auto|].
  by right.
Qed.

Lemma ticks_quiet (activeTab : Tab.t) (n : nat) (clock : Z) (st : State) :
  accumulated (Tab.id activeTab) st + Z.of_nat n < MIN_RECORD_SECONDS →
  db (ticks n activeTab clock st) = db st.
Proof.
  revert clock st. induction n as [|n IH]; intros clock st Hlt; [done|].
  change (ticks (S n) activeTab clock st)
    with (ticks n activeTab (clock + CHECK_INTERVAL_MS)
            (trackActiveTab (Some activeTab) clock st)).
  destruct (trackActiveTab_guards activeTab clock st) as [->|(Hid & Ht & Hi)].
  - apply IH. lia.
  - rewrite IH.
    + destruct (trackActiveTab_tick activeTab clock st Hid Ht Hi) as (_ & _ & ->).
      fold (accumulated (Tab.id activeTab) st). rewrite decide_True; [done|lia].
    + rewrite accumulated_tick by done. lia.
Qed.

(** X16: a user who never stays on a tab for ten ticks is never
    recorded: over any sequence of visits, each a tab-activated event
    followed by fewer than ten ticks on one tab, the database stays as
    it was, however long the sequence and whichever tabs come back. *)
Theorem switching_tabs_discards_time (visits : list Visit) (st : State) :
  forallb (λ v, visit_ticks v <? 10)%nat visits = true →
  db (browse visits st) = db st.
Proof.
  unfold browse. revert st. induction visits as [|v visits IH]; intros st Hv; [done|].
  apply andb_true_iff in Hv as [Hn%Nat.ltb_lt Hv].
  simpl. rewrite IH by done. unfold visit.
  rewrite ticks_quiet; [done|].
  unfold accumulated, onActivated, MIN_RECORD_SECONDS. simpl.
  rewrite lookup_empty. simpl. lia.
Qed.

Lemma switching_tabs_discards_time_witness :
  db (browse restless two_accumulators) = db two_accumulators.
Proof. apply (switching_tabs_discards_time restless two_accumulators). reflexivity. Defined.

Example restless_and_patient :
  sessions (db (browse restless idle)) = ∅
  ∧ aggregate "domain_example.com" (db (ticks 36 tab_one 1704153600000 idle)) = 27000.
Proof. by vm_compute. Qed.

(** X17: a tab without id or title, or on a browser-internal page,
    leaves the worker's state untouched for any number of ticks. *)
Theorem untracked_tabs_never_accumulate (activeTab : Tab.t) (n : nat) (clock : Z) (st : State) :
  Tab.id activeTab = 0 ∨ Tab.title activeTab = "" ∨ internal_page (Tab.url activeTab) = true →
  ticks n activeTab clock st = st.
Proof.
  intros H. revert clock st. induction n as [|n IH]; intros clock st; [done|].
  change (ticks (S n) activeTab clock st)
    with (ticks n activeTab (clock + CHECK_INTERVAL_MS)
            (trackActiveTab (Some activeTab) clock st)).
  rewrite trackActiveTab_skips by done. apply IH.
Qed.

Lemma untracked_tabs_never_accumulate_witness :
  ticks 30 {| Tab.id := 9; Tab.url := "chrome://extensions"; Tab.title := "Extensions" |}
    1704153600000 two_accumulators
  = two_accumulators.
Proof.
  apply (untracked_tabs_never_accumulate
           {| Tab.id := 9; Tab.url := "chrome://extensions"; Tab.title := "Extensions" |}
           30 1704153600000 two_accumulators).
  right. right. reflexivity.
Defined.

(** ** The cleanup *)

Lemma cleanupOldData_cutoff (tza clock : Z) (db : DB) :
  cleanupOldData tza clock db
  = match Date.TimeClip (clock - DATA_RETENTION_DAYS * Date.msPerDay) with
    | Some t => deleteOldSessions (JS.split_head "T" (Date.iso t)) db
    | None => db
    end.
Proof.
  unfold cleanupOldData.
  change (Date.getDate tza (Some clock) ≫= λ d, Some (d - DATA_RETENTION_DAYS))
    with (Some (Date.DateFromTime (Date.LocalTime tza clock) - DATA_RETENTION_DAYS)).
  rewrite setDate_back. by destruct (Date.TimeClip _).
Qed.

(** X18: in a time zone with a fixed offset, whatever the offset,
    [cleanupOldData] is the sweep whose cutoff is the UTC day of the
    instant 60 times 24 hours before the clock (as long as that instant
    is a time value); it leaves the documents as they are. *)
Theorem cleanupOldData_sixty_days (tza clock : Z) (db : DB) :
  Z.abs (clock - 60 * Date.msPerDay) ≤ 8640000000000000 →
  cleanupOldData tza clock db
  = deleteOldSessions (JS.split_head "T" (Date.iso (clock - 60 * Date.msPerDay))) db
  ∧ documents (cleanupOldData tza clock db) = documents db.
Proof.
  intros Hr. rewrite cleanupOldData_cutoff. unfold Date.TimeClip, DATA_RETENTION_DAYS.
  destruct (Z.ltb_spec 8640000000000000 (Z.abs (clock - 60 * Date.msPerDay))); [lia|done].
Qed.

Lemma cleanupOldData_sixty_days_witness :
  cleanupOldData west 1709596800000 two_sessions
  = deleteOldSessions
      (JS.split_head "T" (Date.iso (1709596800000 - 60 * Date.msPerDay))) two_sessions
  ∧ documents (cleanupOldData west 1709596800000 two_sessions) = documents two_sessions.
Proof.
  apply (cleanupOldData_sixty_days west 1709596800000 two_sessions).
  vm_compute. discriminate.
Defined.

(** On 2024-03-05 the cutoff is 2024-01-05: both sessions are swept. *)
Example cleanup_in_march :
  JS.split_head "T" (Date.iso (1709596800000 - 60 * Date.msPerDay)) = "2024-01-05"
  ∧ sessions (cleanupOldData west 1709596800000 two_sessions) = ∅
  ∧ sessions (cleanupOldData 0 1709510400000 two_sessions) !! 2
    = sessions two_sessions !! 2.
Proof. by vm_compute. Qed.

(** ** Any run of the worker *)

Lemma onAlarm_cases (tza : Z) (name : string) (activeTab : option Tab.t) (clock : Z)
    (st : State) :
  onAlarm tza name activeTab clock st = st
  ∨ onAlarm tza name activeTab clock st = trackActiveTab activeTab clock st
  ∨ ∃ cutoff, onAlarm tza name activeTab clock st
              = {| tabAccumulatedTime := tabAccumulatedTime st;
                   db := deleteOldSessions cutoff (db st) |}.
Proof.
  unfold onAlarm. destruct (String.eqb name "cleanup").
  - rewrite cleanupOldData_cutoff. destruct (Date.TimeClip _) as [t|].
    + right. right. eauto.
    + left. by destruct st.
  - destruct (String.eqb name TRACKING_ALARM_NAME); auto.
Qed.

Lemma trackActiveTab_cases (activeTab : option Tab.t) (clock : Z) (st : State) :
  trackActiveTab activeTab clock st = st
  ∨ ∃ t, activeTab = Some t
         ∧ tabAccumulatedTime (trackActiveTab activeTab clock st)
           = <[Tab.id t := {| seconds := accumulated (Tab.id t) st + 1; tab := t |}]>
               (tabAccumulatedTime st)
         ∧ (db (trackActiveTab activeTab clock st) = db st
            ∨ ∃ docKey, db (trackActiveTab activeTab clock st)
                        = IndexedDBManager.recordSession docKey (Tab.title t)
                            (JS.split_head "T" (Date.iso clock)) 1000 (Tab.url t) clock (db st)).
Proof.
  destruct activeTab as [t|]; [|by left].
  unfold trackActiveTab.
  destruct (_ || _); [by left|]. destruct (internal_page _); [by left|].
  right. exists t. split; [done|].
  assert (Hsec : seconds (match tabAccumulatedTime st !! Tab.id t with
                          | Some e => e
                          | None => {| seconds := 0; tab := t |}
                          end) = accumulated (Tab.id t) st).
  { unfold accumulated. by destruct (tabAccumulatedTime st !! Tab.id t). }
  cbn [seconds]. rewrite Hsec.
  destruct (Z.leb _ _); [|by split; [|left]].
  unfold Background.recordSession.
  destruct (generateDocKey t) as [docKey|e]; simpl; (split; [done|]); [right; eauto | by left].
Qed.

(** X19: whatever alarms and tab events arrive, what the worker does
    to the database is a history of one-tick recordings and sweeps: it
    never deletes a document and never records another duration. *)
Theorem worker_history (tza : Z) (events : list Event) (st : State) :
  ∃ ops, db (worker tza events st) = run ops (db st) ∧ forallb worker_op ops = true.
Proof.
  unfold worker. revert st. induction events as [|ev events IH]; intros st.
  - by exists [].
  - simpl foldl. destruct (IH (react tza st ev)) as (ops & -> & Hops).
    assert (Hstep : ∃ op1, db (react tza st ev) = run op1 (db st) ∧ forallb worker_op op1 = true).
    { destruct ev as [name activeTab clock| |tabId]; simpl react;
        [|by exists []|by exists []].
      destruct (onAlarm_cases tza name activeTab clock st) as [->|[->|[cutoff ->]]].
      - by exists [].
      - destruct (trackActiveTab_cases activeTab clock st) as [->|(t & _ & _ & [->|[k ->]])].
        + by exists [].
        + by exists [].
        + by eexists [Record _ _ _ _ _ _].
      - by exists [Sweep cutoff]. }
    destruct Hstep as (op1 & -> & Hop1).
    exists (op1 ++ ops)%list. split.
    + unfold run. by rewrite foldl_app.
    + rewrite forallb_app. by rewrite Hop1, Hops.
Qed.

Lemma ledger_one_second (k : string) (db : DB) :
  one_second_sessions db →
  ledger k db = 1000 * Z.of_nat (length (getSessionsByDocKey k db)).
Proof.
  intros Hone. unfold ledger, getSessionsByDocKey.
  assert (Hall : Forall (λ kv : Z * SessionRecord.t, SessionRecord.durationMs kv.2 = 1000)
                   (filter (λ kv, SessionRecord.docKey kv.2 = k) (map_to_list (sessions db)))).
  { apply Forall_forall. intros [id s] [_ Hin%elem_of_map_to_list]%list_elem_of_filter.
    by apply (Hone id s). }
  induction Hall as [|kv l Hkv _ IH]; [done|].
  rewrite sum_durations_cons, IH, Hkv. simpl length. lia.
Qed.

Lemma one_second_nonnegative (db : DB) : one_second_sessions db → nonnegative db.
Proof.
  intros Hone id s Hs. rewrite (Hone id s Hs). unfold CHECK_INTERVAL_MS. lia.
Qed.

Lemma accumulated_nonneg (tabId : Z) (st : State) :
  map_Forall (λ _ a, 1 ≤ seconds a) (tabAccumulatedTime st) → 0 ≤ accumulated tabId st.
Proof.
  intros H. unfold accumulated.
  destruct (tabAccumulatedTime st !! tabId) as [a|] eqn:E; simpl; [|lia].
  specialize (H tabId a E). simpl in H. lia.
Qed.

Lemma sweep_inv (cutoff : string) (st : State) :
  worker_inv st →
  worker_inv {| tabAccumulatedTime := tabAccumulatedTime st;
                db := deleteOldSessions cutoff (db st) |}.
Proof.
  intros (Hwf & Hone & Hacc & Hled). split; [by apply deleteOldSessions_wf|].
  split; [|split; [done|]]; simpl db.
  - intros id s Hs. rewrite lookup_deleteOldSessions in Hs.
    destruct (sessions (db st) !! id) as [s'|] eqn:E; [|done].
    case_decide; [done|]. injection Hs as <-. by apply (Hone id s').
  - intros k. etrans; [by apply ledger_deleteOldSessions, one_second_nonnegative|].
    apply Hled.
Qed.

Lemma trackActiveTab_inv (activeTab : option Tab.t) (clock : Z) (st : State) :
  worker_inv st → worker_inv (trackActiveTab activeTab clock st).
Proof.
  intros Hinv.
  destruct (trackActiveTab_cases activeTab clock st) as [->|(t & _ & Hacc' & Hdb')]; [done|].
  destruct Hinv as (Hwf & Hone & Hacc & Hled).
  assert (Hacc1 : map_Forall (λ _ a, 1 ≤ seconds a)
                    (tabAccumulatedTime (trackActiveTab activeTab clock st))).
  { rewrite Hacc'. apply map_Forall_insert_2; [|done]. simpl.
    pose proof (accumulated_nonneg (Tab.id t) st Hacc). lia. }
  destruct Hdb' as [Hdb|[docKey Hdb]]; unfold worker_inv; rewrite Hdb.
  - done.
  - split; [by apply recordSession_wf|]. split; [|split; [done|]].
    + apply map_Forall_insert_2; [done|]. done.
    + intros k. rewrite ledger_record, aggregate_record by done. specialize (Hled k). lia.
Qed.

Lemma react_inv (tza : Z) (ev : Event) (st : State) :
  worker_inv st → worker_inv (react tza st ev).
Proof.
  intros Hinv. destruct ev as [name activeTab clock| |tabId]; simpl react.
  - destruct (onAlarm_cases tza name activeTab clock st) as [->|[->|[cutoff ->]]].
    + done.
    + by apply trackActiveTab_inv.
    + by apply sweep_inv.
  - destruct Hinv as (Hwf & Hone & Hacc & Hled).
    split; [done|]. split; [done|]. split; [apply map_Forall_empty | done].
  - destruct Hinv as (Hwf & Hone & Hacc & Hled).
    split; [done|]. split; [done|]. split; [by apply map_Forall_delete | done].
Qed.

Lemma worker_inv_run (tza : Z) (events : list Event) (st : State) :
  worker_inv st → worker_inv (worker tza events st).
Proof.
  unfold worker. revert st. induction events as [|ev events IH]; intros st Hinv; [done|].
  simpl. by apply IH, react_inv.
Qed.

Lemma worker_inv_idle : worker_inv idle.
Proof.
  split; [apply wf_init|]. split; [apply map_Forall_empty|].
  split; [apply map_Forall_empty|]. intros k. reflexivity.
Qed.

(** X20: started on the empty database, after any alarms and tab
    events every stored session lasts 1000 ms, every accumulator holds at
    least one second, and each document's [totalTimeMs] is at least 1000
    times the number of its stored sessions. *)
Theorem worker_sessions_last_one_second (tza : Z) (events : list Event) :
  let st := worker tza events idle in
  map_Forall (λ _ s, SessionRecord.durationMs s = 1000) (sessions (db st))
  ∧ map_Forall (λ _ a, 1 ≤ seconds a) (tabAccumulatedTime st)
  ∧ ∀ k, 1000 * Z.of_nat (length (getSessionsByDocKey k (db st))) ≤ aggregate k (db st).
Proof.
  intros st.
  destruct (worker_inv_run tza events idle worker_inv_idle) as (Hwf & Hone & Hacc & Hled).
  fold st in Hwf, Hone, Hacc, Hled.
  split; [done|]. split; [done|].
  intros k. rewrite <- ledger_one_second by done. apply Hled.
Qed.

Example busy_morning_state :
  let st := worker west busy_morning idle in
  aggregate "gdoc_XYZ123" (db st) = 2000
  ∧ aggregate "domain_example.com" (db st) = 3000
  ∧ accumulated 1 st = 12
  ∧ tabAccumulatedTime st !! 2 = None
  ∧ keyGenerator (db st) = 6.
Proof. by vm_compute. Qed.

(** * Further properties of the document keys *)

(** ** Conversations *)

(** X21: on a host that is neither docs.google.com nor an office
    one, a claude.ai path [/chat/<id>...] gives [claude_<id>] and a
    chat.openai.com or chatgpt.com path [/c/<id>...] gives
    [chatgpt_<id>] in the worker, while the popup's copy gives
    [domain_<hostname>]. *)
Theorem generateDocKey_chat_rules (activeTab : Tab.t) (u : Url.URL) (id rest : string) :
  Url.parse (Tab.url activeTab) = Some u →
  JS.includes "docs.google.com" (Url.hostname u) = false →
  JS.includes "office.com" (Url.hostname u) || JS.includes "office365.com" (Url.hostname u)
  = false →
  id_segment Regex.id_class id rest →
  (JS.includes "claude.ai" (Url.hostname u) = true →
   Url.pathname u = "/chat/" +:+ id +:+ rest →
   generateDocKey activeTab = JS.Ok ("claude_" +:+ id))
  ∧ (JS.includes "claude.ai" (Url.hostname u) = false →
     JS.includes "chat.openai.com" (Url.hostname u)
     || JS.includes "chatgpt.com" (Url.hostname u) = true →
     Url.pathname u = "/c/" +:+ id +:+ rest →
     generateDocKey activeTab = JS.Ok ("chatgpt_" +:+ id))
  ∧ Popup.generateDocKey activeTab = JS.Ok ("domain_" +:+ Url.hostname u).
Proof.
  intros Hu Hdocs Hoffice Hseg.
  unfold generateDocKey, Popup.generateDocKey. rewrite Hu. cbv zeta.
  rewrite Hdocs, Hoffice. simpl andb. cbv iota.
  split; [|split; [|done]].
  - intros Hc Hpath. rewrite Hc, Hpath. unfold Regex.re_chat.
    by rewrite (exec_lits_capture "/chat/" Regex.id_class id rest Hseg).
  - intros Hc Hx Hpath. rewrite Hc, Hx, Hpath. cbv iota. unfold Regex.re_c.
    by rewrite (exec_lits_capture "/c/" Regex.id_class id rest Hseg).
Qed.

Lemma generateDocKey_chat_rules_witness :
  (JS.includes "claude.ai" "claude.ai" = true →
   "/chat/abc123" = "/chat/" +:+ "abc123" +:+ "" →
   generateDocKey chat_tab = JS.Ok ("claude_" +:+ "abc123"))
  ∧ (JS.includes "claude.ai" "claude.ai" = false →
     JS.includes "chat.openai.com" "claude.ai" || JS.includes "chatgpt.com" "claude.ai" = true →
     "/chat/abc123" = "/c/" +:+ "abc123" +:+ "" →
     generateDocKey chat_tab = JS.Ok ("chatgpt_" +:+ "abc123"))
  ∧ Popup.generateDocKey chat_tab = JS.Ok ("domain_" +:+ "claude.ai").
Proof.
  apply (generateDocKey_chat_rules chat_tab
           {| Url.hostname := "claude.ai"; Url.pathname := "/chat/abc123" |} "abc123" "").
  - reflexivity.
  - reflexivity.
  - reflexivity.
  - split; [discriminate|]. split; reflexivity.
Defined.

(** ** The shape of a key *)

(** X22: every key the worker's [generateDocKey] returns is
    [domain_<hostname>], or a tag followed by an id that stands in the
    path right after the rule's literal, is not empty, consists of
    characters of the rule's class and is not followed by another one, or
    [office_<app>_<id>] with such an app and id in the path. *)
Theorem generateDocKey_shape (activeTab : Tab.t) (u : Url.URL) (key : string) :
  Url.parse (Tab.url activeTab) = Some u →
  generateDocKey activeTab = JS.Ok key →
  key = "domain_" +:+ Url.hostname u
  ∨ (∃ tag lit pre id rest,
       (tag, lit) ∈ [("gdoc_", "/document/d/"); ("gsheet_", "/spreadsheets/d/");
                     ("claude_", "/chat/"); ("chatgpt_", "/c/")]
       ∧ key = tag +:+ id
       ∧ Url.pathname u = pre +:+ lit +:+ id +:+ rest
       ∧ id_segment Regex.id_class id rest)
  ∨ (∃ pre app id rest,
       key = "office_" +:+ app +:+ "_" +:+ id
       ∧ Url.pathname u = pre +:+ "/" +:+ app +:+ "/" +:+ id +:+ rest
       ∧ app ≠ "" ∧ Url.all_chars Regex.lower_class app = true
       ∧ id_segment Regex.lower_digit_class id rest).
Proof.
  intros Hu. unfold generateDocKey. rewrite Hu. cbv zeta.
  set (host := Url.hostname u). set (path := Url.pathname u).
  destruct (if JS.includes "docs.google.com" host then _ else None) as [m|] eqn:H1.
  { apply guarded_exec, exec_lits_capture_inv in H1 as (pre & id & rest & -> & Hp & Hseg).
    intros [= <-]. right. left. exists "gdoc_", "/document/d/", pre, id, rest.
    split; [apply elem_of_cons; by left | done]. }
  destruct (if JS.includes "docs.google.com" host && _ then _ else None) as [m|] eqn:H2.
  { apply guarded_exec, exec_lits_capture_inv in H2 as (pre & id & rest & -> & Hp & Hseg).
    intros [= <-]. right. left. exists "gsheet_", "/spreadsheets/d/", pre, id, rest.
    split; [do 1 (apply elem_of_cons; right); apply elem_of_cons; by left | done]. }
  destruct (if JS.includes "office.com" host || _ then _ else None) as [m|] eqn:H3.
  { apply guarded_exec, exec_office_inv in H3
      as (pre & app & id & rest & -> & Hp & Hne & Hall & Hseg).
    intros [= <-]. right. right. by exists pre, app, id, rest. }
  destruct (if JS.includes "claude.ai" host then _ else None) as [m|] eqn:H4.
  { apply guarded_exec, exec_lits_capture_inv in H4 as (pre & id & rest & -> & Hp & Hseg).
    intros [= <-]. right. left. exists "claude_", "/chat/", pre, id, rest.
    split; [do 2 (apply elem_of_cons; right); apply elem_of_cons; by left | done]. }
  destruct (if JS.includes "chat.openai.com" host || _ then _ else None) as [m|] eqn:H5.
  { apply guarded_exec, exec_lits_capture_inv in H5 as (pre & id & rest & -> & Hp & Hseg).
    intros [= <-]. right. left. exists "chatgpt_", "/c/", pre, id, rest.
    split; [do 3 (apply elem_of_cons; right); apply elem_of_cons; by left | done]. }
  intros [= <-]. by left.
Qed.

Lemma generateDocKey_shape_witness :
  "office_en_apps" = "domain_" +:+ "portal.office.com"
  ∨ (∃ tag lit pre id rest,
       (tag, lit) ∈ [("gdoc_", "/document/d/"); ("gsheet_", "/spreadsheets/d/");
                     ("claude_", "/chat/"); ("chatgpt_", "/c/")]
       ∧ "office_en_apps" = tag +:+ id
       ∧ "/en/apps/word/2024" = pre +:+ lit +:+ id +:+ rest
       ∧ id_segment Regex.id_class id rest)
  ∨ (∃ pre app id rest,
       "office_en_apps" = "office_" +:+ app +:+ "_" +:+ id
       ∧ "/en/apps/word/2024" = pre +:+ "/" +:+ app +:+ "/" +:+ id +:+ rest
       ∧ app ≠ "" ∧ Url.all_chars Regex.lower_class app = true
       ∧ id_segment Regex.lower_digit_class id rest).
Proof.
  apply (generateDocKey_shape nested_tab
           {| Url.hostname := "portal.office.com"; Url.pathname := "/en/apps/word/2024" |}
           "office_en_apps"); reflexivity.
Defined.

Lemma generateDocKey_popup_agrees_witness :
  Popup.generateDocKey nested_tab = Background.generateDocKey nested_tab.
Proof.
  apply (generateDocKey_popup_agrees nested_tab).
  intros u [= <-]. by vm_compute.
Defined.

(** * Further properties of the views *)

(** ** Durations as text *)

(** X23: [formatTime] of a number of milliseconds that is a safe
    integer (at most 2^53 - 1 in absolute value), in terms of that number
    alone: below a minute (and for negative values) the whole seconds;
    below an hour the minutes and the seconds left; below a day the hours
    and the minutes left; from a day on the days and the hours left.  The
    smaller units are dropped, never rounded up. *)
Theorem formatTime_units (ms : Z) :
  JS.isSafeInteger ms →
  formatTime ms =
  if ms <? 60000 then JS.toString (ms / 1000) +:+ "s"
  else if ms <? 3600000 then
    JS.toString (ms / 60000) +:+ "m " +:+ JS.toString (ms / 1000 mod 60) +:+ "s"
  else if ms <? 86400000 then
    JS.toString (ms / 3600000) +:+ "h " +:+ JS.toString (ms / 60000 mod 60) +:+ "m"
  else
    JS.toString (ms / 86400000) +:+ "d " +:+ JS.toString (ms / 3600000 mod 24) +:+ "h".
Proof.
  intros _. unfold formatTime. cbv zeta.
  assert (Hm : ms / 1000 / 60 = ms / 60000) by (rewrite Z.div_div by lia; done).
  assert (Hh : ms / 1000 / 60 / 60 = ms / 3600000) by (rewrite Hm, Z.div_div by lia; done).
  assert (Hd : ms / 1000 / 60 / 60 / 24 = ms / 86400000)
    by (rewrite Hh, Z.div_div by lia; done).
  rewrite Hd, Hh, Hm.
  destruct (Z.ltb_spec ms 60000) as [H1|H1].
  { assert (ms / 86400000 ≤ 0) by (apply Z.lt_succ_r, Z.div_lt_upper_bound; lia).
    assert (ms / 3600000 ≤ 0) by (apply Z.lt_succ_r, Z.div_lt_upper_bound; lia).
    assert (ms / 60000 ≤ 0) by (apply Z.lt_succ_r, Z.div_lt_upper_bound; lia).
    rewrite (proj2 (Z.ltb_ge 0 (ms / 86400000))) by lia.
    rewrite (proj2 (Z.ltb_ge 0 (ms / 3600000))) by lia.
    by rewrite (proj2 (Z.ltb_ge 0 (ms / 60000))) by lia. }
  assert (0 < ms / 60000) by (apply Z.div_str_pos; lia).
  destruct (Z.ltb_spec ms 3600000) as [H2|H2].
  { assert (ms / 86400000 ≤ 0) by (apply Z.lt_succ_r, Z.div_lt_upper_bound; lia).
    assert (ms / 3600000 ≤ 0) by (apply Z.lt_succ_r, Z.div_lt_upper_bound; lia).
    rewrite (proj2 (Z.ltb_ge 0 (ms / 86400000))) by lia.
    rewrite (proj2 (Z.ltb_ge 0 (ms / 3600000))) by lia.
    rewrite (proj2 (Z.ltb_lt 0 (ms / 60000))) by lia.
    rewrite Z.rem_mod_nonneg; [done | apply Z.div_pos; lia | lia]. }
  assert (0 < ms / 3600000) by (apply Z.div_str_pos; lia).
  destruct (Z.ltb_spec ms 86400000) as [H3|H3].
  { assert (ms / 86400000 ≤ 0) by (apply Z.lt_succ_r, Z.div_lt_upper_bound; lia).
    rewrite (proj2 (Z.ltb_ge 0 (ms / 86400000))) by lia.
    rewrite (proj2 (Z.ltb_lt 0 (ms / 3600000))) by lia.
    rewrite Z.rem_mod_nonneg; [done | lia | lia]. }
  assert (0 < ms / 86400000) by (apply Z.div_str_pos; lia).
  rewrite (proj2 (Z.ltb_lt 0 (ms / 86400000))) by lia.
  rewrite Z.rem_mod_nonneg; [done | lia | lia].
Qed.

Lemma formatTime_units_witness :
  formatTime 93784000
  = JS.toString (93784000 / 86400000) +:+ "d " +:+ JS.toString (93784000 / 3600000 mod 24)
    +:+ "h".
Proof.
  apply (formatTime_units 93784000). unfold JS.isSafeInteger, JS.MAX_SAFE_INTEGER. lia.
Defined.

Example formatTime_examples :
  formatTime 0 = "0s" ∧ formatTime 59999 = "59s" ∧ formatTime 3599999 = "59m 59s"
  ∧ formatTime 7199999 = "1h 59m" ∧ formatTime 90000000 = "1d 1h"
  ∧ formatTime (-1) = "-1s".
Proof. by vm_compute. Qed.

(** ** The order of the table *)

Section Sorting.
Context {A : Type}.

Lemma sort_insert_Permutation (cmp : A → A → Z) (x : A) (l : list A) :
  JS.sort_insert cmp x l ≡ₚ x :: l.
Proof.
  induction l as [|y l IH]; [done|]. simpl.
  destruct (cmp x y <=? 0); [done|]. rewrite IH. apply Permutation_swap.
Qed.

Lemma sort_Permutation (cmp : A → A → Z) (l : list A) : JS.sort cmp l ≡ₚ l.
Proof.
  induction l as [|x l IH]; [done|]. unfold JS.sort in *. simpl.
  rewrite sort_insert_Permutation. by rewrite IH.
Qed.

(** A comparator that orders by a numeric key. *)
Variables (key : A → Z) (cmp : A → A → Z).
Hypothesis cmp_key : ∀ a b, cmp a b ≤ 0 ↔ key a ≤ key b.

Lemma sort_insert_sorted (x : A) (l : list A) :
  StronglySorted (λ a b, key a ≤ key b) l →
  StronglySorted (λ a b, key a ≤ key b) (JS.sort_insert cmp x l).
Proof.
  induction 1 as [|y l Hl IH Hy]; simpl.
  - repeat constructor.
  - destruct (Z.leb_spec (cmp x y) 0) as [Hle%cmp_key|Hgt].
    + constructor; [by constructor|].
      constructor; [lia|].
      eapply Forall_impl; [exact Hy|]. simpl. intros. lia.
    + assert (key y ≤ key x).
      { destruct (Z.le_gt_cases (key x) (key y)) as [H%cmp_key|H]; lia. }
      constructor; [done|].
      rewrite sort_insert_Permutation. by constructor.
Qed.

Lemma sort_sorted (l : list A) : StronglySorted (λ a b, key a ≤ key b) (JS.sort cmp l).
Proof.
  induction l as [|x l IH]; [constructor|]. by apply sort_insert_sorted.
Qed.

Lemma sort_insert_stable (v : Z) (x : A) (l : list A) :
  filter (λ a, key a = v) (JS.sort_insert cmp x l) = filter (λ a, key a = v) (x :: l).
Proof.
  induction l as [|y l IH]; [done|]. simpl.
  destruct (Z.leb_spec (cmp x y) 0) as [Hle|Hgt]; [done|].
  assert (key x ≠ key y).
  { intros E. assert (cmp x y ≤ 0) by (apply cmp_key; lia). lia. }
  rewrite (filter_cons _ y), IH, !filter_cons.
  repeat case_decide; try done. congruence.
Qed.

Lemma sort_stable (v : Z) (l : list A) :
  filter (λ a, key a = v) (JS.sort cmp l) = filter (λ a, key a = v) l.
Proof.
  induction l as [|x l IH]; [done|].
  change (JS.sort cmp (x :: l)) with (JS.sort_insert cmp x (JS.sort cmp l)).
  rewrite sort_insert_stable, !filter_cons, IH. done.
Qed.

End Sorting.

Lemma StronglySorted_weaken {A} (R1 R2 : relation A) (l : list A) :
  (∀ a b, R1 a b → R2 a b) → StronglySorted R1 l → StronglySorted R2 l.
Proof.
  intros HR. induction 1 as [|x l _ IH Hx]; constructor; [done|].
  eapply Forall_impl; [exact Hx | apply HR].
Qed.

(** X24: sorted by time, descending or ascending, the table holds
    the same documents, each total is at most (at least) every total
    before it, and documents with equal totals keep the order they came
    in. *)
Theorem getSortedDocuments_by_time
    (localeCompare : string → string → Z) (dateValue : string → option Z)
    (allDocuments : list DocumentRecord.t) :
  let descending := Dashboard.getSortedDocuments localeCompare dateValue "time-desc"
                      allDocuments in
  let ascending := Dashboard.getSortedDocuments localeCompare dateValue "time-asc"
                     allDocuments in
  descending ≡ₚ allDocuments
  ∧ StronglySorted (λ a b, DocumentRecord.totalTimeMs b ≤ DocumentRecord.totalTimeMs a)
      descending
  ∧ (∀ v, filter (λ d, DocumentRecord.totalTimeMs d = v) descending
          = filter (λ d, DocumentRecord.totalTimeMs d = v) allDocuments)
  ∧ ascending ≡ₚ allDocuments
  ∧ StronglySorted (λ a b, DocumentRecord.totalTimeMs a ≤ DocumentRecord.totalTimeMs b)
      ascending
  ∧ (∀ v, filter (λ d, DocumentRecord.totalTimeMs d = v) ascending
          = filter (λ d, DocumentRecord.totalTimeMs d = v) allDocuments).
Proof.
  intros descending ascending.
  set (desc := λ a b : DocumentRecord.t,
                 DocumentRecord.totalTimeMs b - DocumentRecord.totalTimeMs a).
  set (asc := λ a b : DocumentRecord.t,
                DocumentRecord.totalTimeMs a - DocumentRecord.totalTimeMs b).
  assert (Hd : descending = JS.sort desc allDocuments) by done.
  assert (Ha : ascending = JS.sort asc allDocuments) by done.
  assert (Hdk : ∀ a b, desc a b ≤ 0
                       ↔ - DocumentRecord.totalTimeMs a ≤ - DocumentRecord.totalTimeMs b)
    by (intros; unfold desc; lia).
  assert (Hak : ∀ a b, asc a b ≤ 0
                       ↔ DocumentRecord.totalTimeMs a ≤ DocumentRecord.totalTimeMs b)
    by (intros; unfold asc; lia).
  rewrite Hd, Ha.
  split; [apply sort_Permutation|].
  split.
  { eapply StronglySorted_weaken; [|exact (sort_sorted _ desc Hdk allDocuments)].
    simpl. intros. lia. }
  split.
  { intros v.
    rewrite (list_filter_iff _ (λ a, - DocumentRecord.totalTimeMs a = - v)) by (intros; lia).
    rewrite (sort_stable _ desc Hdk (- v) allDocuments).
    apply list_filter_iff. intros. lia. }
  split; [apply sort_Permutation|].
  split; [exact (sort_sorted _ asc Hak allDocuments)|].
  intros v. exact (sort_stable _ asc Hak v allDocuments).
Qed.

(** X25: with the table sorted by time, descending, the breakdown
    shows five documents (all of them when there are fewer), and no
    document left out has a larger [totalTimeMs] than a document shown. *)
Theorem topDocs_by_time
    (localeCompare : string → string → Z) (dateValue : string → option Z)
    (allDocuments : list DocumentRecord.t) :
  let top := Dashboard.topDocs localeCompare dateValue "time-desc" allDocuments in
  length top = min 5 (length allDocuments)
  ∧ ∃ others, (top ++ others)%list ≡ₚ allDocuments
              ∧ ∀ a b, a ∈ top → b ∈ others →
                       DocumentRecord.totalTimeMs b ≤ DocumentRecord.totalTimeMs a.
Proof.
  intros top.
  set (desc := λ a b : DocumentRecord.t,
                 DocumentRecord.totalTimeMs b - DocumentRecord.totalTimeMs a).
  assert (Hdk : ∀ a b, desc a b ≤ 0
                       ↔ - DocumentRecord.totalTimeMs a ≤ - DocumentRecord.totalTimeMs b)
    by (intros; unfold desc; lia).
  assert (Ht : top = take 5 (JS.sort desc allDocuments)) by done.
  split.
  - rewrite Ht, length_take. by rewrite (sort_Permutation desc allDocuments).
  - exists (drop 5 (JS.sort desc allDocuments)). rewrite Ht, take_drop.
    split; [apply sort_Permutation|].
    intros a b Ha Hb.
    pose proof (sort_sorted _ desc Hdk allDocuments) as Hs.
    rewrite <- (take_drop 5 (JS.sort desc allDocuments)) in Hs.
    pose proof (StronglySorted_app_1_elem_of _ _ _ a b Hs Ha Hb). simpl in *. lia.
Qed.

(** X29: whatever the sort mode, one of the four or any other string,
    and whatever the platform's [localeCompare] and date parsing, the
    sorted table is a permutation of the documents: sorting neither
    loses nor duplicates a row. *)
Theorem getSortedDocuments_keeps_every_document
    (localeCompare : string → string → Z) (dateValue : string → option Z)
    (currentSort : string) (allDocuments : list DocumentRecord.t) :
  Dashboard.getSortedDocuments localeCompare dateValue currentSort allDocuments
  ≡ₚ allDocuments.
Proof.
  unfold Dashboard.getSortedDocuments.
  destruct (Dashboard.comparator _ _ _); [apply sort_Permutation | done].
Qed.

(** X26: except for the period "month" the dashboard asks for a day
    or month breakdown, which cannot fail and, for a document whose
    sessions have dates that begin with a digit, adds up to the sum of
    the document's sessions. *)
Theorem renderBreakdown_period (tza : Z) (currentPeriod docKey : string) (db : DB) :
  currentPeriod ≠ "month" →
  dated docKey db = true →
  Dashboard.breakdownPeriod currentPeriod ≠ "week"
  ∧ ∃ breakdown,
      getTimeBreakdown tza docKey (Dashboard.breakdownPeriod currentPeriod) db
      = JS.Ok breakdown
      ∧ bucket_total breakdown = ledger docKey db.
Proof.
  intros Hp%String.eqb_neq _.
  assert (Hweek : Dashboard.breakdownPeriod currentPeriod ≠ "week").
  { unfold Dashboard.breakdownPeriod. cbv zeta. rewrite Hp.
    destruct (String.eqb currentPeriod "all"); [done|].
    by destruct (String.eqb currentPeriod "week"). }
  split; [done|]. eexists. split; [by apply getTimeBreakdown_plain|].
  rewrite (breakdown_fold_total (plain_bucket (Dashboard.breakdownPeriod currentPeriod))).
  unfold ledger, bucket_total. rewrite map_fold_empty. lia.
Qed.

Lemma renderBreakdown_period_witness :
  Dashboard.breakdownPeriod "all" ≠ "week"
  ∧ ∃ breakdown,
      getTimeBreakdown west "gdoc_abc" (Dashboard.breakdownPeriod "all") two_sessions
      = JS.Ok breakdown
      ∧ bucket_total breakdown = ledger "gdoc_abc" two_sessions.
Proof.
  apply (renderBreakdown_period west "all" "gdoc_abc" two_sessions);
    [discriminate | reflexivity].
Defined.

Lemma recordSession_appends_witness :
  let db' := IndexedDBManager.recordSession "gdoc_abc" "Notes" "2024-02-01" 1000
               "https://docs.google.com/document/d/abc" 1706745600000 two_documents in
  sessions two_documents !! keyGenerator two_documents = None
  ∧ sessions db' !! keyGenerator two_documents
    = Some {| SessionRecord.docKey := "gdoc_abc"; SessionRecord.date := "2024-02-01";
              SessionRecord.durationMs := 1000;
              SessionRecord.timestamp := Date.iso 1706745600000 |}
  ∧ (∀ id, id ≠ keyGenerator two_documents → sessions db' !! id = sessions two_documents !! id)
  ∧ (∀ id s, sessions two_documents !! id = Some s → sessions db' !! id = Some s)
  ∧ (∀ other, other ≠ "gdoc_abc" → documents db' !! other = documents two_documents !! other)
  ∧ keyGenerator db' = keyGenerator two_documents + 1.
Proof.
  apply (recordSession_appends "gdoc_abc" "Notes" "2024-02-01" 1000
           "https://docs.google.com/document/d/abc" 1706745600000 two_documents).
  do 2 apply recordSession_wf. apply wf_init.
Defined.

Lemma getTimeBreakdown_week_invalid_date_witness :
  getTimeBreakdown 0 "gdoc_abc" "week"
    (IndexedDBManager.recordSession "gdoc_abc" "Notes" "2024-13-01" 1000
       "https://docs.google.com/document/d/abc" 1706745600000 two_sessions)
  = JS.Throw JS.RangeError.
Proof.
  apply (getTimeBreakdown_week_invalid_date 0 "gdoc_abc" _ 3
           {| SessionRecord.docKey := "gdoc_abc"; SessionRecord.date := "2024-13-01";
              SessionRecord.durationMs := 1000;
              SessionRecord.timestamp := Date.iso 1706745600000 |}); reflexivity.
Defined.

(** * Further invariants *)

Lemma step_no_orphans (op : Op) (db : DB) :
  wf db → no_orphans db → no_orphans (step db op).
Proof.
  intros Hwf Horph. destruct op as [docKey title date durationMs url clock|cutoff|docKey];
    simpl step.
  - assert (Hdoc : ∀ k, is_Some (documents db !! k) ∨ k = docKey →
             is_Some (documents (IndexedDBManager.recordSession docKey title date durationMs
                                   url clock db) !! k)).
    { intros k Hk. destruct (decide (k = docKey)) as [->|Hne].
      - pose proof (recordSession_total docKey title date durationMs url clock db Hwf) as Ht.
        destruct (documents (IndexedDBManager.recordSession docKey title date durationMs
                               url clock db) !! docKey); [eauto | done].
      - destruct Hk as [Hk|?]; [|done]. simpl. destruct Hwf as [_ Hd].
        destruct (documents db !! docKey) as [r|] eqn:Hr; simpl.
        + rewrite (Hd _ _ Hr). by rewrite lookup_insert_ne.
        + by rewrite lookup_insert_ne. }
    apply map_Forall_insert_2; [apply Hdoc; by right|].
    intros id s Hs. apply Hdoc. left. by apply (Horph id s).
  - intros id s Hs. rewrite lookup_deleteOldSessions in Hs.
    destruct (sessions db !! id) as [s'|] eqn:E; [|done].
    case_decide; [done|]. injection Hs as <-. by apply (Horph id s').
  - intros id s Hs. rewrite lookup_deleteDocument in Hs.
    destruct (sessions db !! id) as [s'|] eqn:E; [|done].
    case_decide as Hk; [done|]. injection Hs as <-. simpl.
    rewrite lookup_delete_ne by done. by apply (Horph id s').
Qed.

(** X27: over any history from a well-formed database without
    orphans, every stored session belongs to a document that has a
    record, although the store does not enforce it. *)
Theorem sessions_are_never_orphans (ops : list Op) (db : DB) :
  wf db →
  no_orphans db →
  ∀ id s, sessions (run ops db) !! id = Some s →
          is_Some (getDocumentStats (SessionRecord.docKey s) (run ops db)).
Proof.
  intros Hwf Horph.
  assert (H : wf (run ops db) ∧ no_orphans (run ops db)); [|intros id s; apply H].
  unfold run. revert db Hwf Horph. induction ops as [|op ops IH]; intros db Hwf Horph; [done|].
  simpl. apply IH; [by apply step_wf | by apply step_no_orphans].
Qed.

Lemma sessions_are_never_orphans_witness :
  no_orphans init
  ∧ ∀ id s, sessions (run history init) !! id = Some s →
            is_Some (getDocumentStats (SessionRecord.docKey s) (run history init)).
Proof.
  split; [apply map_Forall_empty|].
  apply (sessions_are_never_orphans history init).
  - apply wf_init.
  - apply map_Forall_empty.
Defined.

Lemma dated_by_app (events more : list Event) (db : DB) :
  dated_by events db → dated_by (events ++ more) db.
Proof.
  intros Hd id s Hs. destruct (Hd id s Hs) as (name & activeTab & clock & Hin & Hdate).
  exists name, activeTab, clock. split; [|done]. apply elem_of_app. by left.
Qed.

Lemma react_dated (tza : Z) (ev : Event) (st : State) (events : list Event) :
  dated_by events (db st) → dated_by (events ++ [ev]) (db (react tza st ev)).
Proof.
  intros Hd. destruct ev as [name activeTab clock| |tabId]; simpl react;
    [|by apply dated_by_app|by apply dated_by_app].
  destruct (onAlarm_cases tza name activeTab clock st) as [->|[->|[cutoff ->]]];
    [by apply dated_by_app| |].
  - destruct (trackActiveTab_cases activeTab clock st) as [->|(t & _ & _ & [->|[k ->]])];
      [by apply dated_by_app|by apply dated_by_app|].
    apply map_Forall_insert_2; [|by apply dated_by_app].
    exists name, activeTab, clock. split; [|done].
    apply elem_of_app. right. by apply list_elem_of_singleton.
  - simpl. intros id s Hs. rewrite lookup_deleteOldSessions in Hs.
    destruct (sessions (db st) !! id) as [s'|] eqn:E; [|done].
    case_decide; [done|]. injection Hs as <-.
    by apply (dated_by_app events _ (db st) Hd id s').
Qed.

(** X28: every session the worker stores is dated by the UTC day of
    the clock of one of the alarms it was sent, whatever the local time
    zone. *)
Theorem worker_dates_sessions_in_utc (tza : Z) (events : list Event) :
  ∀ id s, sessions (db (worker tza events idle)) !! id = Some s →
          ∃ name activeTab clock,
            Alarm name activeTab clock ∈ events
            ∧ SessionRecord.date s = JS.split_head "T" (Date.iso clock).
Proof.
  assert (H : ∀ st before, dated_by before (db st) →
                           dated_by (before ++ events) (db (worker tza events st))).
  { unfold worker. induction events as [|ev events IH]; intros st before Hd.
    - by apply dated_by_app.
    - simpl. replace (before ++ ev :: events)%list with ((before ++ [ev]) ++ events)%list
        by by rewrite <- app_assoc.
      by apply IH, react_dated. }
  apply (H idle []). apply map_Forall_empty.
Qed.

Lemma worker_dates_sessions_in_utc_witness :
  ∃ name activeTab clock,
    Alarm name activeTab clock ∈ busy_morning
    ∧ "2024-01-02" = JS.split_head "T" (Date.iso clock).
Proof.
  apply (worker_dates_sessions_in_utc west busy_morning 1
           {| SessionRecord.docKey := "gdoc_XYZ123"; SessionRecord.date := "2024-01-02";
              SessionRecord.durationMs := 1000;
              SessionRecord.timestamp := Date.iso 1704153600000 |}).
  by vm_compute.
Defined.

(** Half past eleven in the evening in New York is already the next day
    in the ledger. *)
Example late_evening :
  Date.iso 1704169800000 = "2024-01-02T04:30:00.000Z"
  ∧ Date.getDate west (Some 1704169800000) = Some 1
  ∧ (SessionRecord.date ∘ snd
     <$> getSessionsByDocKey "gdoc_XYZ123" (db (ticks 10 tab_two 1704169800000 idle)))
    = ["2024-01-02"].
Proof. by vm_compute. Qed.
